(** * Delta scan: snapshot-driven lazy file list and per-file reconciliation

    A shallow embedding of [src/functions/delta_scan.cpp] (DuckDB delta
    extension): the lazy file list [DeltaSnapshot], the filter-pushdown fork,
    the options, binding and per-file column reconciliation of
    [DeltaMultiFileReader], the deletion-vector to selection-vector
    translation, and the configuration of the kernel's engine builder from
    a path and a secret ([CreateBuilder]).

    Conventions.
    - [idx_t], [column_t], [uintptr_t] are 64-bit unsigned: values in [Z],
      wrap-around written with [idx_wrap]; [int64_t] row ids are values in [Z].
      The size of a vector held in memory is far below [2 ^ 64]: positions in
      such vectors are [nat], and a size plus or minus a small constant is
      exact.
    - [std::string] is [string] (a sequence of bytes).
    - C++ exceptions are the [Err] results of the [res] monad.
    - The delta kernel (FFI) and the DuckDB host classes are outside the
      repository; the few capabilities the code calls are fields of [Host]. *)

From Stdlib Require Import ZArith Lia Ascii String List Bool.
From stdpp Require Import base tactics option list gmap strings.

Local Open Scope string_scope.
Local Open Scope list_scope.
Local Open Scope Z_scope.

(** ** Machine integers *)

Definition idx_wrap (z : Z) : Z := z mod 2 ^ 64.

(** [DConstants::INVALID_INDEX], i.e. [idx_t(-1)]. *)
Definition INVALID_INDEX : Z := 2 ^ 64 - 1.

(** [COLUMN_IDENTIFIER_ROW_ID], i.e. [column_t(-1)]. *)
Definition COLUMN_IDENTIFIER_ROW_ID : Z := 2 ^ 64 - 1.

Definition IsRowIdColumnId (col_id : Z) : bool := col_id =? COLUMN_IDENTIFIER_ROW_ID.

(** Conversion of a signed 64-bit value to [uintptr_t] (usual arithmetic
    conversions of a mixed signed/unsigned comparison). *)
Definition to_uint64 (z : Z) : Z := z mod 2 ^ 64.

(** Narrowing of an [idx_t] to [sel_t] ([uint32_t]). *)
Definition to_sel_t (z : Z) : Z := z mod 2 ^ 32.

(** ** Exceptions *)

Inductive exception : Type :=
  | InternalException
  | IOException
  | KernelException
  | ConversionException.

Inductive res (A : Type) : Type :=
  | Ok (a : A)
  | Err (e : exception).
Arguments Ok {A} a.
Arguments Err {A} e.

#[global] Instance res_ret : MRet res := fun A a => Ok a.
#[global] Instance res_bind : MBind res := fun A B k m =>
  match m with
  | Ok a => k a
  | Err e => Err e
  end.

(** DuckDB's [vector<T>::operator[]] is bounds-checked and throws an
    [InternalException] out of range. *)
Definition vec_at {A} (v : list A) (i : Z) : res A :=
  if (0 <=? i) && (i <? Z.of_nat (length v)) then
    match v !! Z.to_nat i with
    | Some a => Ok a
    | None => Err InternalException
    end
  else Err InternalException.

(** ** Strings *)

Definition code (c : ascii) : Z := Z.of_nat (nat_of_ascii c).
Definition char_of (z : Z) : ascii := ascii_of_nat (Z.to_nat (z mod 256)).

Fixpoint string_map (f : ascii -> ascii) (s : string) : string :=
  match s with
  | EmptyString => EmptyString
  | String c r => String (f c) (string_map f r)
  end.

Fixpoint string_drop (n : nat) (s : string) : string :=
  match n, s with
  | O, _ => s
  | S n', EmptyString => EmptyString
  | S n', String _ r => string_drop n' r
  end.

Fixpoint string_rev_onto (s acc : string) : string :=
  match s with
  | EmptyString => acc
  | String c r => string_rev_onto r (String c acc)
  end.
Definition string_rev (s : string) : string := string_rev_onto s EmptyString.

Fixpoint drop_leading (c : ascii) (s : string) : string :=
  match s with
  | EmptyString => EmptyString
  | String d r => if Ascii.eqb d c then drop_leading c r else s
  end.

(** [StringUtil::StartsWith]. *)
Definition StartsWith (s p : string) : bool := String.prefix p s.

(** [StringUtil::RTrim(str, "/")]: erase everything after the last
    character that is not a slash. *)
Definition RTrim_slash (s : string) : string :=
  string_rev (drop_leading "/"%char (string_rev s)).

(** [StringUtil::CharacterToLower] / [StringUtil::Lower] (ASCII only); the
    hash and equality of [case_insensitive_map_t] compare lowered strings. *)
Definition CharacterToLower (c : ascii) : ascii :=
  if (65 <=? code c) && (code c <=? 90) then char_of (code c + 32) else c.
Definition Lower (s : string) : string := string_map CharacterToLower s.

(** ** [url_decode] *)

Definition hex_digit (c : ascii) : option Z :=
  let n := code c in
  if (48 <=? n) && (n <=? 57) then Some (n - 48)
  else if (97 <=? n) && (n <=? 102) then Some (n - 87)
  else if (65 <=? n) && (n <=? 70) then Some (n - 55)
  else None.

Definition isspace (c : ascii) : bool :=
  (code c =? 32) || ((9 <=? code c) && (code c <=? 13)).

(** Hexadecimal digits at the head of [s], most significant first. *)
Fixpoint hex_run (s : string) (acc : option Z) : option Z :=
  match s with
  | EmptyString => acc
  | String c r =>
      match hex_digit c with
      | Some d => hex_run r (Some (match acc with Some a => 16 * a + d | None => d end))
      | None => acc
      end
  end.

Fixpoint skip_space (s : string) : string :=
  match s with
  | String c r => if isspace c then skip_space r else s
  | EmptyString => s
  end.

Definition strip_0x (s : string) : option string :=
  match s with
  | String z (String x r) =>
      if (code z =? 48) && ((code x =? 120) || (code x =? 88)) then Some r else None
  | _ => None
  end.

Definition scan_hex (s : string) : option Z :=
  match strip_0x s with
  | Some r => hex_run r None
  | None => hex_run s None
  end.

(** [sscanf(s, "%x", &ii)]: skip white space, then an optional sign, an
    optional [0x] prefix and hexadecimal digits, stored as an [unsigned
    int]; [None] when nothing is stored in [ii] (input failure or matching
    failure; a [0x] prefix without digits is counted here, as the C standard
    has it). *)
Definition sscanf_x (s : string) : option Z :=
  match skip_space s with
  | String c r =>
      if code c =? 45 then option_map (fun v => (- v) mod 2 ^ 32) (scan_hex r)
      else if code c =? 43 then option_map (fun v => v mod 2 ^ 32) (scan_hex r)
      else option_map (fun v => v mod 2 ^ 32) (scan_hex (String c r))
  | EmptyString => None
  end.

(** The value the uninitialised local [ii] holds when [sscanf] stores
    nothing is indeterminate; it is supplied by [indet], a function of the
    two characters after the percent sign. *)
Section UrlDecode.
Variable indet : string -> Z.

Definition decode_escape (hex : string) : ascii :=
  char_of (match sscanf_x hex with Some ii => ii | None => indet hex end).

(** The [for] loop of [url_decode]: a percent sign consumes itself and
    the next two positions ([input.substr(i + 1, 2)], [i += 2]). *)
Fixpoint url_decode_loop (input : string) : string :=
  match input with
  | EmptyString => EmptyString
  | String c r =>
      if code c =? 37 then
        match r with
        | String a (String b r') =>
            String (decode_escape (String a (String b EmptyString))) (url_decode_loop r')
        | _ => String (decode_escape r) EmptyString
        end
      else String c (url_decode_loop r)
  end.

Definition plus_to_space (c : ascii) : ascii :=
  if code c =? 43 then " "%char else c.

Definition url_decode (input : string) : string :=
  url_decode_loop (string_map plus_to_space input).
End UrlDecode.

(** [DeltaSnapshot::ToDuckDBPath]. *)
Definition ToDuckDBPath (raw_path : string) : string :=
  if StartsWith raw_path "file://" then string_drop 7 raw_path else raw_path.

(** [DeltaSnapshot::ToDeltaPath]; [cwd_join] stands for
    [fs.JoinPath(fs.GetWorkingDirectory(), _)] of the local file system. *)
Fixpoint last_char (s : string) : option ascii :=
  match s with
  | EmptyString => None
  | String c EmptyString => Some c
  | String _ r => last_char r
  end.

(** [DeltaSnapshot::ToDeltaPath].  The source tests [path[path.size() - 1]],
    which for the empty path reads out of bounds (undefined behaviour); the
    value here on the empty path is not the source's, and what is proved of
    [ToDeltaPath] itself is stated for non-empty paths. *)
Definition ToDeltaPath (cwd_join : string -> string) (raw_path : string) : string :=
  let path :=
    if StartsWith raw_path "./" then "file://" +:+ cwd_join (string_drop 2 raw_path)
    else raw_path in
  match last_char path with
  | Some "/"%char => path
  | _ => path +:+ "/"
  end.

(** ** Host types *)

Inductive LogicalType : Type :=
  | BOOLEAN | INTEGER | BIGINT | UBIGINT | DOUBLE | DATE | VARCHAR | BLOB
  | OTHER_TYPE (id : nat).

#[global] Instance LogicalType_eq_dec : EqDecision LogicalType.
Proof. solve_decision. Defined.

Inductive Value : Type :=
  | Value_NULL (t : LogicalType)          (* [Value(LogicalType)]: the NULL of that type *)
  | Value_VARCHAR (s : string)            (* [Value(string)] *)
  | Value_BLOB_RAW (s : string)           (* [Value::BLOB_RAW] *)
  | Value_BIGINT (z : Z)
  | Value_UBIGINT (z : Z)
  | Value_BOOLEAN (b : bool)
  | Value_TYPED (t : LogicalType) (repr : string).

#[global] Instance Value_eq_dec : EqDecision Value.
Proof. solve_decision. Defined.

Record MultiFileReaderColumnDefinition := {
  name : string;
  type : LogicalType;
}.

(** A [ColumnIndex], by its primary index. *)
Definition ColumnIndex := Z.
Definition GetPrimaryIndex (c : ColumnIndex) : Z := c.

Inductive Expression : Type := Expression_of (repr : string).
Inductive TableFilter : Type := TableFilter_of (repr : string).

(** [TableFilterSet::filters], a [map<idx_t, unique_ptr<TableFilter>>] in
    key order. *)
Definition TableFilterSet := list (Z * TableFilter).

(** ** Delta kernel data *)

(** [ffi::KernelBoolSlice]: [ptr] is null or points to [len] booleans. *)
Record KernelBoolSlice := {
  ptr : option (list bool);
}.
Definition len (dv : KernelBoolSlice) : Z :=
  match ptr dv with
  | Some bits => Z.of_nat (length bits)
  | None => 0
  end.

(** The arguments of one call of the visitor callback, with what the
    kernel answers for them: [sf_stats] is [stats->num_records] when [stats]
    is not null, [sf_selection_vector] the result of
    [ffi::selection_vector_from_dv] for [dv_info]. *)
Record ScanFile := {
  sf_path : string;
  sf_size : Z;
  sf_stats : option Z;
  sf_selection_vector : res KernelBoolSlice;
  sf_partition_values : gmap string string;
}.

(** What one [ffi::kernel_scan_data_next] yields: an error, or the
    files visited by the callback during the call ([true]); an iterator
    with nothing left answers [false]. The scan data iterator is the list of
    its remaining answers. *)
Definition KernelScanDataIterator := list (res (list ScanFile)).

(** The kernel's snapshot of a table. *)
Record KernelSnapshot := {
  ks_version : Z;
  ks_schema : list (string * LogicalType);
}.

(** ** The world outside one file list *)

Inductive ffi_call : Type :=
  | ffi_builder_build (path : string)
  | ffi_snapshot (path : string)
  | ffi_scan (snapshot : nat)
  | ffi_kernel_scan_data_next.

#[global] Instance ffi_call_eq_dec : EqDecision ffi_call.
Proof. solve_decision. Defined.

(** A [shared_ptr] control block: the object and its use count. *)
Record SharedKernelSnapshot := {
  kernel_snapshot : KernelSnapshot;
  use_count : nat;
}.

(** [shared] is the store of [SharedKernelSnapshot] objects, by address;
    [calls] records the kernel entry points called so far, latest first. *)
Record World := {
  shared : gmap nat SharedKernelSnapshot;
  calls : list ffi_call;
}.

Definition log_call (c : ffi_call) (w : World) : World :=
  {| shared := shared w; calls := c :: calls w |}.

(** The number of snapshots the kernel was asked to open so far. *)
Definition is_ffi_snapshot (c : ffi_call) : bool :=
  match c with
  | ffi_snapshot _ => true
  | _ => false
  end.
Definition snapshots_opened (w : World) : nat :=
  length (List.filter is_ffi_snapshot (calls w)).

(** [make_shared_ptr]: a fresh address with use count one. *)
Definition make_shared_ptr (k : KernelSnapshot) (w : World) : nat * World :=
  let a := fresh (dom (shared w)) in
  (a, {| shared := <[a := {| kernel_snapshot := k; use_count := 1 |}]> (shared w);
         calls := calls w |}).

(** Copy of a [shared_ptr]: the use count of its object goes up by one. *)
Definition copy_shared_ptr (p : option nat) (w : World) : World :=
  match p with
  | Some a =>
      {| shared := alter (fun c => {| kernel_snapshot := kernel_snapshot c;
                                      use_count := S (use_count c) |}) a (shared w);
         calls := calls w |}
  | None => w
  end.

(** ** [DeltaFileMetaData] and [DeltaSnapshot] *)

(** Keys of a [case_insensitive_map_t] are compared after lowering, so the
    map is keyed by the lowered string. *)
Definition ci_insert {V} (k : string) (v : V) (m : gmap string V) : gmap string V :=
  <[Lower k := v]> m.
Definition ci_find {V} (k : string) (m : gmap string V) : option V :=
  m !! Lower k.
(** [unordered_map::insert]: no effect when the key is present. *)
Definition ci_insert_new {V} (k : string) (v : V) (m : gmap string V) : gmap string V :=
  match ci_find k m with
  | Some _ => m
  | None => ci_insert k v m
  end.

Record DeltaFileMetaData := {
  delta_snapshot_version : Z;
  file_number : Z;
  cardinality : Z;
  selection_vector : KernelBoolSlice;
  partition_map : gmap string string;
}.

(** Modelled from the spec: the default member initialisers of
    [DeltaFileMetaData], declared in [functions/delta_scan.hpp]; the spec has
    the row-count estimate and the deletion bitmap optional ("unknown" is a
    valid state), which the code tests as [DConstants::INVALID_INDEX] and a
    null [ptr]. *)
Definition DeltaFileMetaData_new : DeltaFileMetaData :=
  {| delta_snapshot_version := INVALID_INDEX;
     file_number := INVALID_INDEX;
     cardinality := INVALID_INDEX;
     selection_vector := {| ptr := None |};
     partition_map := ∅ |}.

Record DeltaSnapshot := {
  paths0 : string;                          (* [paths[0]] *)
  version : Z;
  snapshot : option nat;                    (* [shared_ptr<SharedKernelSnapshot>] *)
  extern_engine : bool;                     (* whether the engine handle is built *)
  scan_data_iterator : KernelScanDataIterator;
  names : list string;
  types : list LogicalType;
  have_bound : bool;
  metadata : list DeltaFileMetaData;
  initialized_snapshot : bool;
  initialized_scan : bool;
  files_exhausted : bool;
  resolved_files : list string;
  table_filters : TableFilterSet;
}.

(** ** The collaborators *)

(** What the code obtains from outside the repository: the delta kernel
    behind the FFI, DuckDB's filter combiner, casts and file system, and
    the values the platform leaves unspecified. *)
Record Host := {
  (* the value of the uninitialised [unsigned int ii] of [url_decode] *)
  indet_ii : string -> Z;
  (* the value of the uninitialised member [idx_t version] *)
  indet_version : Z;
  (* [fs.JoinPath(fs.GetWorkingDirectory(), _)] *)
  cwd_join : string -> string;
  (* [CreateBuilder] followed by [ffi::builder_build] *)
  kernel_builder_build : string -> res unit;
  (* [ffi::snapshot] *)
  kernel_snapshot_open : string -> res KernelSnapshot;
  (* [ffi::scan], [ffi::get_global_scan_state], [ffi::kernel_scan_data_init] *)
  kernel_scan : KernelSnapshot -> list string -> TableFilterSet -> res KernelScanDataIterator;
  (* [FilterCombiner::AddFilter] on each filter, then [GenerateTableScanFilters] *)
  GenerateTableScanFilters : list Expression -> list ColumnIndex -> TableFilterSet;
  (* [TableFilter::ToString] *)
  filter_ToString : TableFilter -> string -> string;
  (* [Value::DefaultCastAs] *)
  DefaultCastAs : Value -> LogicalType -> res Value;
  (* whether [delta_file_number] precedes [file_row_number] when the
     unordered map [columns_to_map] is iterated *)
  delta_file_number_first : bool;
}.

(** [NodeStatistics(estimated_cardinality, max_cardinality)]: both are
    marked as present by this constructor. *)
Record NodeStatistics := {
  estimated_cardinality : Z;
  max_cardinality : Z;
}.

(** The part of the [ClientContext] that [ComplexFilterPushdown] reads:
    the query profiler and the extension setting. *)
Record ClientContext := {
  profiler_IsEnabled : bool;
  delta_scan_explain_files_filtered : option Value;
}.

(** [MultiFilePushdownInfo], with its [extra_info] ([optional_idx] as
    [option]). *)
Record ExtraOperatorInfo := {
  file_filters : string;
  total_files : option Z;
  filtered_files : option Z;
}.
Record MultiFilePushdownInfo := {
  column_indexes : list ColumnIndex;
  extra_info : ExtraOperatorInfo;
}.

Section Snapshot.
Context (host : Host).

(** Modelled from the spec: the member initialisers of [DeltaSnapshot],
    declared in [functions/delta_scan.hpp]: a list starts with discovery not
    begun, not known exhausted, not bound, without snapshot and with an
    empty file store; [version] has no initialiser. *)
Definition DeltaSnapshot_members (path : string) : DeltaSnapshot :=
  {| paths0 := path;
     version := indet_version host;
     snapshot := None;
     extern_engine := false;
     scan_data_iterator := [];
     names := [];
     types := [];
     have_bound := false;
     metadata := [];
     initialized_snapshot := false;
     initialized_scan := false;
     files_exhausted := false;
     resolved_files := [];
     table_filters := [] |}.

(** The constructor [DeltaSnapshot::DeltaSnapshot]: the list of paths is
    [{ToDeltaPath(path)}]. *)
Definition DeltaSnapshot_new (path : string) : DeltaSnapshot :=
  DeltaSnapshot_members (ToDeltaPath (cwd_join host) path).

Definition GetPath (s : DeltaSnapshot) : string := paths0 s.

(** The path pushed for a visited file (lines 53 to 60). *)
Definition resolve_path (root path : string) : string :=
  ToDuckDBPath (url_decode (indet_ii host) (RTrim_slash root +:+ ("/" +:+ path))).

(** The loop over [context->names] building [constant_map]. *)
Definition build_constant_map (cols : list string) (partition_values : gmap string string)
    : gmap string string :=
  fold_left (fun constant_map col =>
               match partition_values !! col with
               | Some partition_val => ci_insert col partition_val constant_map
               | None => constant_map
               end) cols ∅.

Definition with_files (s : DeltaSnapshot) (files : list string)
    (mds : list DeltaFileMetaData) : DeltaSnapshot :=
  {| paths0 := paths0 s; version := version s; snapshot := snapshot s;
     extern_engine := extern_engine s; scan_data_iterator := scan_data_iterator s;
     names := names s; types := types s; have_bound := have_bound s;
     metadata := mds;
     initialized_snapshot := initialized_snapshot s;
     initialized_scan := initialized_scan s;
     files_exhausted := files_exhausted s;
     resolved_files := files;
     table_filters := table_filters s |}.

Definition with_iterator (s : DeltaSnapshot) (it : KernelScanDataIterator)
    (exhausted : bool) : DeltaSnapshot :=
  {| paths0 := paths0 s; version := version s; snapshot := snapshot s;
     extern_engine := extern_engine s; scan_data_iterator := it;
     names := names s; types := types s; have_bound := have_bound s;
     metadata := metadata s;
     initialized_snapshot := initialized_snapshot s;
     initialized_scan := initialized_scan s;
     files_exhausted := exhausted;
     resolved_files := resolved_files s;
     table_filters := table_filters s |}.

(** [DeltaSnapshot::VisitCallback], [context] being [s]. *)
Definition VisitCallback (s : DeltaSnapshot) (f : ScanFile) : res DeltaSnapshot :=
  let files := resolved_files s ++ [resolve_path (GetPath s) (sf_path f)] in
  let card := match sf_stats f with Some num_records => num_records | None => INVALID_INDEX end in
  sv ← sf_selection_vector f;
  let md :=
    {| delta_snapshot_version := version s;
       file_number := Z.of_nat (length files) - 1;
       cardinality := card;
       selection_vector := match ptr sv with Some _ => sv | None => {| ptr := None |} end;
       partition_map := build_constant_map (names s) (sf_partition_values f) |} in
  Ok (with_files s files (metadata s ++ [md])).

(** [DeltaSnapshot::VisitData]: the callback once per visited file. *)
Fixpoint VisitData (s : DeltaSnapshot) (batch : list ScanFile) : res DeltaSnapshot :=
  match batch with
  | [] => Ok s
  | f :: batch' => s' ← VisitCallback s f; VisitData s' batch'
  end.

(** [DeltaSnapshot::InitializeSnapshot]. *)
Definition InitializeSnapshot (w : World) (s : DeltaSnapshot) : res (World * DeltaSnapshot) :=
  _ ← kernel_builder_build host (paths0 s);
  let w := log_call (ffi_builder_build (paths0 s)) w in
  '(w, snap) ← match snapshot s with
               | Some a => Ok (w, Some a)
               | None =>
                   k ← kernel_snapshot_open host (paths0 s);
                   let '(a, w) := make_shared_ptr k (log_call (ffi_snapshot (paths0 s)) w) in
                   Ok (w, Some a)
               end;
  Ok (w, {| paths0 := paths0 s; version := version s; snapshot := snap;
            extern_engine := true; scan_data_iterator := scan_data_iterator s;
            names := names s; types := types s; have_bound := have_bound s;
            metadata := metadata s;
            initialized_snapshot := true;
            initialized_scan := initialized_scan s;
            files_exhausted := files_exhausted s;
            resolved_files := resolved_files s;
            table_filters := table_filters s |}).

(** [snapshot->GetLockingRef()]: the object behind the shared pointer. *)
Definition GetLockingRef (w : World) (s : DeltaSnapshot) : res (nat * KernelSnapshot) :=
  match snapshot s with
  | Some a =>
      match shared w !! a with
      | Some c => Ok (a, kernel_snapshot c)
      | None => Err InternalException
      end
  | None => Err InternalException
  end.

(** [DeltaSnapshot::InitializeScan]. *)
Definition InitializeScan (w : World) (s : DeltaSnapshot) : res (World * DeltaSnapshot) :=
  '(a, k) ← GetLockingRef w s;
  it ← kernel_scan host k (names s) (table_filters s);
  Ok (log_call (ffi_scan a) w,
      {| paths0 := paths0 s; version := ks_version k; snapshot := snapshot s;
         extern_engine := extern_engine s; scan_data_iterator := it;
         names := names s; types := types s; have_bound := have_bound s;
         metadata := metadata s;
         initialized_snapshot := initialized_snapshot s;
         initialized_scan := true;
         files_exhausted := files_exhausted s;
         resolved_files := resolved_files s;
         table_filters := table_filters s |}).

(** The [while (i >= resolved_files.size())] loop of [GetFileInternal]
    and the [return] after it; [it] is the scan data iterator. *)
Fixpoint pull_until (i : nat) (it : KernelScanDataIterator) (w : World) (s : DeltaSnapshot)
    : res (string * World * DeltaSnapshot) :=
  match resolved_files s !! i with
  | Some file => Ok (file, w, with_iterator s it (files_exhausted s))
  | None =>
      match it with
      | [] => Ok ("", log_call ffi_kernel_scan_data_next w, with_iterator s [] true)
      | Err e :: _ => Err e
      | Ok batch :: it' =>
          s' ← VisitData s batch;
          pull_until i it' (log_call ffi_kernel_scan_data_next w) s'
      end
  end.

(** The first two statements of [GetFileInternal]. *)
Definition ensure_initialized (w : World) (s : DeltaSnapshot) : res (World * DeltaSnapshot) :=
  '(w, s) ← (if initialized_snapshot s then Ok (w, s) else InitializeSnapshot w s);
  if initialized_scan s then Ok (w, s) else InitializeScan w s.

(** [DeltaSnapshot::GetFileInternal]. *)
Definition GetFileInternal (w : World) (s : DeltaSnapshot) (i : nat)
    : res (string * World * DeltaSnapshot) :=
  '(w, s) ← ensure_initialized w s;
  match resolved_files s !! i with
  | Some file => Ok (file, w, s)
  | None =>
      if files_exhausted s then Ok ("", w, s)
      else pull_until i (scan_data_iterator s) w s
  end.

(** [DeltaSnapshot::GetFile] (the lock is held throughout). *)
Definition GetFile (w : World) (s : DeltaSnapshot) (i : nat)
    : res (string * World * DeltaSnapshot) :=
  GetFileInternal w s i.

(** The loop [while (!GetFileInternal(i).empty()) i++] of [GetAllFiles]
    and [GetTotalFileCount]; [None] when [fuel] iterations do not reach
    its end. *)
Fixpoint expand_from (fuel : nat) (w : World) (s : DeltaSnapshot) (i : nat)
    : option (res (World * DeltaSnapshot)) :=
  match fuel with
  | O => None
  | S fuel' =>
      match GetFileInternal w s i with
      | Err e => Some (Err e)
      | Ok (file, w', s') =>
          if String.eqb file "" then Some (Ok (w', s'))
          else expand_from fuel' w' s' (S i)
      end
  end.

(** A number of iterations that is always enough: one for each file
    already known from [i] on, one for each answer and each file left in
    the iterator, one to see the end. *)
Fixpoint files_left (it : KernelScanDataIterator) : nat :=
  match it with
  | [] => O
  | Ok batch :: it' => S (length batch + files_left it')
  | Err _ :: it' => S (files_left it')
  end.

Definition expansion_fuel (s : DeltaSnapshot) (i : nat) : nat :=
  S ((length (resolved_files s) - i) + files_left (scan_data_iterator s)).

(** The loop run to its end; the last branch is never taken
    ([expand_reaches_end]). *)
Definition expand (w : World) (s : DeltaSnapshot) (i : nat) : res (World * DeltaSnapshot) :=
  let fuel := match ensure_initialized w s with
              | Ok (_, s1) => expansion_fuel s1 i
              | Err _ => 1%nat
              end in
  match expand_from fuel w s i with
  | Some r => r
  | None => Err InternalException
  end.

(** [DeltaSnapshot::GetAllFiles]. *)
Definition GetAllFiles (w : World) (s : DeltaSnapshot)
    : res (list string * World * DeltaSnapshot) :=
  '(w, s) ← expand w s (length (resolved_files s));
  Ok (resolved_files s, w, s).

(** [DeltaSnapshot::GetTotalFileCount]. *)
Definition GetTotalFileCount (w : World) (s : DeltaSnapshot)
    : res (nat * World * DeltaSnapshot) :=
  '(w, s) ← expand w s (length (resolved_files s));
  Ok (length (resolved_files s), w, s).

(** The loop of [GetCardinality] over [metadata]. *)
Definition sum_cardinality (mds : list DeltaFileMetaData) : Z * bool :=
  fold_left (fun '(total_tuple_count, have_any_stats) metadatum =>
               if cardinality metadatum =? INVALID_INDEX
               then (total_tuple_count, have_any_stats)
               else (idx_wrap (total_tuple_count + cardinality metadatum), true))
            mds (0, false).

(** [DeltaSnapshot::GetCardinality]; [None] is the null result. *)
Definition GetCardinality (w : World) (s : DeltaSnapshot)
    : res (option NodeStatistics * World * DeltaSnapshot) :=
  '(total_file_count, w, s) ← GetTotalFileCount w s;
  if (total_file_count =? 0)%nat then
    Ok (Some {| estimated_cardinality := 0; max_cardinality := 0 |}, w, s)
  else
    let '(total_tuple_count, have_any_stats) := sum_cardinality (metadata s) in
    if have_any_stats then
      Ok (Some {| estimated_cardinality := total_tuple_count;
                  max_cardinality := total_tuple_count |}, w, s)
    else Ok (None, w, s).

(** [DeltaSnapshot::GetVersion] and [DeltaSnapshot::GetMetaData]. *)
Definition GetVersion (s : DeltaSnapshot) : Z := version s.
Definition GetMetaData (s : DeltaSnapshot) (index : Z) : res DeltaFileMetaData :=
  vec_at (metadata s) index.

(** [DeltaSnapshot::Bind]; the two vectors are passed by reference. *)
Definition Bind (w : World) (s : DeltaSnapshot)
    (return_types : list LogicalType) (names_p : list string)
    : res (list LogicalType * list string * World * DeltaSnapshot) :=
  if have_bound s then Ok (types s, names s, w, s)
  else
    '(w, s) ← (if initialized_snapshot s then Ok (w, s) else InitializeSnapshot w s);
    '(_, k) ← GetLockingRef w s;
    let schema := ks_schema k in
    let names_p := names_p ++ schema.*1 in
    let return_types := return_types ++ schema.*2 in
    Ok (return_types, names_p, w,
        {| paths0 := paths0 s; version := version s; snapshot := snapshot s;
           extern_engine := extern_engine s; scan_data_iterator := scan_data_iterator s;
           names := names_p; types := return_types; have_bound := true;
           metadata := metadata s;
           initialized_snapshot := initialized_snapshot s;
           initialized_scan := initialized_scan s;
           files_exhausted := files_exhausted s;
           resolved_files := resolved_files s;
           table_filters := table_filters s |}).

(** [Value::GetValue<bool>]. *)
Definition GetValue_bool (v : Value) : res bool :=
  match v with
  | Value_BOOLEAN b => Ok b
  | Value_NULL _ => Err InternalException
  | _ =>
      v' ← DefaultCastAs host v BOOLEAN;
      match v' with
      | Value_BOOLEAN b => Ok b
      | _ => Err InternalException
      end
  end.

(** The fork built by [ComplexFilterPushdown] (lines 535 to 543). *)
Definition make_filtered_list (s : DeltaSnapshot) (filterstmp : TableFilterSet)
    : DeltaSnapshot :=
  let filtered_list := DeltaSnapshot_new (paths0 s) in
  {| paths0 := paths0 filtered_list; version := version filtered_list;
     snapshot := snapshot s;
     extern_engine := extern_engine filtered_list;
     scan_data_iterator := scan_data_iterator filtered_list;
     names := names s; types := types filtered_list;
     have_bound := have_bound filtered_list;
     metadata := metadata filtered_list;
     initialized_snapshot := initialized_snapshot filtered_list;
     initialized_scan := initialized_scan filtered_list;
     files_exhausted := files_exhausted filtered_list;
     resolved_files := resolved_files filtered_list;
     table_filters := filterstmp |}.

(** The rendering of the applied filters (lines 560 to 573). *)
Definition render_filters (cols : list string) (filters : TableFilterSet) : string :=
  fst (fold_left (fun '(filters_info, first_item) '(column_index, filter) =>
                    if (0 <=? column_index) && (column_index <? Z.of_nat (length cols)) then
                      let sep := if first_item : bool then "" else String "010"%char "" in
                      let col_name := default "" (cols !! Z.to_nat column_index) in
                      (filters_info +:+ sep +:+ filter_ToString host filter col_name, false)
                    else (filters_info, first_item))
                 filters ("", true)).

(** [DeltaSnapshot::ComplexFilterPushdown]; [None] is the null result.
    The second snapshot of the result is the parent after the call. *)
Definition ComplexFilterPushdown (context : ClientContext) (w : World) (s : DeltaSnapshot)
    (info : MultiFilePushdownInfo) (filters : list Expression)
    : res (option DeltaSnapshot * World * DeltaSnapshot * MultiFilePushdownInfo) :=
  match filters with
  | [] => Ok (None, w, s, info)
  | _ =>
      let filterstmp := GenerateTableScanFilters host (rev filters) (column_indexes info) in
      let filtered_list := make_filtered_list s filterstmp in
      let w := copy_shared_ptr (snapshot s) w in
      if profiler_IsEnabled context then
        match delta_scan_explain_files_filtered context with
        | None => Err InternalException
        | Some result =>
            enabled ← GetValue_bool result;
            if enabled : bool then
              '(old_total, w, s) ← GetTotalFileCount w s;
              '(new_total, w, filtered_list) ← GetTotalFileCount w filtered_list;
              let x := extra_info info in
              let x := if (old_total =? new_total)%nat then x
                       else {| file_filters := render_filters (names s) (table_filters filtered_list);
                               total_files := total_files x;
                               filtered_files := filtered_files x |} in
              x ← match total_files x with
                  | None => Ok {| file_filters := file_filters x;
                                  total_files := Some (Z.of_nat old_total);
                                  filtered_files := filtered_files x |}
                  | Some t => if t <? Z.of_nat old_total then Err InternalException else Ok x
                  end;
              x ← match filtered_files x with
                  | Some f =>
                      if Z.of_nat new_total <=? f then
                        Ok {| file_filters := file_filters x; total_files := total_files x;
                              filtered_files := Some (Z.of_nat new_total) |}
                      else Err InternalException
                  | None => Ok {| file_filters := file_filters x; total_files := total_files x;
                                  filtered_files := Some (Z.of_nat new_total) |}
                  end;
              Ok (Some filtered_list, w, s,
                  {| column_indexes := column_indexes info; extra_info := x |})
            else Ok (Some filtered_list, w, s, info)
        end
      else Ok (Some filtered_list, w, s, info)
  end.
End Snapshot.

(** ** [DeltaMultiFileReader] *)

Record MultiFileReaderOptions := {
  auto_detect_hive_partitioning : bool;
  hive_partitioning : bool;
  union_by_name : bool;
  custom_options : gmap string Value;       (* a [case_insensitive_map_t<Value>] *)
}.

(** [MultiFileReaderData]; [constant_map] is a vector of
    [MultiFileConstantEntry (column_id, value)]. *)
Record MultiFileReaderData := {
  file_list_idx : option Z;
  constant_map : list (Z * Value);
  column_mapping : list Z;
  column_ids : list Z;
  cast_map : gmap Z LogicalType;
  empty_columns : bool;
}.

Record DeltaMultiFileReaderGlobalState := {
  extra_columns : list LogicalType;
  delta_file_number_idx : Z;
  file_row_number_idx : Z;
}.

(** Modelled from the spec: the member initialisers of
    [DeltaMultiFileReaderGlobalState], declared in [functions/delta_scan.hpp]:
    a synthetic column that is not mapped has no index, which the code tests
    as [DConstants::INVALID_INDEX]. *)
Definition DeltaMultiFileReaderGlobalState_new (extra : list LogicalType)
    : DeltaMultiFileReaderGlobalState :=
  {| extra_columns := extra;
     delta_file_number_idx := INVALID_INDEX;
     file_row_number_idx := INVALID_INDEX |}.

(** A [Vector] in unified format: row [i] holds [vdata[sel->get_index(i)]];
    [vsel = None] is the incremental selection. *)
Record Vector := {
  vsel : option (list nat);
  vdata : list Value;
}.

Record DataChunk := {
  data : list Vector;
  size : nat;
}.

Definition get_index (sel : option (list nat)) (i : nat) : nat :=
  match sel with
  | None => i
  | Some l => nth i l O
  end.

(** [UnifiedVectorFormat::GetData<int64_t>] at one position. *)
Definition int64_of (v : Value) : Z :=
  match v with
  | Value_BIGINT z => z
  | _ => 0
  end.

Definition row_id_at (row_id_column : Vector) (i : nat) : Z :=
  int64_of (nth (get_index (vsel row_id_column) i) (vdata row_id_column) (Value_BIGINT 0)).

(** [dv.ptr[row_id]]. *)
Definition dv_at (dv : KernelBoolSlice) (row_id : Z) : bool :=
  match ptr dv with
  | Some bits => nth (Z.to_nat row_id) bits false
  | None => false
  end.

(** One iteration of the loop of [DuckSVFromDeltaSV]. *)
Definition sv_step (dv : KernelBoolSlice) (row_id_column : Vector)
    (st : list Z * nat) (i : nat) : list Z * nat :=
  let '(result, current_select) := st in
  let row_id := row_id_at row_id_column i in
  if (len dv <=? to_uint64 row_id) || dv_at dv row_id
  then (<[current_select := to_sel_t (Z.of_nat i)]> result, S current_select)
  else (result, current_select).

(** [DuckSVFromDeltaSV]: the selection vector (its [count] entries of
    type [sel_t]) and [select_count]. [uninit] gives the content of the
    freshly allocated selection buffer. *)
Definition DuckSVFromDeltaSV (uninit : nat -> Z) (dv : KernelBoolSlice)
    (row_id_column : Vector) (count : nat) : list Z * nat :=
  fold_left (sv_step dv row_id_column) (seq 0 count) (uninit <$> seq 0 count, O).

(** [DataChunk::Slice(sel_vector, count)]. *)
Definition Slice (chunk : DataChunk) (sv : list Z) (select_count : nat) : DataChunk :=
  {| data := (fun v => {| vsel := Some ((fun k => get_index (vsel v) (Z.to_nat k)) <$> take select_count sv);
                          vdata := vdata v |}) <$> data chunk;
     size := select_count |}.

Section Reader.
Context (host : Host).

(** The base class [MultiFileReader] belongs to DuckDB. *)
Variable base_FinalizeBind :
  MultiFileReaderOptions -> string ->
  list MultiFileReaderColumnDefinition -> list MultiFileReaderColumnDefinition ->
  list ColumnIndex -> MultiFileReaderData -> res MultiFileReaderData.
Variable base_FinalizeChunk : MultiFileReaderData -> DataChunk -> res DataChunk.
Variable uninit_sel : nat -> Z.

Definition add_constant (rd : MultiFileReaderData) (column_id : Z) (v : Value)
    : MultiFileReaderData :=
  {| file_list_idx := file_list_idx rd;
     constant_map := constant_map rd ++ [(column_id, v)];
     column_mapping := column_mapping rd;
     column_ids := column_ids rd;
     cast_map := cast_map rd;
     empty_columns := empty_columns rd |}.

(** [optional_ptr] and [optional_idx] throw when empty. *)
Definition deref {A} (p : option A) : res A :=
  match p with
  | Some a => Ok a
  | None => Err InternalException
  end.

Definition option_enabled (key : string) (options : MultiFileReaderOptions) : res bool :=
  match ci_find key (custom_options options) with
  | Some v => GetValue_bool host v
  | None => Ok false
  end.

(** The loop of [FinalizeBind] over [global_column_ids] (lines 742 to 757). *)
Fixpoint bind_partitions (partitions : gmap string string)
    (global_columns : list MultiFileReaderColumnDefinition)
    (ids : list ColumnIndex) (i : Z) (rd : MultiFileReaderData) : res MultiFileReaderData :=
  match ids with
  | [] => Ok rd
  | id :: ids' =>
      let col_id := GetPrimaryIndex id in
      if IsRowIdColumnId col_id then bind_partitions partitions global_columns ids' (i + 1) rd
      else
        col ← vec_at global_columns col_id;
        match ci_find (name col) partitions with
        | Some partition_val =>
            let current_type := type col in
            if decide (current_type = BLOB) then
              bind_partitions partitions global_columns ids' (i + 1)
                (add_constant rd i (Value_BLOB_RAW partition_val))
            else
              maybe_value ← DefaultCastAs host (Value_VARCHAR partition_val) current_type;
              bind_partitions partitions global_columns ids' (i + 1)
                (add_constant rd i maybe_value)
        | None => bind_partitions partitions global_columns ids' (i + 1) rd
        end
  end.

(** [DeltaMultiFileReader::FinalizeBind]; [snapshot] is the file list
    [global_state->file_list] points to. *)
Definition FinalizeBind (file_options : MultiFileReaderOptions) (filename : string)
    (local_columns global_columns : list MultiFileReaderColumnDefinition)
    (global_column_ids : list ColumnIndex) (reader_data : MultiFileReaderData)
    (global_state : option DeltaMultiFileReaderGlobalState) (snapshot : DeltaSnapshot)
    : res MultiFileReaderData :=
  rd ← base_FinalizeBind file_options filename local_columns global_columns
         global_column_ids reader_data;
  file_number_opt ← option_enabled "delta_file_number" file_options;
  rd ← (if file_number_opt : bool then
          delta_global_state ← deref global_state;
          Ok (add_constant rd (delta_file_number_idx delta_global_state) (Value_UBIGINT 0))
        else Ok rd);
  _ ← deref global_state;
  index ← deref (file_list_idx rd);
  file_metadata ← GetMetaData snapshot index;
  if decide (partition_map file_metadata = ∅) then Ok rd
  else bind_partitions (partition_map file_metadata) global_columns global_column_ids 0 rd.

(** [DeltaMultiFileReaderGlobalState::SetColumnIdx]. *)
Definition SetColumnIdx (g : DeltaMultiFileReaderGlobalState) (column : string) (idx : Z)
    : res DeltaMultiFileReaderGlobalState :=
  if String.eqb column "file_row_number" then
    Ok {| extra_columns := extra_columns g;
          delta_file_number_idx := delta_file_number_idx g;
          file_row_number_idx := idx |}
  else if String.eqb column "delta_file_number" then
    Ok {| extra_columns := extra_columns g;
          delta_file_number_idx := idx;
          file_row_number_idx := file_row_number_idx g |}
  else Err IOException.

(** The first loop of [InitializeGlobalState]: the projected columns by
    name ([insert] keeps the first entry of a name). *)
Fixpoint select_columns (global_columns : list MultiFileReaderColumnDefinition)
    (ids : list ColumnIndex) (i : Z) (selected_columns : gmap string Z)
    : res (gmap string Z) :=
  match ids with
  | [] => Ok selected_columns
  | id :: ids' =>
      let global_id := GetPrimaryIndex id in
      if IsRowIdColumnId global_id then select_columns global_columns ids' (i + 1) selected_columns
      else
        col ← vec_at global_columns global_id;
        select_columns global_columns ids' (i + 1) (ci_insert_new (name col) i selected_columns)
  end.

(** [columns_to_map], in the order its iteration visits it. *)
Definition columns_to_map (with_file_number : bool) : list (string * LogicalType) :=
  if with_file_number then
    if delta_file_number_first host
    then [("delta_file_number", UBIGINT); ("file_row_number", BIGINT)]
    else [("file_row_number", BIGINT); ("delta_file_number", UBIGINT)]
  else [("file_row_number", BIGINT)].

(** The loop over [columns_to_map] (lines 850 to 870): the mapped
    columns and the extra columns. *)
Fixpoint map_columns (selected_columns : gmap string Z) (n_projected : Z)
    (required : list (string * LogicalType)) (col_offset : Z)
    : list (string * Z) * list LogicalType :=
  match required with
  | [] => ([], [])
  | (column, ty) :: required' =>
      match ci_find column selected_columns with
      | Some idx =>
          let '(mapped, extra) := map_columns selected_columns n_projected required' col_offset in
          ((column, idx) :: mapped, extra)
      | None =>
          let current_col_idx := n_projected + col_offset in
          let '(mapped, extra) :=
            map_columns selected_columns n_projected required' (col_offset + 1) in
          ((column, current_col_idx) :: mapped, ty :: extra)
      end
  end.

Fixpoint set_column_idxs (g : DeltaMultiFileReaderGlobalState) (mapped : list (string * Z))
    : res DeltaMultiFileReaderGlobalState :=
  match mapped with
  | [] => Ok g
  | (column, idx) :: mapped' => g' ← SetColumnIdx g column idx; set_column_idxs g' mapped'
  end.

(** [DeltaMultiFileReader::InitializeGlobalState]. *)
Definition InitializeGlobalState (file_options : MultiFileReaderOptions)
    (global_columns : list MultiFileReaderColumnDefinition)
    (global_column_ids : list ColumnIndex) : res DeltaMultiFileReaderGlobalState :=
  selected_columns ← select_columns global_columns global_column_ids 0 ∅;
  demo_gen_col_opt ← option_enabled "delta_file_number" file_options;
  let '(mapped_columns, extra) :=
    map_columns selected_columns (Z.of_nat (length global_column_ids))
                (columns_to_map demo_gen_col_opt) 0 in
  set_column_idxs (DeltaMultiFileReaderGlobalState_new extra) mapped_columns.

(** The constant test at the head of the mapping loop (lines 897 to 903). *)
Definition is_constant (rd : MultiFileReaderData) (i : Z) : bool :=
  existsb (fun entry => fst entry =? i) (constant_map rd).

(** [name_map], built over [local_columns] (a later column of the same
    name replaces an earlier one). *)
Fixpoint build_name_map (local_columns : list MultiFileReaderColumnDefinition)
    (col_idx : Z) (name_map : gmap string Z) : gmap string Z :=
  match local_columns with
  | [] => name_map
  | col :: rest => build_name_map rest (col_idx + 1) (ci_insert (name col) col_idx name_map)
  end.

(** The loop of [CustomMulfiFileNameMapping] over [global_column_ids]. *)
Fixpoint name_mapping_loop (name_map : gmap string Z)
    (local_columns global_columns : list MultiFileReaderColumnDefinition)
    (ids : list ColumnIndex) (i : Z) (rd : MultiFileReaderData) : res MultiFileReaderData :=
  match ids with
  | [] => Ok rd
  | id :: ids' =>
      if is_constant rd i then
        name_mapping_loop name_map local_columns global_columns ids' (i + 1) rd
      else
        let global_id := GetPrimaryIndex id in
        if Z.of_nat (length global_columns) <=? global_id then Err InternalException
        else
          global ← vec_at global_columns global_id;
          match ci_find (name global) name_map with
          | None =>
              name_mapping_loop name_map local_columns global_columns ids' (i + 1)
                (add_constant rd i (Value_NULL (type global)))
          | Some local_id =>
              local ← vec_at local_columns local_id;
              let casts := if decide (type global = type local) then cast_map rd
                           else <[local_id := type global]> (cast_map rd) in
              name_mapping_loop name_map local_columns global_columns ids' (i + 1)
                {| file_list_idx := file_list_idx rd;
                   constant_map := constant_map rd;
                   column_mapping := column_mapping rd ++ [i];
                   column_ids := column_ids rd ++ [local_id];
                   cast_map := casts;
                   empty_columns := empty_columns rd |}
          end
  end.

Definition update_empty_columns (rd : MultiFileReaderData) : MultiFileReaderData :=
  {| file_list_idx := file_list_idx rd;
     constant_map := constant_map rd;
     column_mapping := column_mapping rd;
     column_ids := column_ids rd;
     cast_map := cast_map rd;
     empty_columns := match column_ids rd with [] => true | _ => false end |}.

(** [CustomMulfiFileNameMapping]. *)
Definition CustomMulfiFileNameMapping
    (local_columns global_columns : list MultiFileReaderColumnDefinition)
    (global_column_ids : list ColumnIndex) (reader_data : MultiFileReaderData)
    : res MultiFileReaderData :=
  let name_map := build_name_map local_columns 0 ∅ in
  rd ← name_mapping_loop name_map local_columns global_columns global_column_ids 0 reader_data;
  Ok (update_empty_columns rd).

(** [DeltaMultiFileReader::CreateColumnMapping]. *)
Definition CreateColumnMapping
    (local_columns global_columns : list MultiFileReaderColumnDefinition)
    (global_column_ids : list ColumnIndex) (reader_data : MultiFileReaderData)
    (global_state : option DeltaMultiFileReaderGlobalState) : res MultiFileReaderData :=
  rd ← CustomMulfiFileNameMapping local_columns global_columns global_column_ids reader_data;
  delta_global_state ← deref global_state;
  rd ← (if Z.of_nat (length global_column_ids) <=? file_row_number_idx delta_global_state then
          let name_map := build_name_map local_columns 0 ∅ in
          match ci_find "file_row_number" name_map with
          | None => Err IOException
          | Some local_id =>
              Ok {| file_list_idx := file_list_idx rd;
                    constant_map := constant_map rd;
                    column_mapping := column_mapping rd ++ [file_row_number_idx delta_global_state];
                    column_ids := column_ids rd ++ [local_id];
                    cast_map := cast_map rd;
                    empty_columns := empty_columns rd |}
          end
        else Ok rd);
  Ok (update_empty_columns rd).

(** The demonstration expression [0 + 7] executed into a column. *)
Definition execute_dummy_expression (chunk : DataChunk) (idx : Z) : res DataChunk :=
  _ ← vec_at (data chunk) idx;
  Ok {| data := <[Z.to_nat idx := {| vsel := Some (replicate (size chunk) O);
                                      vdata := [Value_UBIGINT 7] |}]> (data chunk);
        size := size chunk |}.

(** [DeltaMultiFileReader::FinalizeChunk]; [snapshot] is the file list
    [global_state->file_list] points to. *)
Definition FinalizeChunk (reader_data : MultiFileReaderData) (chunk : DataChunk)
    (global_state : option DeltaMultiFileReaderGlobalState) (snapshot : DeltaSnapshot)
    : res DataChunk :=
  chunk ← base_FinalizeChunk reader_data chunk;
  delta_global_state ← deref global_state;
  index ← deref (file_list_idx reader_data);
  file_metadata ← GetMetaData snapshot index;
  chunk ← (match ptr (selection_vector file_metadata) with
           | Some _ =>
               if (size chunk =? 0)%nat then Ok chunk
               else
                 file_row_number_column ←
                   vec_at (data chunk) (file_row_number_idx delta_global_state);
                 let '(sv, select_count) :=
                   DuckSVFromDeltaSV uninit_sel (selection_vector file_metadata)
                                     file_row_number_column (size chunk) in
                 Ok (Slice chunk sv select_count)
           | None => Ok chunk
           end);
  if delta_file_number_idx delta_global_state =? INVALID_INDEX then Ok chunk
  else execute_dummy_expression chunk (delta_file_number_idx delta_global_state).
End Reader.

(** ** [DeltaMultiFileReader]: options and binding *)

Section ReaderBind.
Context (host : Host).

(** The base class [MultiFileReader] belongs to DuckDB. *)
Variable base_ParseOption :
  string -> Value -> MultiFileReaderOptions -> res (bool * MultiFileReaderOptions).
Variable base_BindOptions :
  MultiFileReaderOptions -> list LogicalType -> list string ->
  res (MultiFileReaderOptions * list LogicalType * list string).

(** [options.custom_options[key] = val]. *)
Definition set_custom_option (key : string) (val : Value) (options : MultiFileReaderOptions)
    : MultiFileReaderOptions :=
  {| auto_detect_hive_partitioning := auto_detect_hive_partitioning options;
     hive_partitioning := hive_partitioning options;
     union_by_name := union_by_name options;
     custom_options := ci_insert key val (custom_options options) |}.

(** [DeltaMultiFileReader::ParseOption]. *)
Definition ParseOption (key : string) (val : Value) (options : MultiFileReaderOptions)
    : res (bool * MultiFileReaderOptions) :=
  let loption := Lower key in
  if String.eqb loption "delta_file_number" then Ok (true, set_custom_option loption val options)
  else if String.eqb loption "file_row_number" then
    Ok (true, set_custom_option loption val options)
  else base_ParseOption key val options.

(** [DeltaMultiFileReader::Bind]: the result, the two vectors, and
    [bind_data.file_row_number_idx]. *)
Definition DeltaMultiFileReader_Bind (options : MultiFileReaderOptions) (w : World)
    (files : DeltaSnapshot) (return_types : list LogicalType) (names_p : list string)
    : res (bool * list LogicalType * list string * Z * World * DeltaSnapshot) :=
  '(return_types, names_p, w, delta_snapshot) ← Bind host w files return_types names_p;
  let file_row_number_enabled :=
    bool_decide (is_Some (ci_find "file_row_number" (custom_options options))) in
  if file_row_number_enabled then
    Ok (true, return_types ++ [BIGINT], names_p ++ ["file_row_number"],
        Z.of_nat (length names_p), w, delta_snapshot)
  else Ok (true, return_types, names_p, Z.of_nat (length names_p), w, delta_snapshot).

(** [DeltaMultiFileReader::BindOptions]. *)
Definition BindOptions (options : MultiFileReaderOptions)
    (return_types : list LogicalType) (names_p : list string)
    : res (MultiFileReaderOptions * list LogicalType * list string) :=
  let options :=
    {| auto_detect_hive_partitioning := false;
       hive_partitioning := false;
       union_by_name := false;
       custom_options := custom_options options |} in
  '(options, return_types, names_p) ← base_BindOptions options return_types names_p;
  match ci_find "delta_file_number" (custom_options options) with
  | Some demo_gen_col_opt =>
      enabled ← GetValue_bool host demo_gen_col_opt;
      if enabled : bool then
        Ok (options, return_types ++ [UBIGINT], names_p ++ ["delta_file_number"])
      else Ok (options, return_types, names_p)
  | None => Ok (options, return_types, names_p)
  end.
End ReaderBind.

(** * The engine builder

    [CreateBuilder] and the two parsers it calls.  It throws exceptions
    that the file list does not, so it has a result type of its own; the
    builder it returns is represented by the FFI calls made to obtain and
    configure it, in order. *)

Module Builder.

Inductive exception : Type :=
  | IOException
  | NotImplementedException
  | InvalidInputException
  | KernelException
  (* [std::out_of_range], thrown by [std::string::substr] *)
  | out_of_range.

Inductive result (A : Type) : Type :=
  | Ok (a : A)
  | Err (e : exception).
Arguments Ok {A} a.
Arguments Err {A} e.

#[global] Instance result_ret : MRet result := fun A a => Ok a.
#[global] Instance result_bind : MBind result := fun A B k m =>
  match m with
  | Ok a => k a
  | Err e => Err e
  end.

(** ** [std::string] *)

Definition empty (s : string) : bool :=
  match s with
  | EmptyString => true
  | String _ _ => false
  end.

(** The first position of [c] in [s]. *)
Fixpoint index_of (c : ascii) (s : string) : option nat :=
  match s with
  | EmptyString => None
  | String d r => if Ascii.eqb d c then Some O else S <$> index_of c r
  end.

(** [s.find(c, pos)]; [None] is [npos]. *)
Definition find (s : string) (c : ascii) (pos : nat) : option nat :=
  (fun k => (pos + k)%nat) <$> index_of c (string_drop pos s).

Definition npos : Z := 2 ^ 64 - 1.

(** The first [n] characters of [s], or all of [s] when it has fewer. *)
Fixpoint string_take (n : Z) (s : string) : string :=
  match s with
  | EmptyString => EmptyString
  | String c r => if n <=? 0 then EmptyString else String c (string_take (n - 1) r)
  end.

(** [s.substr(pos, n)], [n] being a [size_t]: throws when [pos] is past
    the end. *)
Definition substr (s : string) (pos : nat) (n : Z) : result string :=
  if (pos <=? String.length s)%nat then Ok (string_take n (string_drop pos s))
  else Err out_of_range.

(** [s.find(sub) != npos]. *)
Fixpoint contains (s sub : string) : bool :=
  String.prefix sub s
  || match s with
     | EmptyString => false
     | String _ r => contains r sub
     end.

(** ** [ParseAccountNameFromEndpoint] *)

Definition ParseAccountNameFromEndpoint (endpoint : string) : result string :=
  if negb (StartsWith endpoint "https://") then Ok ""
  else
    match find endpoint "." 8 with
    | None => Ok ""
    | Some result => substr endpoint 8 (idx_wrap (Z.of_nat result - 8))
    end.

(** ** [parseFromConnectionString]

    The source compiles [key + "=([^;]+)(?=;|$)"] into a [std::regex].  The
    model reads [key] as literal text, which is what the regular expression
    does when [key] is made of letters and digits ([literal_key]), as the
    four keys the callers pass are; for a key holding a character that is
    special in a regular expression the source matches differently and the
    model does not apply.  The class [[^;]+] is greedy, so it takes the
    whole run of characters other than a semicolon, and where the run stops
    the lookahead holds. *)

Definition alphanumeric (c : ascii) : bool :=
  let n := code c in
  ((48 <=? n) && (n <=? 57)) || ((65 <=? n) && (n <=? 90)) || ((97 <=? n) && (n <=? 122)).

(** A key without any character that is special in a regular
    expression. *)
Fixpoint literal_key (key : string) : bool :=
  match key with
  | EmptyString => true
  | String c r => alphanumeric c && literal_key r
  end.

Fixpoint value_run (s : string) : string :=
  match s with
  | EmptyString => EmptyString
  | String c r => if Ascii.eqb c ";" then EmptyString else String c (value_run r)
  end.

(** The capture group of a match that starts at the head of [s]. *)
Definition match_here (key s : string) : option string :=
  if String.prefix (key +:+ "=") s then
    match value_run (string_drop (String.length (key +:+ "=")) s) with
    | EmptyString => None
    | v => Some v
    end
  else None.

(** [std::regex_search]: the leftmost match. *)
Fixpoint regex_search (key s : string) : option string :=
  match match_here key s with
  | Some v => Some v
  | None =>
      match s with
      | EmptyString => None
      | String _ r => regex_search key r
      end
  end.

Definition parseFromConnectionString (connectionString key : string) : string :=
  default "" (regex_search key connectionString).

(** ** Secrets *)

(** A [KeyValueSecret] seen through a [KeyValueSecretReader]: its provider
    and the values found for the keys, as strings and as booleans. *)
Record KeyValueSecret := {
  GetProvider : string;
  secret_string : string -> option string;
  secret_bool : string -> option bool;
}.

(** [secret_reader.TryGetSecretKey(key, out)]: [out] is assigned only when
    the key is found. *)
Definition TryGetSecretKey (secret : KeyValueSecret) (key out : string) : string :=
  default out (secret_string secret key).
Definition TryGetSecretKey_bool (secret : KeyValueSecret) (key : string) (out : bool) : bool :=
  default out (secret_bool secret key).

(** ** [CreateBuilder] *)

Inductive builder_call : Type :=
  | get_engine_builder (path : string)
  | set_builder_option (key value : string).

#[global] Instance builder_call_eq_dec : EqDecision builder_call.
Proof. solve_decision. Defined.

Definition when (b : bool) (calls : list builder_call) : list builder_call :=
  if b then calls else [].

(** One arm of the chain over the URL schemes: the container ends at the
    first slash at or after [find_pos]; [bucket] is cut from [substr_pos]. *)
Definition split_container (path : string) (find_pos substr_pos : nat)
    : result (string * string) :=
  match find path "/" find_pos with
  | None => Err IOException
  | Some end_of_container =>
      bucket ← substr path substr_pos
                 (idx_wrap (Z.of_nat end_of_container - Z.of_nat substr_pos));
      path_in_bucket ← substr path end_of_container npos;
      Ok (bucket, path_in_bucket)
  end.

(** [bucket], [path_in_bucket] and [secret_type]. *)
Definition parse_url (path : string) : result (string * string * string) :=
  if StartsWith path "s3://" then
    '(b, p) ← split_container path 5 5; Ok (b, p, "s3")
  else if StartsWith path "gcs://" then
    '(b, p) ← split_container path 6 6; Ok (b, p, "gcs")
  else if StartsWith path "gs://" then
    '(b, p) ← split_container path 5 5; Ok (b, p, "gcs")
  else if StartsWith path "r2://" then
    '(b, p) ← split_container path 5 5; Ok (b, p, "r2")
  else if StartsWith path "azure://" || StartsWith path "abfss://" then
    '(b, p) ← split_container path 8 8; Ok (b, p, "azure")
  else if StartsWith path "az://" then
    '(b, p) ← split_container path 5 5; Ok (b, p, "azure")
  else if StartsWith path "abfs://" then
    '(b, p) ← split_container path 7 8; Ok (b, p, "azure")
  else Ok ("", "", "").

Definition clean_path (path : string) : result string :=
  if StartsWith path "r2://" || StartsWith path "gs://" then
    rest ← substr path 5 npos; Ok ("s3://" +:+ rest)
  else if StartsWith path "gcs://" then
    rest ← substr path 6 npos; Ok ("s3://" +:+ rest)
  else Ok path.

Definition is_regular_path (path : string) : bool :=
  negb (StartsWith path "s3://") && negb (StartsWith path "gcs://")
  && negb (StartsWith path "gs://") && negb (StartsWith path "r2://")
  && negb (StartsWith path "azure://") && negb (StartsWith path "az://")
  && negb (StartsWith path "abfs://") && negb (StartsWith path "abfss://").

(** The options set from an S3, GCS or R2 secret: those of the
    credentials, those of the endpoint, and the region. *)
Definition s3_credentials (secret : KeyValueSecret) : list builder_call :=
  let key_id := TryGetSecretKey secret "key_id" "" in
  let secret_ := TryGetSecretKey secret "secret" "" in
  let session_token := TryGetSecretKey secret "session_token" "" in
  when (empty key_id && empty secret_) [set_builder_option "skip_signature" "true"]
  ++ when (negb (empty key_id)) [set_builder_option "aws_access_key_id" key_id]
  ++ when (negb (empty secret_)) [set_builder_option "aws_secret_access_key" secret_]
  ++ when (negb (empty session_token)) [set_builder_option "aws_session_token" session_token].

Definition s3_endpoint (path : string) (secret : KeyValueSecret) : list builder_call :=
  let endpoint := TryGetSecretKey secret "endpoint" "" in
  let use_ssl := TryGetSecretKey_bool secret "use_ssl" true in
  if negb (empty endpoint) && negb (String.eqb endpoint "s3.amazonaws.com") then
    let endpoint :=
      if negb (StartsWith endpoint "https://") && negb (StartsWith endpoint "http://") then
        if use_ssl then "https://" +:+ endpoint else "http://" +:+ endpoint
      else endpoint in
    when (StartsWith endpoint "http://") [set_builder_option "allow_http" "true"]
    ++ [set_builder_option "aws_endpoint" endpoint]
  else if StartsWith path "gs://" || StartsWith path "gcs://" then
    [set_builder_option "aws_endpoint" "https://storage.googleapis.com"]
  else [].

Definition s3_options (path : string) (secret : KeyValueSecret) : list builder_call :=
  let region := TryGetSecretKey secret "region" "" in
  s3_credentials secret ++ s3_endpoint path secret
  ++ [set_builder_option "aws_region" region].

(** The authentication options of an Azure secret, with the account name
    and the endpoint as they stand afterwards. *)
Definition azure_authentication (secret : KeyValueSecret)
    : result (list builder_call * string * string) :=
  let connection_string := TryGetSecretKey secret "connection_string" "" in
  let account_name := TryGetSecretKey secret "account_name" "" in
  let endpoint := TryGetSecretKey secret "endpoint" "" in
  let client_id := TryGetSecretKey secret "client_id" "" in
  let client_secret := TryGetSecretKey secret "client_secret" "" in
  let tenant_id := TryGetSecretKey secret "tenant_id" "" in
  let chain := TryGetSecretKey secret "chain" "" in
  let provider := GetProvider secret in
  if String.eqb provider "access_token" then
    let access_token := TryGetSecretKey secret "access_token" "" in
    if empty access_token then Err InvalidInputException
    else Ok ([set_builder_option "bearer_token" access_token], account_name, endpoint)
  else if String.eqb provider "credential_chain" then
    Ok (when (contains chain "cli") [set_builder_option "use_azure_cli" "true"],
        account_name, endpoint)
  else if negb (empty connection_string) && negb (String.eqb connection_string "NULL") then
    let account_key := parseFromConnectionString connection_string "AccountKey" in
    let account_name := parseFromConnectionString connection_string "AccountName" in
    if negb (empty account_name) && negb (empty account_key) then
      Ok ([set_builder_option "account_key" account_key], account_name, endpoint)
    else
      let endpoint := parseFromConnectionString connection_string "BlobEndpoint" in
      account_name ← (if empty account_name then ParseAccountNameFromEndpoint endpoint
                      else Ok account_name);
      let sas_token := parseFromConnectionString connection_string "SharedAccessSignature" in
      Ok (when (negb (empty sas_token)) [set_builder_option "sas_token" sas_token],
          account_name, endpoint)
  else if String.eqb provider "service_principal" then
    Ok (when (negb (empty client_id)) [set_builder_option "azure_client_id" client_id]
        ++ when (negb (empty client_secret))
             [set_builder_option "azure_client_secret" client_secret]
        ++ when (negb (empty tenant_id)) [set_builder_option "azure_tenant_id" tenant_id],
        account_name, endpoint)
  else Ok ([set_builder_option "azure_skip_signature" "true"], account_name, endpoint).

(** The options set from an Azure secret. *)
Definition azure_options (secret : KeyValueSecret) (bucket : string)
    : result (list builder_call) :=
  let connection_string := TryGetSecretKey secret "connection_string" "" in
  let account_name := TryGetSecretKey secret "account_name" "" in
  let fabric :=
    when (negb (empty account_name) && String.eqb account_name "onelake")
      [set_builder_option "use_fabric_endpoint" "true"] in
  '(authentication, account_name, endpoint) ← azure_authentication secret;
  Ok (fabric ++ authentication
      ++ when (String.eqb account_name "devstoreaccount1"
               || contains connection_string "devstoreaccount1")
           [set_builder_option "use_emulator" "true"]
      ++ when (negb (empty account_name)) [set_builder_option "account_name" account_name]
      ++ when (negb (empty endpoint)) [set_builder_option "azure_endpoint" endpoint]
      ++ [set_builder_option "container_name" bucket]).

Section CreateBuilder.
(* whether [ffi::get_engine_builder] returns a builder for a path *)
Variable engine_builder_ok : string -> bool.
(* [SecretManager::LookupSecret(transaction, path, type)] *)
Variable LookupSecret : string -> string -> option KeyValueSecret.

(** [ffi::get_engine_builder] and [KernelUtils::UnpackResult]. *)
Definition new_builder (path : string) : result (list builder_call) :=
  if engine_builder_ok path then Ok [get_engine_builder path] else Err KernelException.

Definition CreateBuilder (path : string) : result (list builder_call) :=
  if is_regular_path path then new_builder path
  else
    '(bucket, path_in_bucket, secret_type) ← parse_url path;
    cleaned_path ← clean_path path;
    builder ← new_builder cleaned_path;
    match LookupSecret path secret_type with
    | None =>
        if StartsWith path "r2://" || StartsWith path "gs://" || StartsWith path "gcs://"
        then Err NotImplementedException
        else Ok builder
    | Some kv_secret =>
        if String.eqb secret_type "s3" || String.eqb secret_type "gcs"
           || String.eqb secret_type "r2" then
          Ok (builder ++ s3_options path kv_secret)
        else if String.eqb secret_type "azure" then
          options ← azure_options kv_secret bucket;
          Ok (builder ++ options)
        else Ok builder
    end.

End CreateBuilder.

End Builder.

(** * Definitions on the side of the specification *)

(** The rule in the words of the specification: a row is kept when its
    ordinal is at least the length of the bitmap, or the bitmap entry at
    the ordinal says keep. *)
Definition keeps_row (bits : list bool) (ordinal : Z) : bool :=
  (Z.of_nat (length bits) <=? ordinal) || bool_decide (bits !! Z.to_nat ordinal = Some true).

(** URL decoding in the words of the specification: every plus sign is
    replaced by a space and every percent escape [%xx] by its byte. *)
Fixpoint url_decode_words (s : string) : string :=
  match s with
  | EmptyString => EmptyString
  | String c r =>
      let keep := String (plus_to_space c) (url_decode_words r) in
      if code c =? 37 then
        match r with
        | String a (String b r') =>
            match hex_digit a, hex_digit b with
            | Some x, Some y => String (char_of (16 * x + y)) (url_decode_words r')
            | _, _ => keep
            end
        | _ => keep
        end
      else keep
  end.

(** Every percent sign of [s] starts an escape [%xx] of two hexadecimal
    digits. *)
Fixpoint escapes_ok (s : string) : bool :=
  match s with
  | EmptyString => true
  | String c r =>
      if code c =? 37 then
        match r with
        | String a (String b r') =>
            match hex_digit a, hex_digit b with
            | Some _, Some _ => escapes_ok r'
            | _, _ => false
            end
        | _ => false
        end
      else escapes_ok r
  end.

Section SnapshotSpec.
Context (host : Host).

(** The metadata appended for files discovered from ordinal [n] on, in a
    snapshot of version [v]. *)
Definition numbered_from (n : nat) (v : Z) (mds : list DeltaFileMetaData) : Prop :=
  forall j md, mds !! j = Some md ->
               file_number md = Z.of_nat (n + j) /\ delta_snapshot_version md = v.

(** What one run of the pulling loop does: it consumes the answers
    [batches], appends their files and metadata, and ends either with
    file [i] known, or with the iterator at its end and the list marked
    exhausted; [k] is the number of calls of [kernel_scan_data_next]. *)
Definition pulled (i : nat) (it : KernelScanDataIterator) (w : World) (s : DeltaSnapshot)
    (p : string) (w' : World) (s' : DeltaSnapshot) : Prop :=
  exists batches mds it' exh k,
    it = (Ok <$> batches) ++ it'
    /\ s' = with_iterator
              (with_files s (resolved_files s
                             ++ ((fun f => resolve_path host (paths0 s) (sf_path f))
                                   <$> concat batches))
                          (metadata s ++ mds)) it' exh
    /\ w' = {| shared := shared w;
               calls := replicate k ffi_kernel_scan_data_next ++ calls w |}
    /\ length mds = length (concat batches)
    /\ numbered_from (length (resolved_files s)) (version s) mds
    /\ ((resolved_files s' !! i = Some p /\ exh = files_exhausted s /\ k = length batches)
        \/ (p = "" /\ exh = true /\ it' = [] /\ resolved_files s' !! i = None
            /\ k = S (length batches))).

(** The two lists of the file store agree: same length, and the
    metadata at ordinal [i] carries file number [i] and the version of the
    snapshot. *)
Definition store_ok (s : DeltaSnapshot) : Prop :=
  length (resolved_files s) = length (metadata s)
  /\ numbered_from O (version s) (metadata s).

(** A file list whose discovery has not begun: a new one, a bound one,
    the fork of a filter pushdown. *)
Definition unstarted (s : DeltaSnapshot) : Prop :=
  initialized_scan s = false /\ resolved_files s = [] /\ metadata s = []
  /\ files_exhausted s = false.

(** The operations that drive discovery, and a run of them. *)
Inductive file_list_call : Type :=
  | call_GetFile (i : nat)
  | call_GetAllFiles
  | call_GetTotalFileCount.

Definition run_call (c : file_list_call) (w : World) (s : DeltaSnapshot)
    : res (World * DeltaSnapshot) :=
  match c with
  | call_GetFile i => '(_, w, s) ← GetFile host w s i; Ok (w, s)
  | call_GetAllFiles => '(_, w, s) ← GetAllFiles host w s; Ok (w, s)
  | call_GetTotalFileCount => '(_, w, s) ← GetTotalFileCount host w s; Ok (w, s)
  end.

Fixpoint run_calls (cs : list file_list_call) (w : World) (s : DeltaSnapshot)
    : res (World * DeltaSnapshot) :=
  match cs with
  | [] => Ok (w, s)
  | c :: cs' => '(w, s) ← run_call c w s; run_calls cs' w s
  end.

(** [it0] is the scan data iterator as the kernel created it; the
    answers consumed so far are [batches], and the files of the list are
    theirs, resolved against the root, in order. *)
Definition supplied_by (it0 : KernelScanDataIterator) (batches : list (list ScanFile))
    (s : DeltaSnapshot) : Prop :=
  it0 = (Ok <$> batches) ++ scan_data_iterator s
  /\ resolved_files s
     = (fun f => resolve_path host (paths0 s) (sf_path f)) <$> concat batches.

(** Before the scan is initialised no file is known. *)
Definition discovery_inv (s : DeltaSnapshot) : Prop :=
  store_ok s /\ (initialized_scan s = false -> metadata s = []).

(** The files of a list that started as [s0] are those its kernel scan
    supplied. *)
Definition scan_inv (s0 s : DeltaSnapshot) : Prop :=
  paths0 s = paths0 s0 /\ names s = names s0 /\ table_filters s = table_filters s0
  /\ (initialized_scan s = false -> resolved_files s = [])
  /\ (initialized_scan s = true ->
      exists k it0 batches,
        kernel_scan host k (names s0) (table_filters s0) = Ok it0
        /\ supplied_by it0 batches s).
End SnapshotSpec.

(** A file carries a usable row-count estimate when its cardinality is
    not [INVALID_INDEX]; the estimates of a list, and their sum. *)
Definition usable_estimate (md : DeltaFileMetaData) : bool :=
  negb (cardinality md =? INVALID_INDEX).
Definition estimates (mds : list DeltaFileMetaData) : list Z :=
  cardinality <$> List.filter usable_estimate mds.
Definition sum_Z (l : list Z) : Z := foldr Z.add 0 l.

(** The sentence of the specification on exhaustion: once [GetFile i] has
    returned the empty string, [GetFile j] returns the empty string for
    every [j] from [i] on, and the world stays as it is (no kernel entry
    point is called). *)
Definition exhaustion_as_specified : Prop :=
  forall host w s (i : nat) w1 s1 (j : nat),
    GetFile host w s i = Ok ("", w1, s1) -> (i <= j)%nat ->
    exists s2, GetFile host w1 s1 j = Ok ("", w1, s2).

(** The sentence of the specification on [GetCardinality]: unknown when
    no file carries a usable estimate, and otherwise the sum of the
    estimates, as both cardinalities. *)
Definition GetCardinality_as_specified : Prop :=
  forall host w s r w' s',
    GetCardinality host w s = Ok (r, w', s') ->
    match estimates (metadata s') with
    | [] => r = None
    | es => r = Some {| estimated_cardinality := sum_Z es; max_cardinality := sum_Z es |}
    end.

(** The constant the bind adds for a partition value: the raw bytes for a
    BLOB column, the cast of the string otherwise. *)
Definition partition_constant (host : Host) (ty : LogicalType) (partition_val : string)
    (v : Value) : Prop :=
  if decide (ty = BLOB) then v = Value_BLOB_RAW partition_val
  else DefaultCastAs host (Value_VARCHAR partition_val) ty = Ok v.

(** The position in the projection of the first column, not the row id,
    whose name is [column] when case is ignored; positions count from [i]. *)
Fixpoint projected_index (global_columns : list MultiFileReaderColumnDefinition)
    (column : string) (ids : list ColumnIndex) (i : Z) : option Z :=
  match ids with
  | [] => None
  | id :: ids' =>
      if IsRowIdColumnId (GetPrimaryIndex id)
      then projected_index global_columns column ids' (i + 1)
      else match vec_at global_columns (GetPrimaryIndex id) with
           | Ok col =>
               if decide (Lower (name col) = Lower column) then Some i
               else projected_index global_columns column ids' (i + 1)
           | Err _ => projected_index global_columns column ids' (i + 1)
           end
  end.


(** ** A small table to run the model on *)

Definition demo_file (path : string) (stats : option Z) (dv : option (list bool))
    (partitions : list (string * string)) : ScanFile :=
  {| sf_path := path; sf_size := 1024; sf_stats := stats;
     sf_selection_vector := Ok {| ptr := dv |};
     sf_partition_values := list_to_map partitions |}.

Definition demo_cast (v : Value) (t : LogicalType) : res Value :=
  match v, t with
  | Value_VARCHAR s, VARCHAR => Ok v
  | Value_VARCHAR s, BOOLEAN => Err ConversionException
  | Value_VARCHAR s, _ => Ok (Value_TYPED t s)
  | _, _ => Ok v
  end.

Definition demo_host (it : KernelScanDataIterator) : Host :=
  {| indet_ii := fun _ => 0;
     indet_version := 0;
     cwd_join := fun p => "/home/duck/" +:+ p;
     kernel_builder_build := fun _ => Ok ();
     kernel_snapshot_open := fun _ =>
       Ok {| ks_version := 3; ks_schema := [("id", BIGINT); ("region", VARCHAR)] |};
     kernel_scan := fun _ _ _ => Ok it;
     GenerateTableScanFilters := fun filters _ =>
       imap (fun i '(Expression_of e) => (Z.of_nat i, TableFilter_of e)) filters;
     filter_ToString := fun '(TableFilter_of e) col => col +:+ e;
     DefaultCastAs := demo_cast;
     delta_file_number_first := false |}.

Definition demo_world : World := {| shared := ∅; calls := [] |}.

Definition demo_scan : KernelScanDataIterator :=
  [ Ok [demo_file "region=us/part-0.parquet" (Some 10) (Some [true; true; false; true; true; false])
          [("region", "us")]];
    Ok [];
    Ok [demo_file "region=eu/part%2D1.parquet" None None [("region", "eu")];
        demo_file "region=eu/part+2.parquet" (Some 5) None [("region", "eu")]] ].

Definition demo_snapshot : DeltaSnapshot :=
  DeltaSnapshot_new (demo_host demo_scan) "file:///data/tbl".

(** The table bound, then discovered to its end. *)
Definition demo_bound : World * DeltaSnapshot :=
  match Bind (demo_host demo_scan) demo_world demo_snapshot [] [] with
  | Ok (_, _, w, s) => (w, s)
  | Err _ => (demo_world, demo_snapshot)
  end.

Definition demo_discovered : World * DeltaSnapshot :=
  match GetFile (demo_host demo_scan) demo_bound.1 demo_bound.2 5 with
  | Ok (_, w, s) => (w, s)
  | Err _ => demo_bound
  end.

Definition demo_global_columns : list MultiFileReaderColumnDefinition :=
  [ {| name := "id"; type := BIGINT |};
    {| name := "Region"; type := VARCHAR |};
    {| name := "extra"; type := DOUBLE |} ].

Definition demo_local_columns : list MultiFileReaderColumnDefinition :=
  [ {| name := "ID"; type := INTEGER |};
    {| name := "file_row_number"; type := BIGINT |} ].

Definition demo_global_column_ids : list ColumnIndex := [1; 0; 2].

Definition demo_reader_data : MultiFileReaderData :=
  {| file_list_idx := Some 0; constant_map := []; column_mapping := [];
     column_ids := []; cast_map := ∅; empty_columns := false |}.

Definition demo_options : MultiFileReaderOptions :=
  {| auto_detect_hive_partitioning := false; hive_partitioning := false;
     union_by_name := false;
     custom_options := {[ "delta_file_number" := Value_BOOLEAN true ]} |}.

Definition demo_base_FinalizeBind (_ : MultiFileReaderOptions) (_ : string)
    (_ _ : list MultiFileReaderColumnDefinition) (_ : list ColumnIndex)
    (rd : MultiFileReaderData) : res MultiFileReaderData := Ok rd.

Definition demo_global_state : DeltaMultiFileReaderGlobalState :=
  {| extra_columns := [BIGINT; UBIGINT]; delta_file_number_idx := 4; file_row_number_idx := 3 |}.

(** Ten rows with ordinals 0 to 9, read through a flat vector. *)
Definition demo_row_ids : Vector :=
  {| vsel := None; vdata := Value_BIGINT <$> [0; 1; 2; 3; 4; 5; 6; 7; 8; 9] |}.

Definition demo_bits : list bool := [true; true; false; true; true; false].

Definition demo_context (profiling : bool) : ClientContext :=
  {| profiler_IsEnabled := profiling;
     delta_scan_explain_files_filtered := Some (Value_BOOLEAN true) |}.

Definition demo_info : MultiFilePushdownInfo :=
  {| column_indexes := [0; 1];
     extra_info := {| file_filters := ""; total_files := None; filtered_files := None |} |}.

(** The table after a first [GetFile]: the scan is open and its first
    answer consumed. *)
Definition demo_started : World * DeltaSnapshot :=
  match GetFile (demo_host demo_scan) demo_world demo_snapshot 0 with
  | Ok (_, w, s) => (w, s)
  | Err _ => (demo_world, demo_snapshot)
  end.

(** A scan whose second answer is an error of the kernel, and the table
    after its first file has been returned. *)
Definition demo_failing_scan : KernelScanDataIterator :=
  [ Ok [demo_file "part-0.parquet" (Some 10) None []]; Err KernelException ].

Definition demo_failing : World * DeltaSnapshot :=
  match GetFile (demo_host demo_failing_scan) demo_world
          (DeltaSnapshot_new (demo_host demo_failing_scan) "file:///data/tbl") 0 with
  | Ok (_, w, s) => (w, s)
  | Err _ => (demo_world, demo_snapshot)
  end.

(** A table at the root [file:///] whose first file has the path [/]: it
    resolves to the empty path. *)
Definition demo_root_scan : KernelScanDataIterator :=
  [ Ok [demo_file "/" None None []];
    Ok [demo_file "a.parquet" (Some 7) None []] ].

Definition demo_root_snapshot : DeltaSnapshot :=
  DeltaSnapshot_new (demo_host demo_root_scan) "file:///".

(** ** Further definitions for the properties *)

(** The exhausted flag is set only once the scan data iterator is at its
    end, and not before the scan is opened. *)
Definition exhausted_inv (s : DeltaSnapshot) : Prop :=
  (initialized_scan s = false -> files_exhausted s = false)
  /\ (files_exhausted s = true -> scan_data_iterator s = []).

(** The kernel answers for the deletion vector of every file of the list. *)
Definition selection_vectors_ok (files : list ScanFile) : Prop :=
  Forall (fun f => exists sv, sf_selection_vector f = Ok sv) files.

(** Whether the counts recorded by an earlier pushdown contradict those of
    this one: a recorded total below the parent's count, or a recorded
    filtered count below the fork's. *)
Definition counts_inconsistent (x : ExtraOperatorInfo) (old_total new_total : nat) : bool :=
  match total_files x with
  | Some t => t <? Z.of_nat old_total
  | None => false
  end
  || match filtered_files x with
     | Some f => f <? Z.of_nat new_total
     | None => false
     end.

(** A string without percent and plus signs. *)
Fixpoint no_escape_chars (s : string) : bool :=
  match s with
  | EmptyString => true
  | String c r => negb (code c =? 37) && negb (code c =? 43) && no_escape_chars r
  end.

(** [n] slashes. *)
Fixpoint slashes (n : nat) : string :=
  match n with
  | O => EmptyString
  | S n' => String "/"%char (slashes n')
  end.

(** ** Definitions for the column reconciliation *)

(** The position of the last column of [columns] whose name is [n] when
    case is ignored; positions count from [i]. *)
Fixpoint last_match (n : string) (columns : list MultiFileReaderColumnDefinition) (i : Z)
    : option Z :=
  match columns with
  | [] => None
  | c :: rest =>
      match last_match n rest (i + 1) with
      | Some j => Some j
      | None => if decide (Lower (name c) = Lower n) then Some i else None
      end
  end.

(** A list of positions in strictly increasing order. *)
Definition increasing (l : list Z) : Prop :=
  forall a b i j, (a < b)%nat -> l !! a = Some i -> l !! b = Some j -> i < j.

(** What the mapping loop records for one projected position that is
    served by a column of the file: the position is not a constant, and the
    local column is the one the name map gives for the global column's
    name, cast when the types differ. *)
Definition served_by (name_map : gmap string Z)
    (local_columns global_columns : list MultiFileReaderColumnDefinition)
    (ids : list ColumnIndex) (i0 : Z) (rd' : MultiFileReaderData) (entry : Z * Z) : Prop :=
  is_constant rd' entry.1 = false
  /\ exists (k : nat) id global local,
       entry.1 = i0 + Z.of_nat k
       /\ ids !! k = Some id
       /\ vec_at global_columns (GetPrimaryIndex id) = Ok global
       /\ ci_find (name global) name_map = Some entry.2
       /\ vec_at local_columns entry.2 = Ok local
       /\ (type global <> type local -> is_Some (cast_map rd' !! entry.2)).

(** A chunk of ten rows for the projection of the small table followed by
    the two synthetic columns; the row numbers stand in the fourth vector. *)
Definition demo_chunk : DataChunk :=
  {| data := [ {| vsel := None; vdata := replicate 10 (Value_VARCHAR "us") |};
               {| vsel := None; vdata := Value_BIGINT <$> [10; 11; 12; 13; 14; 15; 16; 17; 18; 19] |};
               {| vsel := None; vdata := replicate 10 (Value_NULL DOUBLE) |};
               demo_row_ids;
               {| vsel := None; vdata := replicate 10 (Value_UBIGINT 0) |} ];
     size := 10 |}.

(** ** Definitions for the engine builder *)

(** The paths whose scheme [CreateBuilder] rewrites to [s3://]. *)
Definition gcs_like (path : string) : bool :=
  StartsWith path "r2://" || StartsWith path "gs://" || StartsWith path "gcs://".

Definition is_option (c : Builder.builder_call) : Prop :=
  match c with
  | Builder.set_builder_option _ _ => True
  | Builder.get_engine_builder _ => False
  end.

(** An option that is set has a value, apart from the region and the
    container. *)
Definition has_value (c : Builder.builder_call) : Prop :=
  match c with
  | Builder.set_builder_option key value =>
      value = "" -> key = "aws_region" \/ key = "container_name"
  | Builder.get_engine_builder _ => True
  end.

(** The URL schemes of the object stores. *)
Definition schemes : list string :=
  ["s3://"; "gcs://"; "gs://"; "r2://"; "azure://"; "abfss://"; "az://"; "abfs://"].

(** The key of an option. *)
Definition option_key (c : Builder.builder_call) : string :=
  match c with
  | Builder.set_builder_option key _ => key
  | Builder.get_engine_builder _ => ""
  end.

(** Secrets to run [CreateBuilder] on. *)
Definition demo_s3_secret : Builder.KeyValueSecret :=
  {| Builder.GetProvider := "config";
     Builder.secret_string := fun key =>
       if String.eqb key "key_id" then Some "AKIAEXAMPLE"
       else if String.eqb key "secret" then Some "s3cr3t"
       else if String.eqb key "region" then Some "eu-west-1"
       else if String.eqb key "endpoint" then Some "localhost:9000"
       else None;
     Builder.secret_bool := fun key =>
       if String.eqb key "use_ssl" then Some false else None |}.

Definition demo_azure_secret : Builder.KeyValueSecret :=
  {| Builder.GetProvider := "config";
     Builder.secret_string := fun key =>
       if String.eqb key "connection_string" then
         Some "AccountName=devstoreaccount1;AccountKey=a2V5;BlobEndpoint=http://127.0.0.1:10000/devstoreaccount1"
       else None;
     Builder.secret_bool := fun _ => None |}.

Definition demo_LookupSecret (path type : string) : option Builder.KeyValueSecret :=
  if String.eqb type "s3" || String.eqb type "gcs" then Some demo_s3_secret
  else if String.eqb type "azure" then Some demo_azure_secret
  else None.

(** * Properties *)

(** ** Selection vector *)

Lemma nth_lookup_true (bits : list bool) (n : nat) :
  nth n bits false = bool_decide (bits !! n = Some true).
Proof.
  revert n. induction bits as [|b bits IH]; intros [|n]; simpl.
  - done.
  - done.
  - by destruct b.
  - apply IH.
Qed.

Lemma keep_test_ordinal bits r :
  0 <= r < 2 ^ 63 ->
  (len {| ptr := Some bits |} <=? to_uint64 r) || dv_at {| ptr := Some bits |} r
  = keeps_row bits r.
Proof.
  intros Hr. unfold len, dv_at, keeps_row, to_uint64. simpl.
  rewrite Z.mod_small by lia. by rewrite nth_lookup_true.
Qed.

Lemma sv_fold_spec bits col (keep : nat -> bool) (l : list nat) :
  forall (result : list Z) (cs : nat),
    (forall i, i ∈ l -> Z.of_nat i < 2 ^ 32) ->
    (forall i, i ∈ l ->
       (len {| ptr := Some bits |} <=? to_uint64 (row_id_at col i))
       || dv_at {| ptr := Some bits |} (row_id_at col i) = keep i) ->
    (cs + length l <= length result)%nat ->
    exists result',
      fold_left (sv_step {| ptr := Some bits |} col) l (result, cs)
      = (result', (cs + length (List.filter keep l))%nat)
      /\ length result' = length result
      /\ take (cs + length (List.filter keep l)) result'
         = take cs result ++ (Z.of_nat <$> List.filter keep l).
Proof.
  induction l as [|i l IH]; intros result cs Hsmall Hkeep Hlen.
  - exists result. simpl. rewrite Nat.add_0_r, app_nil_r. done.
  - simpl in Hlen. cbn [fold_left]. unfold sv_step at 2.
    rewrite (Hkeep i) by set_solver.
    cbn [List.filter]. destruct (keep i).
    + destruct (IH (<[cs := to_sel_t (Z.of_nat i)]> result) (S cs)) as (r' & Hf & Hl & Ht).
      * intros; apply Hsmall; set_solver.
      * intros; apply Hkeep; set_solver.
      * rewrite length_insert. lia.
      * exists r'. rewrite length_insert in Hl. cbn [length].
        replace (cs + S (length (List.filter keep l)))%nat
          with (S cs + length (List.filter keep l))%nat by lia.
        split; [exact Hf|]. split; [exact Hl|].
        rewrite Ht. rewrite fmap_cons.
        rewrite (take_S_r _ _ (to_sel_t (Z.of_nat i))).
        2:{ apply list_lookup_insert_eq. lia. }
        rewrite take_insert_ge by lia.
        unfold to_sel_t. rewrite Z.mod_small.
        2:{ assert (Z.of_nat i < 2 ^ 32) by (apply Hsmall; set_solver). lia. }
        by rewrite <- app_assoc.
    + destruct (IH result cs) as (r' & Hf & Hl & Ht).
      * intros; apply Hsmall; set_solver.
      * intros; apply Hkeep; set_solver.
      * lia.
      * exists r'. done.
Qed.

(** C1. For a deletion bitmap [bits] of length L and a batch of [count]
    rows whose ordinals (read from the file_row_number column) are row
    numbers, [DuckSVFromDeltaSV] keeps exactly the rows whose ordinal is at
    least L or whose bitmap entry is true: the first [select_count] entries
    of the selection vector are the positions of those rows, in the order
    of the batch, and [select_count] is their number. *)
Theorem DuckSVFromDeltaSV_keeps_exactly
    (uninit : nat -> Z) (bits : list bool) (row_id_column : Vector) (count : nat)
    (sv : list Z) (select_count : nat) :
  Z.of_nat count <= 2 ^ 32 ->
  (forall i, (i < count)%nat -> 0 <= row_id_at row_id_column i < 2 ^ 63) ->
  DuckSVFromDeltaSV uninit {| ptr := Some bits |} row_id_column count = (sv, select_count) ->
  let kept := List.filter (fun i => keeps_row bits (row_id_at row_id_column i)) (seq 0 count) in
  take select_count sv = Z.of_nat <$> kept
  /\ select_count = length kept
  /\ (forall i, i ∈ kept <->
        (i < count)%nat /\ (Z.of_nat (length bits) <= row_id_at row_id_column i
                            \/ bits !! Z.to_nat (row_id_at row_id_column i) = Some true)).
Proof.
  intros Hcount Hord Hrun kept.
  unfold DuckSVFromDeltaSV in Hrun.
  destruct (sv_fold_spec bits row_id_column
              (fun i => keeps_row bits (row_id_at row_id_column i))
              (seq 0 count) (uninit <$> seq 0 count) O) as (r' & Hf & Hl & Ht).
  - intros i Hi. apply elem_of_seq in Hi. lia.
  - intros i Hi. apply elem_of_seq in Hi. apply keep_test_ordinal. apply Hord. lia.
  - rewrite length_fmap, !length_seq. lia.
  - rewrite Hf in Hrun. injection Hrun as <- <-. simpl in Ht |- *.
    split; [exact Ht|]. split; [reflexivity|].
    intros i. subst kept. rewrite list_elem_of_In, filter_In, in_seq.
    unfold keeps_row. rewrite orb_true_iff, Z.leb_le, bool_decide_eq_true.
    intuition lia.
Qed.

(** A row id that is not a row number, being negative, compares as a large
    unsigned value: its row is kept without the bitmap being read. *)
Lemma keep_test_negative bits r :
  - 2 ^ 63 <= r < 0 -> Z.of_nat (length bits) <= 2 ^ 63 ->
  (len {| ptr := Some bits |} <=? to_uint64 r) || dv_at {| ptr := Some bits |} r = true.
Proof.
  intros Hr Hlen. unfold len, to_uint64. simpl.
  assert (r mod 2 ^ 64 = r + 2 ^ 64) as ->.
  { symmetry. apply Z.mod_unique with (q := -1); lia. }
  apply orb_true_iff. left. apply Z.leb_le. lia.
Qed.

(** [FinalizeChunk] filters a batch only when the file has a deletion
    vector and the batch has rows. *)
Lemma FinalizeChunk_filters base_FinalizeChunk uninit_sel reader_data chunk chunk1
    g snapshot index file_metadata bits file_row_number_column :
  base_FinalizeChunk reader_data chunk = Ok chunk1 ->
  file_list_idx reader_data = Some index ->
  GetMetaData snapshot index = Ok file_metadata ->
  ptr (selection_vector file_metadata) = Some bits ->
  size chunk1 <> O ->
  vec_at (data chunk1) (file_row_number_idx g) = Ok file_row_number_column ->
  delta_file_number_idx g = INVALID_INDEX ->
  FinalizeChunk base_FinalizeChunk uninit_sel reader_data chunk (Some g) snapshot
  = Ok (Slice chunk1
          (DuckSVFromDeltaSV uninit_sel (selection_vector file_metadata)
                             file_row_number_column (size chunk1)).1
          (DuckSVFromDeltaSV uninit_sel (selection_vector file_metadata)
                             file_row_number_column (size chunk1)).2).
Proof.
  intros Hbase Hidx Hmd Hptr Hsize Hcol Hnum. unfold FinalizeChunk.
  rewrite Hbase. simpl. rewrite Hidx. simpl. rewrite Hmd. simpl. rewrite Hptr.
  destruct (size chunk1) as [|n] eqn:Hn; [done|]. simpl.
  rewrite Hcol. simpl.
  destruct (DuckSVFromDeltaSV _ _ _ _) as [sv select_count]. simpl.
  by rewrite Hnum.
Qed.

Lemma FinalizeChunk_passes_through base_FinalizeChunk uninit_sel reader_data chunk chunk1
    g snapshot index file_metadata :
  base_FinalizeChunk reader_data chunk = Ok chunk1 ->
  file_list_idx reader_data = Some index ->
  GetMetaData snapshot index = Ok file_metadata ->
  ptr (selection_vector file_metadata) = None \/ size chunk1 = O ->
  delta_file_number_idx g = INVALID_INDEX ->
  FinalizeChunk base_FinalizeChunk uninit_sel reader_data chunk (Some g) snapshot = Ok chunk1.
Proof.
  intros Hbase Hidx Hmd Hnone Hnum. unfold FinalizeChunk.
  rewrite Hbase. simpl. rewrite Hidx. simpl. rewrite Hmd. simpl.
  destruct (ptr (selection_vector file_metadata)) as [bits|].
  - destruct Hnone as [Hnone | Hsize]; [done|]. rewrite Hsize. simpl. by rewrite Hnum.
  - simpl. by rewrite Hnum.
Qed.

(** ** URL decoding *)

Lemma hex_digit_range c x :
  hex_digit c = Some x ->
  (48 <= code c <= 57 \/ 65 <= code c <= 70 \/ 97 <= code c <= 102) /\ 0 <= x < 16.
Proof.
  unfold hex_digit. intros H.
  repeat match type of H with
         | (if ?b then _ else _) = _ => destruct b eqn:?
         end; simplify_eq; lia.
Qed.

Lemma sscanf_x_two_hex a b x y :
  hex_digit a = Some x -> hex_digit b = Some y ->
  sscanf_x (String a (String b EmptyString)) = Some (16 * x + y).
Proof.
  intros Ha Hb.
  pose proof (hex_digit_range _ _ Ha) as [Hra Hx].
  pose proof (hex_digit_range _ _ Hb) as [Hrb Hy].
  unfold sscanf_x. cbn [skip_space].
  replace (isspace a) with false by (unfold isspace; lia).
  replace (code a =? 45) with false by lia.
  replace (code a =? 43) with false by lia.
  unfold scan_hex, strip_0x.
  replace ((code a =? 48) && ((code b =? 120) || (code b =? 88))) with false by lia.
  cbn [hex_run]. rewrite Ha, Hb. cbn [option_map]. f_equal.
  apply Z.mod_small. lia.
Qed.

Lemma plus_to_space_other c : code c <> 43 -> plus_to_space c = c.
Proof. unfold plus_to_space. intros H. by replace (code c =? 43) with false by lia. Qed.

Lemma plus_to_space_not_percent c : code c <> 37 -> code (plus_to_space c) <> 37.
Proof.
  unfold plus_to_space. intros H. destruct (code c =? 43); [by vm_compute | done].
Qed.

Lemma url_decode_loop_words indet (n : nat) :
  forall s, (String.length s <= n)%nat -> escapes_ok s = true ->
            url_decode_loop indet (string_map plus_to_space s) = url_decode_words s.
Proof.
  induction n as [|n IH]; intros [|c r] Hlen Hok; try done; try (simpl in Hlen; lia).
  simpl in Hlen. cbn [string_map url_decode_loop url_decode_words escapes_ok] in *.
  destruct (code c =? 37) eqn:Hc.
  - rewrite plus_to_space_other by lia. rewrite Hc.
    destruct r as [|a [|b r']]; try done.
    destruct (hex_digit a) as [x|] eqn:Ha; [|done].
    destruct (hex_digit b) as [y|] eqn:Hb; [|done].
    pose proof (hex_digit_range _ _ Ha) as [Hra _].
    pose proof (hex_digit_range _ _ Hb) as [Hrb _].
    cbn [string_map]. rewrite !plus_to_space_other by lia.
    unfold decode_escape. rewrite (sscanf_x_two_hex _ _ _ _ Ha Hb).
    f_equal. apply IH; [simpl in Hlen; lia | done].
  - replace (code (plus_to_space c) =? 37) with false.
    2:{ symmetry. apply Z.eqb_neq, plus_to_space_not_percent. lia. }
    f_equal. apply IH; [lia | done].
Qed.

(** On input whose percent signs all start a two-digit escape,
    [url_decode] replaces every plus sign by a space and every escape by
    its byte. *)
Lemma url_decode_words_ok indet s :
  escapes_ok s = true -> url_decode indet s = url_decode_words s.
Proof. intros H. unfold url_decode. by apply (url_decode_loop_words indet (String.length s)). Qed.

(** *** When a resolved path is empty *)

Lemma url_decode_nonempty indet s : s <> "" -> url_decode indet s <> "".
Proof.
  unfold url_decode. destruct s as [|c r]; [done|]. intros _. cbn [string_map url_decode_loop].
  destruct (code (plus_to_space c) =? 37); [|done].
  by destruct (string_map plus_to_space r) as [|a [|b r']].
Qed.

Lemma ToDuckDBPath_empty x : ToDuckDBPath x = "" -> x = "" \/ x = "file://".
Proof.
  unfold ToDuckDBPath, StartsWith.
  destruct (String.prefix "file://" x) eqn:Hp; [|by left].
  intros Hd. right.
  do 7 (destruct x as [|? x]; simpl in Hp; [done|];
        match type of Hp with
        | (if ?d then _ else _) = true => destruct d; [subst | done]
        end).
  simpl in Hd. by subst x.
Qed.

(** A file resolves to the empty path only when the joined and decoded
    string is the bare scheme [file://]. *)
Lemma resolve_path_empty host root path :
  resolve_path host root path = "" ->
  url_decode (indet_ii host) (RTrim_slash root +:+ ("/" +:+ path)) = "file://".
Proof.
  unfold resolve_path. intros H. apply ToDuckDBPath_empty in H as [H | H]; [|done].
  exfalso. revert H. apply url_decode_nonempty.
  by destruct (RTrim_slash root).
Qed.

(** ** The file store of a snapshot *)


Section SnapshotFacts.
Context (host : Host).

Lemma with_files_id s : with_files s (resolved_files s) (metadata s) = s.
Proof. by destruct s. Qed.

Lemma with_files_twice s a b c d : with_files (with_files s a b) c d = with_files s c d.
Proof. done. Qed.

Lemma with_iterator_twice s a b c d : with_iterator (with_iterator s a b) c d = with_iterator s c d.
Proof. done. Qed.

Lemma with_iterator_id s : with_iterator s (scan_data_iterator s) (files_exhausted s) = s.
Proof. by destruct s. Qed.

Lemma with_iterator_files s a b c d :
  with_iterator (with_files s a b) c d = with_files (with_iterator s c d) a b.
Proof. done. Qed.

Lemma numbered_from_app n v a b :
  numbered_from n v a -> numbered_from (n + length a) v b -> numbered_from n v (a ++ b).
Proof.
  intros Ha Hb j md Hj. apply lookup_app_Some in Hj as [Hj | [Hge Hj]].
  - by apply Ha.
  - apply Hb in Hj as [Hn Hv]. split; [|done]. rewrite Hn. f_equal. lia.
Qed.

Lemma VisitCallback_spec s f s' :
  VisitCallback host s f = Ok s' ->
  exists md,
    s' = with_files s (resolved_files s ++ [resolve_path host (paths0 s) (sf_path f)])
                    (metadata s ++ [md])
    /\ file_number md = Z.of_nat (length (resolved_files s))
    /\ delta_snapshot_version md = version s.
Proof.
  unfold VisitCallback. intros H.
  destruct (sf_selection_vector f) as [sv|e]; simpl in H; [|done].
  injection H as <-. eexists. split; [reflexivity|]. simpl. split; [|done].
  rewrite List.length_app. simpl. lia.
Qed.

Lemma VisitData_spec batch : forall s s',
  VisitData host s batch = Ok s' ->
  exists mds,
    s' = with_files s (resolved_files s
                       ++ ((fun f => resolve_path host (paths0 s) (sf_path f)) <$> batch))
                    (metadata s ++ mds)
    /\ length mds = length batch
    /\ numbered_from (length (resolved_files s)) (version s) mds.
Proof.
  induction batch as [|f batch IH]; intros s s' H; simpl in H.
  - injection H as <-. exists []. rewrite !app_nil_r, with_files_id.
    split; [done|]. split; [done|]. by intros j md Hj.
  - destruct (VisitCallback host s f) as [s1|e] eqn:Hcb; simpl in H; [|done].
    apply VisitCallback_spec in Hcb as (md & -> & Hn & Hv).
    apply IH in H as (mds & -> & Hlen & Hnum). simpl in *.
    exists (md :: mds). rewrite with_files_twice, <- !app_assoc. simpl.
    split; [done|]. split; [by rewrite Hlen|].
    intros [|j] md' Hj; simpl in Hj.
    + injection Hj as <-. rewrite Nat.add_0_r. done.
    + apply Hnum in Hj as [Hj1 Hj2]. rewrite List.length_app in Hj1. simpl in Hj1.
      split; [|done]. rewrite Hj1. f_equal. lia.
Qed.

Lemma replicate_shift {A} (k : nat) (x : A) l :
  replicate k x ++ x :: l = x :: replicate k x ++ l.
Proof. induction k as [|k IH]; simpl; [done | by rewrite IH]. Qed.

Lemma pull_until_spec i it : forall w s p w' s',
  pull_until host i it w s = Ok (p, w', s') -> pulled host i it w s p w' s'.
Proof.
  induction it as [|a it IH]; intros w s p w' s' H; simpl in H.
  - destruct (resolved_files s !! i) as [file|] eqn:Hi.
    + injection H as <- <- <-. exists [], [], [], (files_exhausted s), O.
      simpl. rewrite !app_nil_r, with_files_id. destruct w.
      repeat split; try done. by left.
    + injection H as <- <- <-. exists [], [], [], true, 1%nat.
      simpl. rewrite !app_nil_r, with_files_id. destruct w.
      repeat split; try done. right. done.
  - destruct (resolved_files s !! i) as [file|] eqn:Hi.
    + injection H as <- <- <-. exists [], [], (a :: it), (files_exhausted s), O.
      simpl. rewrite !app_nil_r, with_files_id. destruct w.
      repeat split; try done. by left.
    + destruct a as [batch|e]; [|done].
      destruct (VisitData host s batch) as [s1|e] eqn:Hv; simpl in H; [|done].
      apply VisitData_spec in Hv as (mds1 & -> & Hlen1 & Hnum1).
      apply IH in H as (batches & mds & it' & exh & k & -> & -> & -> & Hlen & Hnum & Hres).
      simpl in *.
      exists (batch :: batches), (mds1 ++ mds), it', exh, (S k). simpl.
      rewrite fmap_app, !app_assoc.
      split; [done|]. split; [done|].
      split; [by rewrite replicate_shift|].
      split; [rewrite !List.length_app; lia|].
      split.
      * apply numbered_from_app; [done|].
        rewrite List.length_app, length_fmap in Hnum. by rewrite Hlen1.
      * destruct Hres as [(? & ? & ?) | (? & ? & ? & ? & ?)]; [left | right];
          repeat split; try done; lia.
Qed.

(** *** Initialisation *)

Lemma InitializeSnapshot_spec w s w1 s1 :
  InitializeSnapshot host w s = Ok (w1, s1) ->
  initialized_snapshot s1 = true
  /\ initialized_scan s1 = initialized_scan s
  /\ version s1 = version s
  /\ scan_data_iterator s1 = scan_data_iterator s
  /\ resolved_files s1 = resolved_files s
  /\ metadata s1 = metadata s
  /\ files_exhausted s1 = files_exhausted s
  /\ paths0 s1 = paths0 s
  /\ names s1 = names s
  /\ table_filters s1 = table_filters s
  /\ is_Some (snapshot s1)
  /\ (forall a, snapshot s = Some a ->
       snapshot s1 = Some a
       /\ w1 = log_call (ffi_builder_build (paths0 s)) w).
Proof.
  unfold InitializeSnapshot. intros H.
  destruct (kernel_builder_build host (paths0 s)) as [[]|]; simpl in H; [|done].
  destruct (snapshot s) as [a|] eqn:Hs; simpl in H.
  - injection H as <- <-. simpl. repeat split; eauto; naive_solver.
  - destruct (kernel_snapshot_open host (paths0 s)) as [ks|]; simpl in H; [|done].
    injection H as <- <-. simpl. repeat split; eauto; naive_solver.
Qed.

Lemma InitializeScan_spec w s w1 s1 :
  InitializeScan host w s = Ok (w1, s1) ->
  exists a k,
    snapshot s = Some a
    /\ kernel_scan host k (names s) (table_filters s) = Ok (scan_data_iterator s1)
    /\ version s1 = ks_version k
    /\ w1 = log_call (ffi_scan a) w
    /\ initialized_scan s1 = true
    /\ initialized_snapshot s1 = initialized_snapshot s
    /\ snapshot s1 = snapshot s
    /\ resolved_files s1 = resolved_files s
    /\ metadata s1 = metadata s
    /\ files_exhausted s1 = files_exhausted s
    /\ paths0 s1 = paths0 s
    /\ names s1 = names s
    /\ table_filters s1 = table_filters s.
Proof.
  unfold InitializeScan, GetLockingRef. intros H.
  destruct (snapshot s) as [a|] eqn:Hs; simpl in H; [|done].
  destruct (shared w !! a) as [c|]; simpl in H; [|done].
  destruct (kernel_scan host (kernel_snapshot c) (names s) (table_filters s)) as [it|] eqn:Hk;
    simpl in H; [|done].
  injection H as <- <-. exists a, (kernel_snapshot c). simpl. repeat split; done.
Qed.

Lemma ensure_initialized_started w s :
  initialized_snapshot s = true -> initialized_scan s = true ->
  ensure_initialized host w s = Ok (w, s).
Proof. unfold ensure_initialized. intros -> H. simpl. by rewrite H. Qed.

Lemma ensure_initialized_spec w s w1 s1 :
  ensure_initialized host w s = Ok (w1, s1) ->
  initialized_snapshot s1 = true
  /\ initialized_scan s1 = true
  /\ resolved_files s1 = resolved_files s
  /\ metadata s1 = metadata s
  /\ files_exhausted s1 = files_exhausted s
  /\ paths0 s1 = paths0 s
  /\ names s1 = names s
  /\ table_filters s1 = table_filters s
  /\ (initialized_scan s = true ->
       version s1 = version s /\ scan_data_iterator s1 = scan_data_iterator s)
  /\ (initialized_scan s = false ->
       exists k, kernel_scan host k (names s) (table_filters s) = Ok (scan_data_iterator s1))
  /\ (forall a, snapshot s = Some a ->
       snapshot s1 = Some a /\ shared w1 = shared w
       /\ snapshots_opened w1 = snapshots_opened w).
Proof.
  unfold ensure_initialized. intros H.
  destruct (initialized_snapshot s) eqn:Hsnap; simpl in H.
  - destruct (initialized_scan s) eqn:Hscan.
    + injection H as <- <-. split_and!; done.
    + apply InitializeScan_spec in H
        as (a & k & Ha & Hk & Hv & -> & ? & ? & ? & ? & ? & ? & ? & ? & ?).
      split_and!; try done; try congruence.
      * intros _. by exists k.
      * intros b Hb. split_and!; [congruence | done | done].
  - destruct (InitializeSnapshot host w s) as [[w2 s2]|] eqn:Hi; simpl in H; [|done].
    apply InitializeSnapshot_spec in Hi
      as (? & Hsc & Hver & Hit & ? & ? & ? & ? & Hn & Hf & ? & Hsame).
    destruct (initialized_scan s2) eqn:Hscan.
    + injection H as <- <-. split_and!; try done; try congruence.
      intros a Ha. destruct (Hsame a Ha) as [? ->]. done.
    + apply InitializeScan_spec in H
        as (a & k & Ha & Hk & Hv & -> & ? & ? & Hs2 & ? & ? & ? & ? & ? & ?).
      split_and!; try done; try congruence.
      * intros _. exists k. by rewrite <- Hn, <- Hf.
      * intros b Hb. destruct (Hsame b Hb) as [? ->].
        split_and!; [congruence | done | done].
Qed.

(** The three ways [GetFileInternal] returns. *)
Lemma GetFileInternal_spec w s i p w' s' :
  GetFileInternal host w s i = Ok (p, w', s') ->
  exists w1 s1,
    ensure_initialized host w s = Ok (w1, s1)
    /\ ((resolved_files s1 !! i = Some p /\ w' = w1 /\ s' = s1)
        \/ (resolved_files s1 !! i = None /\ files_exhausted s1 = true
            /\ p = "" /\ w' = w1 /\ s' = s1)
        \/ (resolved_files s1 !! i = None /\ files_exhausted s1 = false
            /\ pulled host i (scan_data_iterator s1) w1 s1 p w' s')).
Proof.
  unfold GetFileInternal. intros H.
  destruct (ensure_initialized host w s) as [[w1 s1]|] eqn:He; simpl in H; [|done].
  exists w1, s1. split; [done|].
  destruct (resolved_files s1 !! i) as [file|] eqn:Hi.
  - injection H as <- <- <-. by left.
  - destruct (files_exhausted s1) eqn:Hx.
    + injection H as <- <- <-. right; left. done.
    + right; right. repeat split; try done. by apply pull_until_spec.
Qed.
End SnapshotFacts.

(** ** Properties kept by every operation of the file list *)

Section Preservation.
Context (host : Host).
Variable P : DeltaSnapshot -> Prop.
Hypothesis P_init : forall w s w1 s1,
  P s -> ensure_initialized host w s = Ok (w1, s1) -> P s1.
Hypothesis P_pull : forall i w s p w' s',
  P s -> initialized_scan s = true ->
  pulled host i (scan_data_iterator s) w s p w' s' -> P s'.

Lemma GetFileInternal_keeps w s i p w' s' :
  P s -> GetFileInternal host w s i = Ok (p, w', s') -> P s'.
Proof.
  intros HP H. apply GetFileInternal_spec in H as (w1 & s1 & Hinit & Hcases).
  pose proof (P_init _ _ _ _ HP Hinit) as HP1.
  apply ensure_initialized_spec in Hinit as (_ & Hscan & _).
  destruct Hcases as [(_ & _ & ->) | [(_ & _ & _ & _ & ->) | (_ & _ & Hp)]]; try done.
  by eapply P_pull.
Qed.

Lemma expand_from_keeps fuel : forall w s i w' s',
  P s -> expand_from host fuel w s i = Some (Ok (w', s')) -> P s'.
Proof.
  induction fuel as [|fuel IH]; intros w s i w' s' HP H; simpl in H; [done|].
  destruct (GetFileInternal host w s i) as [[[file w1] s1]|] eqn:Hg; [|done].
  apply GetFileInternal_keeps in Hg; [|done].
  destruct (String.eqb file ""); [by simplify_eq | by eapply IH].
Qed.

Lemma expand_keeps w s i w' s' :
  P s -> expand host w s i = Ok (w', s') -> P s'.
Proof.
  unfold expand. intros HP H.
  destruct (expand_from host _ w s i) as [r|] eqn:He; [|done].
  subst r. by eapply expand_from_keeps.
Qed.

Lemma run_call_keeps c w s w' s' :
  P s -> run_call host c w s = Ok (w', s') -> P s'.
Proof.
  intros HP H. destruct c as [i| |]; simpl in H.
  - unfold GetFile in H.
    destruct (GetFileInternal host w s i) as [[[file w1] s1]|] eqn:Hg; simpl in H; [|done].
    simplify_eq. by eapply GetFileInternal_keeps.
  - unfold GetAllFiles in H.
    destruct (expand host w s _) as [[w1 s1]|] eqn:Hg; simpl in H; [|done].
    simplify_eq. by eapply expand_keeps.
  - unfold GetTotalFileCount in H.
    destruct (expand host w s _) as [[w1 s1]|] eqn:Hg; simpl in H; [|done].
    simplify_eq. by eapply expand_keeps.
Qed.

Lemma run_calls_keeps cs : forall w s w' s',
  P s -> run_calls host cs w s = Ok (w', s') -> P s'.
Proof.
  induction cs as [|c cs IH]; intros w s w' s' HP H; simpl in H; [by simplify_eq|].
  destruct (run_call host c w s) as [[w1 s1]|] eqn:Hc; simpl in H; [|done].
  eapply IH; [|done]. by eapply run_call_keeps.
Qed.
End Preservation.

(** ** File numbers and versions *)

Section StoreInvariant.
Context (host : Host).

Lemma discovery_inv_init w s w1 s1 :
  discovery_inv s -> ensure_initialized host w s = Ok (w1, s1) -> discovery_inv s1.
Proof.
  intros [[Hlen Hnum] Hempty] H.
  apply ensure_initialized_spec in H
    as (_ & Hscan & Hf & Hm & _ & _ & _ & _ & Hkeep & _).
  split; [|congruence]. split; [congruence|]. rewrite Hm.
  destruct (initialized_scan s) eqn:Hs.
  - destruct Hkeep as [-> _]; done.
  - rewrite Hempty by done. by intros j md Hj.
Qed.

Lemma discovery_inv_pull i w s p w' s' :
  discovery_inv s -> initialized_scan s = true ->
  pulled host i (scan_data_iterator s) w s p w' s' -> discovery_inv s'.
Proof.
  intros [[Hlen Hnum] _] Hs (batches & mds & it' & exh & k & _ & -> & _ & Hl & Hn & _).
  split; [|simpl; congruence]. split; simpl.
  - rewrite !List.length_app, length_fmap. lia.
  - apply numbered_from_app; [done|]. simpl. by rewrite <- Hlen.
Qed.

Lemma unstarted_discovery_inv s : unstarted s -> discovery_inv s.
Proof.
  intros (_ & Hf & Hm & _). split; [|done]. split; [by rewrite Hf, Hm|].
  rewrite Hm. by intros j md Hj.
Qed.

Lemma VisitCallback_keeps_store s f s' :
  store_ok s -> VisitCallback host s f = Ok s' -> store_ok s'.
Proof.
  intros [Hlen Hnum] H. apply VisitCallback_spec in H as (md & -> & Hn & Hv).
  split; simpl.
  - rewrite !List.length_app. simpl. lia.
  - apply numbered_from_app; [done|]. intros [|j] md' Hj; [|done].
    simpl in Hj. injection Hj as <-. rewrite Nat.add_0_r, <- Hlen. done.
Qed.

(** C9. In every state a file list reaches from its start by calls of
    [GetFile], [GetAllFiles] and [GetTotalFileCount], the list of resolved
    paths and the list of metadata have the same length and the metadata
    at ordinal [i] records file number [i] and the version of the
    snapshot; a discovery callback run in such a state leaves this so. *)
Theorem file_store_stays_consistent (s0 : DeltaSnapshot) (cs : list file_list_call)
    (w0 w : World) (s : DeltaSnapshot) :
  unstarted s0 ->
  run_calls host cs w0 s0 = Ok (w, s) ->
  (length (resolved_files s) = length (metadata s)
   /\ forall i md, metadata s !! i = Some md ->
                   file_number md = Z.of_nat i /\ delta_snapshot_version md = version s)
  /\ forall f s', VisitCallback host s f = Ok s' ->
       length (resolved_files s') = length (metadata s')
       /\ version s' = version s
       /\ forall i md, metadata s' !! i = Some md ->
                       file_number md = Z.of_nat i /\ delta_snapshot_version md = version s.
Proof.
  intros Hun Hrun.
  assert (discovery_inv s) as [Hok _].
  { eapply (run_calls_keeps host discovery_inv); [| |by apply unstarted_discovery_inv|done].
    - apply discovery_inv_init.
    - apply discovery_inv_pull. }
  split; [exact Hok|].
  intros f s' Hcb. pose proof (VisitCallback_keeps_store _ _ _ Hok Hcb) as [Hl Hn].
  apply VisitCallback_spec in Hcb as (md & -> & _). simpl in *.
  split; [done|]. split; [done|]. exact Hn.
Qed.
End StoreInvariant.

(** ** What [GetFile] returns *)

Section Discovery.
Context (host : Host).

Lemma pulled_started i it w s p w' s' :
  pulled host i it w s p w' s' ->
  initialized_snapshot s' = initialized_snapshot s
  /\ initialized_scan s' = initialized_scan s
  /\ paths0 s' = paths0 s /\ names s' = names s /\ table_filters s' = table_filters s
  /\ snapshot s' = snapshot s /\ shared w' = shared w
  /\ (resolved_files s' !! i = Some p
      \/ (p = "" /\ resolved_files s' !! i = None /\ files_exhausted s' = true)).
Proof.
  intros (batches & mds & it' & exh & k & _ & -> & -> & _ & _ & Hres). simpl in *.
  split_and!; try done.
  destruct Hres as [(? & _) | (? & ? & _ & ? & _)]; [by left | right; done].
Qed.

Lemma GetFileInternal_result w s i p w' s' :
  GetFileInternal host w s i = Ok (p, w', s') ->
  initialized_snapshot s' = true /\ initialized_scan s' = true
  /\ (resolved_files s' !! i = Some p
      \/ (p = "" /\ resolved_files s' !! i = None /\ files_exhausted s' = true)).
Proof.
  intros H. apply GetFileInternal_spec in H as (w1 & s1 & Hinit & Hcases).
  apply ensure_initialized_spec in Hinit as (Hsnap & Hscan & _).
  destruct Hcases as [(? & _ & ->) | [(? & ? & ? & _ & ->) | (_ & _ & Hp)]].
  - split_and!; try done. by left.
  - split_and!; try done. by right.
  - apply pulled_started in Hp as (? & ? & _ & _ & _ & _ & _ & ?).
    split_and!; congruence.
Qed.

Lemma scan_inv_init s0 w s w1 s1 :
  scan_inv host s0 s -> ensure_initialized host w s = Ok (w1, s1) -> scan_inv host s0 s1.
Proof.
  intros (Hp & Hn & Hf & Hnone & Hsome) H.
  apply ensure_initialized_spec in H
    as (_ & Hscan & Hfiles & _ & _ & Hp1 & Hn1 & Hf1 & Hkeep & Hnew & _).
  split_and!; try congruence. intros _.
  destruct (initialized_scan s) eqn:Hs.
  - destruct Hkeep as [_ Hit]; [done|].
    destruct Hsome as (k & it0 & batches & Hk & Hit0 & Hres); [done|].
    exists k, it0, batches. split; [done|].
    split; [by rewrite Hit | by rewrite Hfiles, Hp1].
  - destruct Hnew as [k Hk]; [done|].
    exists k, (scan_data_iterator s1), []. split; [congruence|].
    split; [done|]. simpl. rewrite Hfiles. by apply Hnone.
Qed.

Lemma scan_inv_pull s0 i w s p w' s' :
  scan_inv host s0 s -> initialized_scan s = true ->
  pulled host i (scan_data_iterator s) w s p w' s' -> scan_inv host s0 s'.
Proof.
  intros (Hp & Hn & Hf & _ & Hsome) Hs
    (batches' & mds & it' & exh & k' & Hit & -> & _ & _ & _ & _).
  destruct Hsome as (k & it0 & batches & Hk & Hit0 & Hres); [done|].
  split_and!; simpl; try done; [congruence|]. intros _.
  exists k, it0, (batches ++ batches'). split; [done|]. split; simpl.
  - rewrite Hit0, Hit, fmap_app, app_assoc. done.
  - rewrite Hres, concat_app, fmap_app. done.
Qed.

Lemma unstarted_scan_inv s : unstarted s -> scan_inv host s s.
Proof. intros (Hs & Hf & _). split_and!; try done. congruence. Qed.

(** C10. A path returned by [GetFile] is that of a file the kernel scan
    supplied, at the ordinal asked for: the root of the snapshot with its
    trailing slashes trimmed, a slash and the supplied path, URL-decoded
    by [url_decode], with a leading [file://] stripped by [ToDuckDBPath].
    When every percent sign of the joined string starts a two-digit
    escape, [url_decode] is the decoder of the specification: plus signs
    become spaces and escapes their bytes. *)
Theorem GetFile_returns_decoded_path (s0 : DeltaSnapshot) (cs : list file_list_call)
    (w0 w : World) (s : DeltaSnapshot) (i : nat) (p : string)
    (w' : World) (s' : DeltaSnapshot) :
  unstarted s0 ->
  run_calls host cs w0 s0 = Ok (w, s) ->
  GetFile host w s i = Ok (p, w', s') ->
  p <> "" ->
  exists (k : KernelSnapshot) (it0 : KernelScanDataIterator)
         (batches : list (list ScanFile)) (f : ScanFile),
    kernel_scan host k (names s0) (table_filters s0) = Ok it0
    /\ it0 = (Ok <$> batches) ++ scan_data_iterator s'
    /\ concat batches !! i = Some f
    /\ let joined := RTrim_slash (GetPath s0) +:+ ("/" +:+ sf_path f) in
       p = ToDuckDBPath (url_decode (indet_ii host) joined)
       /\ (escapes_ok joined = true -> p = ToDuckDBPath (url_decode_words joined)).
Proof.
  intros Hun Hrun Hget Hne. unfold GetFile in Hget.
  assert (scan_inv host s0 s') as (Hp & _ & _ & _ & Hsome).
  { eapply (GetFileInternal_keeps host (scan_inv host s0)); [..|exact Hget].
    - apply scan_inv_init.
    - apply scan_inv_pull.
    - eapply (run_calls_keeps host (scan_inv host s0)); [..|exact Hrun].
      + apply scan_inv_init.
      + apply scan_inv_pull.
      + by apply unstarted_scan_inv. }
  apply GetFileInternal_result in Hget as (_ & Hscan & Hres).
  destruct Hres as [Hi | (? & _)]; [|done].
  destruct (Hsome Hscan) as (k & it0 & batches & Hk & Hit0 & Hfiles).
  rewrite Hfiles, list_lookup_fmap in Hi.
  destruct (concat batches !! i) as [f|] eqn:Hf; [|done].
  simpl in Hi. injection Hi as <-.
  exists k, it0, batches, f. split_and!; try done.
  unfold resolve_path, GetPath. rewrite Hp. split; [done|].
  intros Hok. by rewrite url_decode_words_ok.
Qed.

(** *** Exhaustion *)

Lemma exhausted_GetFileInternal w s j :
  initialized_snapshot s = true -> initialized_scan s = true ->
  files_exhausted s = true ->
  GetFileInternal host w s j = Ok (default "" (resolved_files s !! j), w, s).
Proof.
  intros Hsnap Hscan Hx. unfold GetFileInternal.
  rewrite ensure_initialized_started by done. simpl.
  destruct (resolved_files s !! j); [done|]. by rewrite Hx.
Qed.

Lemma exhausted_expand w s :
  initialized_snapshot s = true -> initialized_scan s = true ->
  files_exhausted s = true ->
  expand host w s (length (resolved_files s)) = Ok (w, s).
Proof.
  intros Hsnap Hscan Hx. unfold expand.
  rewrite ensure_initialized_started by done. unfold expansion_fuel.
  cbn [expand_from]. rewrite exhausted_GetFileInternal by done.
  rewrite lookup_ge_None_2 by lia. done.
Qed.

Lemma exhausted_run_calls cs w s :
  initialized_snapshot s = true -> initialized_scan s = true ->
  files_exhausted s = true ->
  run_calls host cs w s = Ok (w, s).
Proof.
  intros Hsnap Hscan Hx. induction cs as [|c cs IH]; [done|].
  cbn [run_calls]. replace (run_call host c w s) with (Ok (w, s) : res _); [done|].
  destruct c; simpl.
  - unfold GetFile. by rewrite exhausted_GetFileInternal.
  - unfold GetAllFiles. by rewrite exhausted_expand.
  - unfold GetTotalFileCount. by rewrite exhausted_expand.
Qed.

(** C2, as the code has it. Once [GetFile i] has returned the empty
    string for an index that holds no file (the empty string is then the
    end marker, which it always is when no file resolves to the empty
    path), the list is marked exhausted; whatever operations follow, the
    list and the world stay as they are, so no kernel entry point is called
    any more, and [GetFile j] returns the empty string for every [j] from
    [i] on. *)
Theorem exhaustion_is_stable (w : World) (s : DeltaSnapshot) (i : nat)
    (w1 : World) (s1 : DeltaSnapshot) :
  GetFile host w s i = Ok ("", w1, s1) ->
  resolved_files s1 !! i = None \/ "" ∉ resolved_files s1 ->
  files_exhausted s1 = true
  /\ forall (cs : list file_list_call) (j : nat),
       (i <= j)%nat ->
       run_calls host cs w1 s1 = Ok (w1, s1)
       /\ GetFile host w1 s1 j = Ok ("", w1, s1).
Proof.
  intros Hget Hfiles. unfold GetFile in *.
  apply GetFileInternal_result in Hget as (Hsnap & Hscan & Hres).
  destruct Hres as [Hi | (_ & Hi & Hx)].
  { exfalso. destruct Hfiles as [Hnone | Hfiles]; [congruence|].
    apply Hfiles. by eapply list_elem_of_lookup_2. }
  split; [done|]. intros cs j Hj.
  split; [by apply exhausted_run_calls|].
  rewrite exhausted_GetFileInternal by done.
  apply lookup_ge_None_1 in Hi. rewrite lookup_ge_None_2 by lia. done.
Qed.
End Discovery.

(** C2, as the specification has it, fails on a file whose path resolves
    to the empty string: [GetFile 0] returns it without the list being
    exhausted, and [GetFile 1] pulls the next answer of the scan and returns
    a path. *)
Lemma empty_path_is_not_the_end : ~ exhaustion_as_specified.
Proof.
  intros H.
  destruct (H (demo_host demo_root_scan) demo_world demo_root_snapshot 0%nat _ _ 1%nat
              eq_refl (Nat.le_succ_diag_r 0)) as [s2 Hc].
  vm_compute in Hc. discriminate Hc.
Qed.

(** ** Full expansion and cardinality *)

Section Expansion.
Context (host : Host).

Lemma files_left_app batches it :
  files_left ((Ok <$> batches) ++ it)
  = (length batches + length (concat batches) + files_left it)%nat.
Proof.
  induction batches as [|b batches IH]; [done|].
  rewrite fmap_cons. cbn [app files_left concat length]. rewrite IH, List.length_app. lia.
Qed.

(** Every iteration of the expansion loop that goes on lowers
    [expansion_fuel]. *)
Lemma GetFileInternal_progress w s i p w' s' :
  initialized_snapshot s = true -> initialized_scan s = true ->
  GetFileInternal host w s i = Ok (p, w', s') -> p <> "" ->
  initialized_snapshot s' = true /\ initialized_scan s' = true
  /\ (expansion_fuel s' (S i) < expansion_fuel s i)%nat.
Proof.
  intros Hsnap Hscan H Hne.
  pose proof (GetFileInternal_result host _ _ _ _ _ _ H) as (Hsnap' & Hscan' & _).
  split; [done|]. split; [done|].
  apply GetFileInternal_spec in H as (w1 & s1 & Hinit & Hcases).
  rewrite ensure_initialized_started in Hinit by done. injection Hinit as <- <-.
  unfold expansion_fuel.
  destruct Hcases as [(Hi & _ & ->) | [(_ & _ & ? & _) | (Hi & _ & Hp)]]; [|done|].
  - apply lookup_lt_Some in Hi. lia.
  - destruct Hp as (batches & mds & it' & exh & k & Hit & -> & _ & _ & _ & Hres).
    simpl in *. rewrite Hit, files_left_app.
    destruct Hres as [(Hi' & _) | (? & _)]; [|done].
    apply lookup_lt_Some in Hi'. apply lookup_ge_None_1 in Hi.
    rewrite List.length_app, length_fmap in Hi' |- *. lia.
Qed.

Lemma expand_from_enough fuel : forall w s i w1 s1,
  ensure_initialized host w s = Ok (w1, s1) ->
  (expansion_fuel s1 i <= fuel)%nat ->
  is_Some (expand_from host fuel w s i).
Proof.
  induction fuel as [|fuel IH]; intros w s i w1 s1 Hinit Hfuel.
  { unfold expansion_fuel in Hfuel. lia. }
  cbn [expand_from].
  destruct (GetFileInternal host w s i) as [[[file w'] s']|] eqn:Hg; [|done].
  destruct (String.eqb file "") eqn:Hfile; [done|].
  apply String.eqb_neq in Hfile.
  assert (GetFileInternal host w1 s1 i = Ok (file, w', s')) as Hg1.
  { pose proof (ensure_initialized_spec host _ _ _ _ Hinit) as (Hsnap & Hscan & _).
    unfold GetFileInternal in *. rewrite Hinit in Hg. simpl in Hg.
    rewrite ensure_initialized_started by done. done. }
  pose proof (ensure_initialized_spec host _ _ _ _ Hinit) as (Hsnap & Hscan & _).
  apply GetFileInternal_progress in Hg1 as (Hsnap' & Hscan' & Hlt); try done.
  eapply (IH w' s' (S i) w' s'); [by apply ensure_initialized_started | lia].
Qed.

(** The loop always reaches its end within the fuel [expand] gives it. *)
Lemma expand_reaches_end w s i :
  exists fuel, expand_from host fuel w s i = Some (expand host w s i).
Proof.
  unfold expand.
  destruct (ensure_initialized host w s) as [[w1 s1]|e] eqn:Hinit.
  - exists (expansion_fuel s1 i).
    destruct (expand_from_enough (expansion_fuel s1 i) w s i w1 s1 Hinit) as [r Hr]; [lia|].
    by rewrite Hr.
  - exists 1%nat. simpl. unfold GetFileInternal. rewrite Hinit. done.
Qed.

Lemma expand_from_exhausts fuel : forall w s i w' s',
  expand_from host fuel w s i = Some (Ok (w', s')) ->
  "" ∉ resolved_files s' -> files_exhausted s' = true.
Proof.
  induction fuel as [|fuel IH]; intros w s i w' s' H Hfiles; simpl in H; [done|].
  destruct (GetFileInternal host w s i) as [[[file w1] s1]|] eqn:Hg; [|done].
  destruct (String.eqb file "") eqn:Hfile; [|by eapply IH].
  apply String.eqb_eq in Hfile as ->. simplify_eq.
  apply GetFileInternal_result in Hg as (_ & _ & [Hi | (_ & _ & Hx)]); [|done].
  exfalso. apply Hfiles. by eapply list_elem_of_lookup_2.
Qed.

Lemma expand_exhausts w s i w' s' :
  expand host w s i = Ok (w', s') ->
  "" ∉ resolved_files s' -> files_exhausted s' = true.
Proof.
  intros H. destruct (expand_reaches_end w s i) as [fuel Hf].
  rewrite H in Hf. by eapply expand_from_exhausts.
Qed.

Lemma sum_cardinality_from mds : forall t h,
  fold_left (fun '(total_tuple_count, have_any_stats) metadatum =>
               if cardinality metadatum =? INVALID_INDEX
               then (total_tuple_count, have_any_stats)
               else (idx_wrap (total_tuple_count + cardinality metadatum), true))
            mds (t, h)
  = match estimates mds with
    | [] => (t, h)
    | es => (idx_wrap (t + sum_Z es), true)
    end.
Proof.
  induction mds as [|md mds IH]; intros t h; [done|].
  cbn [fold_left]. unfold estimates in *. cbn [List.filter].
  assert (usable_estimate md = negb (cardinality md =? INVALID_INDEX)) as -> by done.
  destruct (cardinality md =? INVALID_INDEX); cbn [negb]; [apply IH|].
  rewrite IH, fmap_cons.
  destruct (cardinality <$> List.filter usable_estimate mds) as [|e es]; simpl.
  - by rewrite Z.add_0_r.
  - f_equal. unfold idx_wrap. rewrite Zplus_mod_idemp_l. f_equal. unfold sum_Z. simpl. lia.
Qed.

Lemma sum_cardinality_spec mds :
  sum_cardinality mds
  = match estimates mds with
    | [] => (0, false)
    | es => (idx_wrap (sum_Z es), true)
    end.
Proof. unfold sum_cardinality. by rewrite sum_cardinality_from. Qed.

(** C3, as the code has it. [GetCardinality] runs [GetTotalFileCount],
    which materialises files until [GetFile] returns the empty string: the
    list is expanded to its end when no file resolves to the empty path.
    It then returns, over the files materialised: zero, as both
    cardinalities, when there is none; unknown when there are files and
    none carries a usable estimate; otherwise the sum of the estimates
    (in [idx_t], that is modulo [2 ^ 64]) as both cardinalities. *)
Theorem GetCardinality_by_cases (w : World) (s : DeltaSnapshot)
    (r : option NodeStatistics) (w' : World) (s' : DeltaSnapshot) :
  GetCardinality host w s = Ok (r, w', s') ->
  GetTotalFileCount host w s = Ok (length (resolved_files s'), w', s')
  /\ ("" ∉ resolved_files s' -> files_exhausted s' = true)
  /\ r = match resolved_files s', estimates (metadata s') with
         | [], _ => Some {| estimated_cardinality := 0; max_cardinality := 0 |}
         | _ :: _, [] => None
         | _ :: _, es => Some {| estimated_cardinality := idx_wrap (sum_Z es);
                                 max_cardinality := idx_wrap (sum_Z es) |}
         end.
Proof.
  unfold GetCardinality, GetTotalFileCount. intros H.
  destruct (expand host w s (length (resolved_files s))) as [[w1 s1]|] eqn:He;
    simpl in H; [|done].
  assert (w1 = w' /\ s1 = s' /\
          r = match resolved_files s1, estimates (metadata s1) with
              | [], _ => Some {| estimated_cardinality := 0; max_cardinality := 0 |}
              | _ :: _, [] => None
              | _ :: _, es => Some {| estimated_cardinality := idx_wrap (sum_Z es);
                                      max_cardinality := idx_wrap (sum_Z es) |}
              end) as (-> & -> & ->).
  { destruct (resolved_files s1) as [|f fs]; simpl in H; [by simplify_eq|].
    rewrite sum_cardinality_spec in H.
    destruct (estimates (metadata s1)); by simplify_eq. }
  split; [done|]. split; [|done]. by eapply expand_exhausts.
Qed.
End Expansion.

(** C3, as the specification has it, fails on a table without files:
    no file carries an estimate, and the answer is zero, not unknown. *)
Lemma GetCardinality_of_empty_table_is_known : ~ GetCardinality_as_specified.
Proof.
  intros H.
  pose proof (H (demo_host []) demo_world
                (DeltaSnapshot_new (demo_host []) "file:///data/tbl") _ _ _ eq_refl) as Hc.
  vm_compute in Hc. discriminate Hc.
Qed.

(** And the expansion is not always full: [GetTotalFileCount] stops at a
    file that resolves to the empty path, with answers of the scan left
    unread. *)
Lemma GetCardinality_stops_at_an_empty_path :
  exists r w' s',
    GetCardinality (demo_host demo_root_scan) demo_world demo_root_snapshot
    = Ok (r, w', s')
    /\ resolved_files s' = [""]
    /\ files_exhausted s' = false
    /\ length (scan_data_iterator s') = 1%nat.
Proof.
  destruct (GetCardinality (demo_host demo_root_scan) demo_world demo_root_snapshot)
    as [[[r w'] s']|] eqn:Hrun; [|by vm_compute in Hrun].
  exists r, w', s'. split; [reflexivity|].
  vm_compute in Hrun. by injection Hrun as <- <- <-.
Qed.

(** ** Filter pushdown *)

Section Pushdown.
Context (host : Host).

(** C6. With an empty list of predicates [ComplexFilterPushdown]
    returns the null result: no fork is made, and the file list, the
    world and the pushdown info are as before. *)
Theorem ComplexFilterPushdown_without_filters (context : ClientContext) (w : World)
    (s : DeltaSnapshot) (info : MultiFilePushdownInfo) :
  ComplexFilterPushdown host context w s info [] = Ok (None, w, s, info).
Proof. reflexivity. Qed.

Lemma snapshots_opened_pulls k w :
  snapshots_opened {| shared := shared w;
                      calls := replicate k ffi_kernel_scan_data_next ++ calls w |}
  = snapshots_opened w.
Proof.
  unfold snapshots_opened. simpl. induction k as [|k IH]; simpl; done.
Qed.

(** A list that holds a snapshot handle keeps it, and neither the
    store of shared snapshots nor the number of snapshots opened changes
    when it discovers files. *)
Lemma GetFileInternal_shares a w s i p w' s' :
  snapshot s = Some a ->
  GetFileInternal host w s i = Ok (p, w', s') ->
  snapshot s' = Some a /\ shared w' = shared w
  /\ snapshots_opened w' = snapshots_opened w.
Proof.
  intros Ha H. apply GetFileInternal_spec in H as (w1 & s1 & Hinit & Hcases).
  apply ensure_initialized_spec in Hinit as (_ & _ & _ & _ & _ & _ & _ & _ & _ & _ & Hs).
  destruct (Hs a Ha) as (Ha1 & Hsh & Hop).
  destruct Hcases as [(_ & -> & ->) | [(_ & _ & _ & -> & ->) | (_ & _ & Hp)]]; try done.
  pose proof (pulled_started host _ _ _ _ _ _ _ Hp) as (_ & _ & _ & _ & _ & Hsn & Hsh' & _).
  destruct Hp as (batches & mds & it' & exh & k & _ & _ & -> & _).
  rewrite snapshots_opened_pulls. split_and!; congruence.
Qed.

Lemma expand_from_shares a fuel : forall w s i w' s',
  snapshot s = Some a ->
  expand_from host fuel w s i = Some (Ok (w', s')) ->
  snapshot s' = Some a /\ shared w' = shared w
  /\ snapshots_opened w' = snapshots_opened w.
Proof.
  induction fuel as [|fuel IH]; intros w s i w' s' Ha H; simpl in H; [done|].
  destruct (GetFileInternal host w s i) as [[[file w1] s1]|] eqn:Hg; [|done].
  apply (GetFileInternal_shares a) in Hg as (Ha1 & Hsh & Hop); [|done].
  destruct (String.eqb file ""); [by simplify_eq|].
  apply IH in H as (? & ? & ?); [|done]. split_and!; congruence.
Qed.

Lemma GetTotalFileCount_shares a w s n w' s' :
  snapshot s = Some a ->
  GetTotalFileCount host w s = Ok (n, w', s') ->
  snapshot s' = Some a /\ shared w' = shared w
  /\ snapshots_opened w' = snapshots_opened w.
Proof.
  unfold GetTotalFileCount. intros Ha H.
  destruct (expand host w s _) as [[w1 s1]|] eqn:He; simpl in H; [|done].
  simplify_eq. destruct (expand_reaches_end host w s (length (resolved_files s))) as [fuel Hf].
  rewrite He in Hf. by eapply expand_from_shares.
Qed.

(** C7. The fork that [ComplexFilterPushdown] makes of a list whose
    snapshot is open holds the very handle of its parent: the same
    address in the store of shared snapshots, whose use count goes up by
    one, while no snapshot is added to the store and the kernel is not
    asked to open one, neither by the pushdown nor when the fork is
    initialised. The fork is made with an empty file store and no scan of
    its own, whatever files the parent knows; when profiling asks for the
    file counts it is then expanded by its own scan before it is
    returned. *)
Theorem ComplexFilterPushdown_fork_shares_snapshot (context : ClientContext) (w : World)
    (s : DeltaSnapshot) (info : MultiFilePushdownInfo) (filters : list Expression)
    (fork : DeltaSnapshot) (w' : World) (s' : DeltaSnapshot)
    (info' : MultiFilePushdownInfo) (a : nat) :
  snapshot s = Some a ->
  ComplexFilterPushdown host context w s info filters = Ok (Some fork, w', s', info') ->
  let fork0 :=
    make_filtered_list host s
      (GenerateTableScanFilters host (rev filters) (column_indexes info)) in
  (snapshot fork = Some a /\ snapshot s' = Some a)
  /\ shared w' = shared (copy_shared_ptr (Some a) w)
  /\ dom (shared w') = dom (shared w)
  /\ snapshots_opened w' = snapshots_opened w
  /\ (snapshot fork0 = Some a /\ unstarted fork0 /\ initialized_snapshot fork0 = false
      /\ scan_data_iterator fork0 = [])
  /\ ((fork = fork0 /\ s' = s)
      \/ exists old_total w1 new_total,
           GetTotalFileCount host (copy_shared_ptr (Some a) w) s = Ok (old_total, w1, s')
           /\ GetTotalFileCount host w1 fork0 = Ok (new_total, w', fork))
  /\ forall wi wi' fi,
       InitializeSnapshot host wi fork0 = Ok (wi', fi) ->
       snapshot fi = Some a /\ shared wi' = shared wi
       /\ snapshots_opened wi' = snapshots_opened wi.
Proof.
  intros Ha H fork0.
  assert (dom (shared (copy_shared_ptr (Some a) w)) = dom (shared w)) as Hdom.
  { simpl. apply dom_alter_L. }
  assert (snapshots_opened (copy_shared_ptr (Some a) w) = snapshots_opened w) as Hop by done.
  assert (forall wi wi' fi,
            InitializeSnapshot host wi fork0 = Ok (wi', fi) ->
            snapshot fi = Some a /\ shared wi' = shared wi
            /\ snapshots_opened wi' = snapshots_opened wi) as Hinit.
  { intros wi wi' fi Hi. apply InitializeSnapshot_spec in Hi as (_ & Hrest).
    destruct Hrest as (_ & _ & _ & _ & _ & _ & _ & _ & _ & _ & Hs).
    destruct (Hs a) as [? ->]; [done|]. done. }
  assert (snapshot fork0 = Some a /\ unstarted fork0 /\ initialized_snapshot fork0 = false
          /\ scan_data_iterator fork0 = []) as Hfork0.
  { split; [done|]. split; [|done]. by split_and!. }
  destruct Hfork0 as (Hf0a & Hf0b & Hf0c & Hf0d).
  unfold ComplexFilterPushdown in H. destruct filters as [|e filters]; [done|].
  fold fork0 in H. rewrite Ha in H.
  set (w0 := copy_shared_ptr (Some a) w) in *.
  assert (forall (fk : DeltaSnapshot) wx sx ix,
            Ok (Some fork0, w0, s, info) = Ok (Some fk, wx, sx, ix) ->
            (snapshot fk = Some a /\ snapshot sx = Some a)
            /\ shared wx = shared w0 /\ dom (shared wx) = dom (shared w)
            /\ snapshots_opened wx = snapshots_opened w
            /\ ((fk = fork0 /\ sx = s)
                \/ exists old_total w1 new_total,
                     GetTotalFileCount host w0 s = Ok (old_total, w1, sx)
                     /\ GetTotalFileCount host w1 fork0 = Ok (new_total, wx, fk))) as Hplain.
  { intros fk wx sx ix Heq. simplify_eq. split_and!; try done. by left. }
  destruct (profiler_IsEnabled context).
  2:{ destruct (Hplain _ _ _ _ H) as ([? ?] & ? & ? & ? & ?). split_and!; done. }
  destruct (delta_scan_explain_files_filtered context) as [result|]; [|done].
  destruct (GetValue_bool host result) as [[|]|]; simpl in H; [| |done].
  2:{ destruct (Hplain _ _ _ _ H) as ([? ?] & ? & ? & ? & ?). split_and!; done. }
  destruct (GetTotalFileCount host w0 s) as [[[old_total w1] s1]|] eqn:Hold;
    simpl in H; [|done].
  destruct (GetTotalFileCount host w1 fork0) as [[[new_total w2] f2]|] eqn:Hnew;
    simpl in H; [|done].
  apply (GetTotalFileCount_shares a) in Hold as Hold'; [|done].
  apply (GetTotalFileCount_shares a) in Hnew as Hnew'; [|done].
  destruct Hold' as (Hs1 & Hsh1 & Hop1). destruct Hnew' as (Hf2 & Hsh2 & Hop2).
  match type of H with
  | mbind _ ?m = _ => destruct m as [x1|]; simpl in H; [|done]
  end.
  match type of H with
  | mbind _ ?m = _ => destruct m as [x2|]; simpl in H; [|done]
  end.
  injection H as <- <- <- <-.
  split_and!; try done; try congruence.
  right. by exists old_total, w1, new_total.
Qed.
End Pushdown.

(** ** Column mapping *)

Section ColumnMapping.

Lemma ci_find_insert {V} (k n : string) (v : V) (m : gmap string V) :
  ci_find n (ci_insert k v m) = if decide (Lower k = Lower n) then Some v else ci_find n m.
Proof. unfold ci_find, ci_insert. apply lookup_insert. Qed.

Lemma is_constant_spec rd i :
  is_constant rd i = true <-> exists v, (i, v) ∈ constant_map rd.
Proof.
  unfold is_constant. rewrite existsb_exists. split.
  - intros ([j v] & Hin & Heq). simpl in Heq. apply Z.eqb_eq in Heq as ->.
    exists v. by apply list_elem_of_In.
  - intros [v Hin]. exists (i, v). split; [by apply list_elem_of_In|]. simpl. lia.
Qed.

Lemma is_constant_add rd j v i :
  is_constant (add_constant rd j v) i = is_constant rd i || (j =? i).
Proof. unfold is_constant. simpl. rewrite existsb_app. simpl. by rewrite orb_false_r. Qed.

Lemma build_name_map_in_range local : forall i0 m n j,
  ci_find n (build_name_map local i0 m) = Some j ->
  ci_find n m = Some j \/ i0 <= j < i0 + Z.of_nat (length local).
Proof.
  induction local as [|c local IH]; intros i0 m n j H; simpl in *; [by left|].
  apply IH in H as [H | H]; [|right; lia].
  rewrite ci_find_insert in H. case_decide; [|by left].
  right. simplify_eq. lia.
Qed.

Lemma build_name_map_missing local : forall i0 m n,
  (forall c, c ∈ local -> Lower (name c) <> Lower n) ->
  ci_find n (build_name_map local i0 m) = ci_find n m.
Proof.
  induction local as [|c local IH]; intros i0 m n H; simpl; [done|].
  rewrite IH by (intros; apply H; set_solver).
  rewrite ci_find_insert. case_decide as Hc; [|done].
  exfalso. eapply H; [|exact Hc]. set_solver.
Qed.

Section Loop.
Variable name_map : gmap string Z.
Variables local_columns global_columns : list MultiFileReaderColumnDefinition.
Hypothesis name_map_in_range : forall n j,
  ci_find n name_map = Some j -> 0 <= j < Z.of_nat (length local_columns).

Lemma vec_at_in_range {A} (v : list A) i :
  0 <= i < Z.of_nat (length v) -> exists a, vec_at v i = Ok a.
Proof.
  intros Hi. unfold vec_at.
  replace ((0 <=? i) && (i <? Z.of_nat (length v))) with true by lia.
  destruct (v !! Z.to_nat i) as [a|] eqn:Ha; [by exists a|].
  apply lookup_ge_None_1 in Ha. lia.
Qed.

Lemma vec_at_Ok {A} (v : list A) i a :
  vec_at v i = Ok a -> 0 <= i < Z.of_nat (length v) /\ v !! Z.to_nat i = Some a.
Proof.
  unfold vec_at. destruct ((0 <=? i) && (i <? Z.of_nat (length v))) eqn:Hi; [|done].
  destruct (v !! Z.to_nat i) eqn:Ha; [|done]. intros ?; simplify_eq. split; [lia|done].
Qed.

(** The mapping loop does not fail when the columns it has to look up
    are columns of the global schema. *)
Lemma name_mapping_loop_succeeds ids : forall i0 rd,
  (forall k id, ids !! k = Some id -> is_constant rd (i0 + Z.of_nat k) = false ->
                0 <= GetPrimaryIndex id < Z.of_nat (length global_columns)) ->
  exists rd', name_mapping_loop name_map local_columns global_columns ids i0 rd = Ok rd'.
Proof.
  induction ids as [|id ids IH]; intros i0 rd Hin; [by eexists|].
  assert (forall rd1,
            (forall i, i0 < i -> is_constant rd1 i = is_constant rd i) ->
            exists rd', name_mapping_loop name_map local_columns global_columns
                          ids (i0 + 1) rd1 = Ok rd') as Hnext.
  { intros rd1 Hsame. apply IH. intros k id' Hk Hc.
    rewrite Hsame in Hc by lia. apply (Hin (S k)); [done|].
    by replace (i0 + Z.of_nat (S k)) with (i0 + 1 + Z.of_nat k) by lia. }
  cbn [name_mapping_loop].
  destruct (is_constant rd i0) eqn:Hc; [by apply Hnext|].
  specialize (Hin O id eq_refl). rewrite Z.add_0_r in Hin. specialize (Hin Hc).
  replace (Z.of_nat (length global_columns) <=? GetPrimaryIndex id) with false by lia.
  destruct (vec_at_in_range global_columns _ Hin) as [g ->]. simpl.
  destruct (ci_find (name g) name_map) as [local_id|] eqn:Hfind.
  - destruct (vec_at_in_range local_columns local_id) as [l ->];
      [by eapply name_map_in_range|]. simpl.
    apply Hnext. intros i Hi. done.
  - apply Hnext. intros i Hi. rewrite is_constant_add.
    replace (i0 =? i) with false by lia. by rewrite orb_false_r.
Qed.

(** What the loop leaves of a column: outside the positions it visits
    nothing changes; a column that is constant before it is mapped to no
    physical column; a column that is not constant and not found in the
    file gets one constant, the NULL of its global type, and no
    physical column. *)
Lemma name_mapping_loop_spec ids : forall i0 rd rd',
  name_mapping_loop name_map local_columns global_columns ids i0 rd = Ok rd' ->
  (forall j v, (j, v) ∈ constant_map rd -> (j, v) ∈ constant_map rd')
  /\ (forall j, ~ (i0 <= j < i0 + Z.of_nat (length ids)) ->
        (forall v, (j, v) ∈ constant_map rd' -> (j, v) ∈ constant_map rd)
        /\ (j ∈ column_mapping rd' -> j ∈ column_mapping rd))
  /\ (forall k id, ids !! k = Some id ->
        is_constant rd (i0 + Z.of_nat k) = true ->
        (i0 + Z.of_nat k) ∈ column_mapping rd' ->
        (i0 + Z.of_nat k) ∈ column_mapping rd)
  /\ (forall k id col, ids !! k = Some id ->
        is_constant rd (i0 + Z.of_nat k) = false ->
        vec_at global_columns (GetPrimaryIndex id) = Ok col ->
        ci_find (name col) name_map = None ->
        (i0 + Z.of_nat k, Value_NULL (type col)) ∈ constant_map rd'
        /\ (forall v, (i0 + Z.of_nat k, v) ∈ constant_map rd' -> v = Value_NULL (type col))
        /\ ((i0 + Z.of_nat k) ∈ column_mapping rd' -> (i0 + Z.of_nat k) ∈ column_mapping rd)).
Proof.
  induction ids as [|id ids IH]; intros i0 rd rd' H.
  { simpl in H. simplify_eq. split_and!; try done. }
  cbn [name_mapping_loop] in H.
  (* the state [rd1] after the first position: its constants are those of
     [rd], with at most one more at [i0]; its mapping that of [rd], with at
     most [i0] more *)
  assert (exists rd1,
            name_mapping_loop name_map local_columns global_columns ids (i0 + 1) rd1 = Ok rd'
            /\ (forall j v, (j, v) ∈ constant_map rd -> (j, v) ∈ constant_map rd1)
            /\ (forall j v, (j, v) ∈ constant_map rd1 ->
                            (j, v) ∈ constant_map rd \/ j = i0 /\ is_constant rd i0 = false
                             /\ exists col, vec_at global_columns (GetPrimaryIndex id) = Ok col
                                            /\ v = Value_NULL (type col))
            /\ (forall j, j ∈ column_mapping rd1 ->
                          j ∈ column_mapping rd
                          \/ j = i0 /\ is_constant rd i0 = false
                             /\ exists col, vec_at global_columns (GetPrimaryIndex id) = Ok col
                                            /\ is_Some (ci_find (name col) name_map))
            /\ (forall col, is_constant rd i0 = false ->
                            vec_at global_columns (GetPrimaryIndex id) = Ok col ->
                            ci_find (name col) name_map = None ->
                            (i0, Value_NULL (type col)) ∈ constant_map rd1
                            /\ column_mapping rd1 = column_mapping rd))
    as (rd1 & Hrest & Hmono & Hconst & Hmap & Hnull).
  { destruct (is_constant rd i0) eqn:Hc.
    { exists rd. split_and!; try done; eauto. }
    destruct (Z.of_nat (length global_columns) <=? GetPrimaryIndex id); [done|].
    destruct (vec_at global_columns (GetPrimaryIndex id)) as [g|] eqn:Hg; simpl in H; [|done].
    destruct (ci_find (name g) name_map) as [local_id|] eqn:Hfind.
    - destruct (vec_at local_columns local_id) as [l|]; simpl in H; [|done].
      eexists. split; [exact H|]. simpl. split_and!; try done; eauto.
      + intros j Hj. apply elem_of_app in Hj as [Hj | Hj]; [by left|].
        apply list_elem_of_singleton in Hj as ->. right. split_and!; try done.
        exists g. split; [done|]. by rewrite Hfind.
      + intros col _ Hcol Hnone. simplify_eq.
    - eexists. split; [exact H|]. simpl. split_and!; try done.
      + intros j v Hj. apply elem_of_app. by left.
      + intros j v Hj. apply elem_of_app in Hj as [Hj | Hj]; [by left|].
        apply list_elem_of_singleton in Hj. simplify_eq. right. eauto.
      + eauto.
      + intros col _ Hcol Hnone. simplify_eq. split; [|done].
        apply elem_of_app. right. by apply list_elem_of_singleton. }
  destruct (IH _ _ _ Hrest) as (IHmono & IHframe & IHconst & IHnull).
  assert (forall i, i0 < i -> is_constant rd1 i = is_constant rd i) as Hsame.
  { intros i Hi. apply eq_true_iff_eq. rewrite !is_constant_spec.
    split; intros [v Hv]; exists v; [|by apply Hmono].
    apply Hconst in Hv as [? | (? & _)]; [done | lia]. }
  split_and!.
  - intros j v Hj. by apply IHmono, Hmono.
  - intros j Hj. simpl in Hj.
    destruct (IHframe j) as [Hc Hm]; [lia|]. split.
    + intros v Hv. apply Hc, Hconst in Hv as [? | (? & _)]; [done | lia].
    + intros Hv. apply Hm, Hmap in Hv as [? | (? & _)]; [done | lia].
  - intros [|k] id' Hk Hc Hin; simpl in Hk.
    + rewrite Z.add_0_r in *. destruct (IHframe i0) as [_ Hm]; [lia|].
      apply Hm, Hmap in Hin as [? | (_ & ? & _)]; [done | congruence].
    + replace (i0 + Z.of_nat (S k)) with (i0 + 1 + Z.of_nat k) in * by lia.
      rewrite <- Hsame in Hc by lia.
      apply (IHconst k id' Hk Hc), Hmap in Hin as [? | (? & _)]; [done | lia].
  - intros [|k] id' col Hk Hc Hcol Hnone; simpl in Hk.
    + rewrite Z.add_0_r in *. simplify_eq.
      destruct (Hnull col Hc Hcol Hnone) as [Hin Hcm].
      destruct (IHframe i0) as [Hcf Hm]; [lia|]. split_and!.
      * by apply IHmono.
      * intros v Hv. apply Hcf, Hconst in Hv as [Hv | (_ & _ & col' & ? & ->)].
        -- assert (is_constant rd i0 = true) by (apply is_constant_spec; eauto).
           congruence.
        -- congruence.
      * intros Hv. apply Hm in Hv. by rewrite Hcm in Hv.
    + replace (i0 + Z.of_nat (S k)) with (i0 + 1 + Z.of_nat k) in * by lia.
      rewrite <- Hsame in Hc by lia.
      destruct (IHnull k id' col Hk Hc Hcol Hnone) as (Hin & Huniq & Hm).
      split_and!; try done.
      intros Hv. apply Hm, Hmap in Hv as [? | (? & _)]; [done | lia].
Qed.
End Loop.

Lemma build_name_map_valid local n j :
  ci_find n (build_name_map local 0 ∅) = Some j -> 0 <= j < Z.of_nat (length local).
Proof.
  intros H. apply build_name_map_in_range in H as [H | H]; [|lia].
  unfold ci_find in H. by rewrite lookup_empty in H.
Qed.

(** C5. The name mapping of a file does not fail as long as the
    columns it has to look up belong to the global schema; a projected
    column that is not constant for the file and whose name, compared
    without case, is that of no column of the file gets exactly one
    constant, the NULL of its declared global type, and is mapped to no
    physical column of the file. *)
Theorem missing_column_is_null_constant
    (local_columns global_columns : list MultiFileReaderColumnDefinition)
    (global_column_ids : list ColumnIndex) (reader_data : MultiFileReaderData) :
  (forall k id, global_column_ids !! k = Some id ->
                is_constant reader_data (Z.of_nat k) = false ->
                0 <= GetPrimaryIndex id < Z.of_nat (length global_columns)) ->
  exists rd',
    CustomMulfiFileNameMapping local_columns global_columns global_column_ids reader_data
    = Ok rd'
    /\ forall k id col,
         global_column_ids !! k = Some id ->
         is_constant reader_data (Z.of_nat k) = false ->
         vec_at global_columns (GetPrimaryIndex id) = Ok col ->
         (forall c, c ∈ local_columns -> Lower (name c) <> Lower (name col)) ->
         (Z.of_nat k, Value_NULL (type col)) ∈ constant_map rd'
         /\ (forall v, (Z.of_nat k, v) ∈ constant_map rd' -> v = Value_NULL (type col))
         /\ (Z.of_nat k ∈ column_mapping rd' -> Z.of_nat k ∈ column_mapping reader_data).
Proof.
  intros Hin. unfold CustomMulfiFileNameMapping.
  destruct (name_mapping_loop_succeeds (build_name_map local_columns 0 ∅)
              local_columns global_columns (build_name_map_valid local_columns)
              global_column_ids 0 reader_data) as [rd1 Hloop].
  { intros k id Hk Hc. apply (Hin k id Hk). by rewrite Z.add_0_l in Hc. }
  rewrite Hloop. simpl. eexists. split; [reflexivity|]. simpl.
  intros k id col Hk Hc Hcol Hmissing.
  apply name_mapping_loop_spec in Hloop as (_ & _ & _ & Hnull).
  specialize (Hnull k id col Hk). rewrite Z.add_0_l in Hnull.
  apply Hnull; try done.
  rewrite build_name_map_missing by done. unfold ci_find. apply lookup_empty.
Qed.
End ColumnMapping.

(** ** Partition constants *)

Section PartitionConstants.
Context (host : Host).
Variable base_FinalizeBind :
  MultiFileReaderOptions -> string ->
  list MultiFileReaderColumnDefinition -> list MultiFileReaderColumnDefinition ->
  list ColumnIndex -> MultiFileReaderData -> res MultiFileReaderData.

Lemma bind_partitions_spec partitions global_columns ids : forall i0 rd rd',
  bind_partitions host partitions global_columns ids i0 rd = Ok rd' ->
  file_list_idx rd' = file_list_idx rd
  /\ column_mapping rd' = column_mapping rd
  /\ (forall j v, (j, v) ∈ constant_map rd -> (j, v) ∈ constant_map rd')
  /\ (forall k id col partition_val,
        ids !! k = Some id -> IsRowIdColumnId (GetPrimaryIndex id) = false ->
        vec_at global_columns (GetPrimaryIndex id) = Ok col ->
        ci_find (name col) partitions = Some partition_val ->
        exists v, (i0 + Z.of_nat k, v) ∈ constant_map rd'
                  /\ partition_constant host (type col) partition_val v).
Proof.
  induction ids as [|id ids IH]; intros i0 rd rd' H.
  { simpl in H. simplify_eq. split_and!; done. }
  cbn [bind_partitions] in H.
  assert (exists rd1,
            bind_partitions host partitions global_columns ids (i0 + 1) rd1 = Ok rd'
            /\ file_list_idx rd1 = file_list_idx rd
            /\ column_mapping rd1 = column_mapping rd
            /\ (forall j v, (j, v) ∈ constant_map rd -> (j, v) ∈ constant_map rd1)
            /\ (forall col partition_val,
                  IsRowIdColumnId (GetPrimaryIndex id) = false ->
                  vec_at global_columns (GetPrimaryIndex id) = Ok col ->
                  ci_find (name col) partitions = Some partition_val ->
                  exists v, (i0, v) ∈ constant_map rd1
                            /\ partition_constant host (type col) partition_val v))
    as (rd1 & Hrest & Hidx & Hmap & Hmono & Hhere).
  { destruct (IsRowIdColumnId (GetPrimaryIndex id)) eqn:Hrow.
    { exists rd. split_and!; done. }
    destruct (vec_at global_columns (GetPrimaryIndex id)) as [col|] eqn:Hcol;
      simpl in H; [|done].
    destruct (ci_find (name col) partitions) as [pv|] eqn:Hfind.
    2:{ exists rd. split_and!; try done. intros; simplify_eq. }
    unfold partition_constant. destruct (decide (type col = BLOB)) as [Hb|Hb].
    - eexists. split; [exact H|]. simpl. split_and!; try done.
      + intros j v Hj. apply elem_of_app. by left.
      + intros col' pv' _ ? ?. simplify_eq. eexists. split.
        * apply elem_of_app. right. by apply list_elem_of_singleton.
        * by rewrite decide_True.
    - destruct (DefaultCastAs host (Value_VARCHAR pv) (type col)) as [mv|] eqn:Hcast;
        simpl in H; [|done].
      eexists. split; [exact H|]. simpl. split_and!; try done.
      + intros j v Hj. apply elem_of_app. by left.
      + intros col' pv' _ ? ?. simplify_eq. exists mv. split.
        * apply elem_of_app. right. by apply list_elem_of_singleton.
        * by rewrite decide_False. }
  destruct (IH _ _ _ Hrest) as (IHidx & IHmap & IHmono & IHhere).
  split_and!; try congruence.
  - intros j v Hj. by apply IHmono, Hmono.
  - intros [|k] id' col pv Hk Hrow Hcol Hfind; simpl in Hk.
    + simplify_eq. rewrite Z.add_0_r.
      destruct (Hhere col pv Hrow Hcol Hfind) as (v & Hv & Hpc).
      exists v. split; [by apply IHmono | done].
    + replace (i0 + Z.of_nat (S k)) with (i0 + 1 + Z.of_nat k) by lia.
      by eapply IHhere.
Qed.

Lemma CreateColumnMapping_adds_no_mapping local_columns global_columns ids rd gs rd2 k :
  (k < length ids)%nat ->
  is_constant rd (Z.of_nat k) = true ->
  CreateColumnMapping local_columns global_columns ids rd gs = Ok rd2 ->
  Z.of_nat k ∈ column_mapping rd2 -> Z.of_nat k ∈ column_mapping rd.
Proof.
  intros Hk Hc H Hin. unfold CreateColumnMapping, CustomMulfiFileNameMapping in H.
  destruct (name_mapping_loop _ local_columns global_columns ids 0 rd) as [rd1|] eqn:Hloop;
    simpl in H; [|done].
  apply name_mapping_loop_spec in Hloop as (_ & _ & Hconst & _).
  destruct (lookup_lt_is_Some_2 ids k Hk) as [id Hid].
  specialize (Hconst k id Hid). rewrite Z.add_0_l in Hconst. apply Hconst; [done|].
  destruct gs as [g|]; simpl in H; [|done].
  destruct (Z.of_nat (length ids) <=? file_row_number_idx g) eqn:Hextra.
  - destruct (ci_find "file_row_number" _) as [local_id|]; simpl in H; [|done].
    simplify_eq. simpl in Hin. apply elem_of_app in Hin as [Hin | Hin]; [done|].
    apply list_elem_of_singleton in Hin. lia.
  - simpl in H. by simplify_eq.
Qed.

(** C4. When the bind of a file succeeds, every projected column that
    is not the row id and whose name, compared without case, is a key of
    the partition map of the file has a constant in [constant_map]: the
    raw bytes of the partition string when the declared type is BLOB, and
    otherwise the string cast to the declared type. The column mapping
    then maps no physical column of the file to such a column. *)
Theorem partition_column_is_constant
    (file_options : MultiFileReaderOptions) (filename : string)
    (local_columns global_columns : list MultiFileReaderColumnDefinition)
    (global_column_ids : list ColumnIndex) (reader_data rd : MultiFileReaderData)
    (global_state : option DeltaMultiFileReaderGlobalState) (snapshot : DeltaSnapshot)
    (index : Z) (file_metadata : DeltaFileMetaData)
    (k : nat) (id : ColumnIndex) (col : MultiFileReaderColumnDefinition)
    (partition_val : string) :
  FinalizeBind host base_FinalizeBind file_options filename local_columns global_columns
               global_column_ids reader_data global_state snapshot = Ok rd ->
  file_list_idx rd = Some index ->
  GetMetaData snapshot index = Ok file_metadata ->
  global_column_ids !! k = Some id ->
  IsRowIdColumnId (GetPrimaryIndex id) = false ->
  vec_at global_columns (GetPrimaryIndex id) = Ok col ->
  ci_find (name col) (partition_map file_metadata) = Some partition_val ->
  (exists v, (Z.of_nat k, v) ∈ constant_map rd
             /\ if decide (type col = BLOB) then v = Value_BLOB_RAW partition_val
                else DefaultCastAs host (Value_VARCHAR partition_val) (type col) = Ok v)
  /\ forall rd2,
       CreateColumnMapping local_columns global_columns global_column_ids rd global_state
       = Ok rd2 ->
       Z.of_nat k ∈ column_mapping rd2 -> Z.of_nat k ∈ column_mapping rd.
Proof.
  intros H Hidx Hmd Hk Hrow Hcol Hfind.
  assert (exists v, (Z.of_nat k, v) ∈ constant_map rd
                    /\ partition_constant host (type col) partition_val v) as (v & Hv & Hpc).
  { unfold FinalizeBind in H.
    destruct (base_FinalizeBind _ _ _ _ _ _) as [rd0|]; simpl in H; [|done].
    destruct (option_enabled host "delta_file_number" file_options) as [opt|];
      simpl in H; [|done].
    match type of H with
    | mbind _ ?m = _ => destruct m as [rd1|]; simpl in H; [|done]
    end.
    destruct global_state as [g|]; simpl in H; [|done].
    destruct (file_list_idx rd1) as [index'|] eqn:Hidx1; simpl in H; [|done].
    destruct (GetMetaData snapshot index') as [md'|] eqn:Hmd'; simpl in H; [|done].
    destruct (decide (partition_map md' = ∅)) as [Hempty|Hne].
    - injection H as <-. rewrite Hidx1 in Hidx. injection Hidx as ->.
      rewrite Hmd in Hmd'. injection Hmd' as <-.
      unfold ci_find in Hfind. by rewrite Hempty, lookup_empty in Hfind.
    - apply bind_partitions_spec in H as (Hi & _ & _ & Hhere).
      assert (index' = index) as -> by congruence.
      assert (md' = file_metadata) as -> by congruence.
      destruct (Hhere k id col partition_val Hk Hrow Hcol Hfind) as (v & Hv & Hpc).
      rewrite Z.add_0_l in Hv. eauto. }
  split; [by exists v|].
  intros rd2 Hmap. eapply CreateColumnMapping_adds_no_mapping; [|by apply is_constant_spec; eauto|done].
  by eapply lookup_lt_Some.
Qed.
End PartitionConstants.

(** ** Synthetic columns *)

Section SyntheticColumns.
Context (host : Host).

Lemma ci_find_insert_new {V} (k n : string) (v : V) (m : gmap string V) :
  ci_find n (ci_insert_new k v m)
  = match ci_find n m with
    | Some j => Some j
    | None => if decide (Lower k = Lower n) then Some v else None
    end.
Proof.
  unfold ci_insert_new. destruct (ci_find k m) as [j|] eqn:Hk.
  - destruct (ci_find n m) eqn:Hn; [done|]. case_decide as Heq; [|done].
    unfold ci_find in *. rewrite Heq in Hk. congruence.
  - rewrite ci_find_insert. case_decide as Heq.
    + unfold ci_find in *. rewrite Heq in Hk. by rewrite Hk.
    + by destruct (ci_find n m).
Qed.

Lemma select_columns_spec global_columns ids : forall i0 m sel n,
  select_columns global_columns ids i0 m = Ok sel ->
  ci_find n sel = match ci_find n m with
                  | Some j => Some j
                  | None => projected_index global_columns n ids i0
                  end.
Proof.
  induction ids as [|id ids IH]; intros i0 m sel n H; simpl in H.
  { injection H as <-. simpl. by destruct (ci_find n m). }
  cbn [projected_index].
  destruct (IsRowIdColumnId (GetPrimaryIndex id)); [by apply IH|].
  destruct (vec_at global_columns (GetPrimaryIndex id)) as [col|]; simpl in H; [|done].
  rewrite (IH _ _ _ n H), ci_find_insert_new.
  destruct (ci_find n m); [done|]. by case_decide.
Qed.

Lemma projected_index_Some global_columns column ids : forall i0 i,
  projected_index global_columns column ids i0 = Some i ->
  exists k id col,
    i = i0 + Z.of_nat k /\ ids !! k = Some id
    /\ IsRowIdColumnId (GetPrimaryIndex id) = false
    /\ vec_at global_columns (GetPrimaryIndex id) = Ok col
    /\ Lower (name col) = Lower column.
Proof.
  induction ids as [|id ids IH]; intros i0 i H; simpl in H; [done|].
  assert (projected_index global_columns column ids (i0 + 1) = Some i ->
          exists k id' col,
            i = i0 + Z.of_nat k /\ (id :: ids) !! k = Some id'
            /\ IsRowIdColumnId (GetPrimaryIndex id') = false
            /\ vec_at global_columns (GetPrimaryIndex id') = Ok col
            /\ Lower (name col) = Lower column) as Hnext.
  { intros Hn. apply IH in Hn as (k & id' & col & -> & ? & ? & ? & ?).
    exists (S k), id', col. split_and!; try done. lia. }
  destruct (IsRowIdColumnId (GetPrimaryIndex id)) eqn:Hrow; [by apply Hnext|].
  destruct (vec_at global_columns (GetPrimaryIndex id)) as [col|] eqn:Hcol; [|by apply Hnext].
  case_decide; [|by apply Hnext]. simplify_eq.
  exists O, id, col. split_and!; try done. lia.
Qed.

Lemma projected_index_None global_columns column ids : forall i0,
  projected_index global_columns column ids i0 = None ->
  forall k id col,
    ids !! k = Some id -> IsRowIdColumnId (GetPrimaryIndex id) = false ->
    vec_at global_columns (GetPrimaryIndex id) = Ok col ->
    Lower (name col) <> Lower column.
Proof.
  induction ids as [|id ids IH]; intros i0 H k id' col Hk Hrow Hcol; [done|].
  simpl in H. destruct k as [|k]; simpl in Hk.
  - simplify_eq. rewrite Hrow, Hcol in H. by case_decide.
  - destruct (IsRowIdColumnId (GetPrimaryIndex id)); [by eapply IH|].
    destruct (vec_at global_columns (GetPrimaryIndex id)); [|by eapply IH].
    case_decide; [done|]. by eapply IH.
Qed.

End SyntheticColumns.

(** ** The model at work on the small table *)

Ltac by_computation := apply (bool_decide_unpack _); vm_compute; exact I.

Lemma DuckSVFromDeltaSV_keeps_exactly_witness :
  exists sv select_count,
    DuckSVFromDeltaSV (fun _ => 0) {| ptr := Some demo_bits |} demo_row_ids 10
    = (sv, select_count)
    /\ take select_count sv = [0; 1; 3; 4; 6; 7; 8; 9]
    /\ select_count = 8%nat.
Proof.
  destruct (DuckSVFromDeltaSV (fun _ => 0) {| ptr := Some demo_bits |} demo_row_ids 10)
    as [sv select_count] eqn:Hrun.
  exists sv, select_count. split; [reflexivity|].
  assert (Z.of_nat 10 <= 2 ^ 32) as Hcount by (vm_compute; discriminate).
  assert (forall i, (i < 10)%nat -> 0 <= row_id_at demo_row_ids i < 2 ^ 63) as Hord.
  { intros i Hi.
    do 10 (destruct i as [|i]; [vm_compute; split; [intros ?; discriminate | reflexivity]|]).
    exfalso. lia. }
  destruct (DuckSVFromDeltaSV_keeps_exactly _ _ _ _ _ _ Hcount Hord Hrun) as (Ht & Hn & _).
  split; [exact Ht | exact Hn].
Defined.

Lemma exhaustion_is_stable_witness :
  exists w1 s1,
    GetFile (demo_host demo_scan) demo_world demo_snapshot 5 = Ok ("", w1, s1)
    /\ files_exhausted s1 = true
    /\ run_calls (demo_host demo_scan)
                 [call_GetFile 1; call_GetTotalFileCount; call_GetFile 9] w1 s1 = Ok (w1, s1)
    /\ GetFile (demo_host demo_scan) w1 s1 7 = Ok ("", w1, s1).
Proof.
  destruct (GetFile (demo_host demo_scan) demo_world demo_snapshot 5)
    as [[[p w1] s1]|] eqn:Hrun; [|by vm_compute in Hrun].
  pose proof Hrun as Hnf. vm_compute in Hnf. injection Hnf as <- <- <-.
  eexists _, _. split; [exact Hrun|].
  match type of Hrun with
  | _ = Ok (_, _, ?s1) =>
      assert (resolved_files s1 !! 5%nat = None \/ "" ∉ resolved_files s1) as Hfiles
        by (left; reflexivity)
  end.
  destruct (exhaustion_is_stable _ _ _ _ _ _ Hrun Hfiles) as [Hx Hall].
  split; [exact Hx|]. apply Hall. lia.
Defined.

Lemma GetCardinality_by_cases_witness :
  exists w' s',
    GetCardinality (demo_host demo_scan) demo_world demo_snapshot
    = Ok (Some {| estimated_cardinality := 15; max_cardinality := 15 |}, w', s')
    /\ GetTotalFileCount (demo_host demo_scan) demo_world demo_snapshot = Ok (3%nat, w', s')
    /\ files_exhausted s' = true.
Proof.
  destruct (GetCardinality (demo_host demo_scan) demo_world demo_snapshot)
    as [[[r w'] s']|] eqn:Hrun; [|by vm_compute in Hrun].
  pose proof Hrun as Hnf. vm_compute in Hnf. injection Hnf as <- <- <-.
  eexists _, _. split; [exact Hrun|].
  destruct (GetCardinality_by_cases _ _ _ _ _ _ Hrun) as (Hcount & Hx & _).
  split; [exact Hcount|]. apply Hx. by_computation.
Defined.

Lemma partition_column_is_constant_witness :
  exists rd,
    FinalizeBind (demo_host demo_scan) demo_base_FinalizeBind demo_options "part-0.parquet"
                 demo_local_columns demo_global_columns demo_global_column_ids
                 demo_reader_data (Some demo_global_state) demo_discovered.2 = Ok rd
    /\ (0, Value_VARCHAR "us") ∈ constant_map rd.
Proof.
  destruct (FinalizeBind (demo_host demo_scan) demo_base_FinalizeBind demo_options
              "part-0.parquet" demo_local_columns demo_global_columns
              demo_global_column_ids demo_reader_data (Some demo_global_state)
              demo_discovered.2) as [rd|] eqn:Hrun; [|by vm_compute in Hrun].
  exists rd. split; [reflexivity|].
  destruct (GetMetaData demo_discovered.2 0) as [md|] eqn:Hmd; [|by vm_compute in Hmd].
  assert (file_list_idx rd = Some 0) as Hidx.
  { pose proof Hrun as Hnf. vm_compute in Hnf. by injection Hnf as <-. }
  assert (ci_find "Region" (partition_map md) = Some "us") as Hfind.
  { pose proof Hmd as Hnf. vm_compute in Hnf. injection Hnf as <-. by vm_compute. }
  destruct (partition_column_is_constant (demo_host demo_scan) demo_base_FinalizeBind
              _ _ _ _ _ _ _ _ _ 0 md 0%nat 1 {| name := "Region"; type := VARCHAR |} "us"
              Hrun Hidx Hmd eq_refl eq_refl eq_refl Hfind) as [(v & Hv & Hcast) _].
  vm_compute in Hcast. by injection Hcast as <-.
Defined.

Lemma missing_column_is_null_constant_witness :
  exists rd',
    CustomMulfiFileNameMapping demo_local_columns demo_global_columns
                               demo_global_column_ids demo_reader_data = Ok rd'
    /\ (2, Value_NULL DOUBLE) ∈ constant_map rd'
    /\ (2 ∈ column_mapping rd' -> False).
Proof.
  destruct (missing_column_is_null_constant demo_local_columns demo_global_columns
              demo_global_column_ids demo_reader_data) as (rd' & Hrun & Hcols).
  { intros k id Hk _.
    do 3 (destruct k as [|k]; [injection Hk as <-; vm_compute; split;
                                [intros ?; discriminate | reflexivity]|]).
    discriminate Hk. }
  exists rd'. split; [exact Hrun|].
  destruct (Hcols 2%nat 2 {| name := "extra"; type := DOUBLE |} eq_refl eq_refl eq_refl)
    as (Hin & _ & Hmap).
  { intros c Hc Heq.
    apply elem_of_cons in Hc as [-> | Hc]; [by vm_compute in Heq|].
    apply elem_of_cons in Hc as [-> | Hc]; [by vm_compute in Heq|].
    by apply elem_of_nil in Hc. }
  split; [exact Hin|]. intros H2. apply Hmap in H2. by apply elem_of_nil in H2.
Defined.

Lemma ComplexFilterPushdown_fork_shares_snapshot_witness :
  exists fork w' s' info' a,
    ComplexFilterPushdown (demo_host demo_scan) (demo_context true) demo_bound.1 demo_bound.2
                          demo_info [Expression_of " > 1"] = Ok (Some fork, w', s', info')
    /\ snapshot demo_bound.2 = Some a
    /\ snapshot fork = Some a
    /\ snapshots_opened w' = snapshots_opened demo_bound.1.
Proof.
  destruct (ComplexFilterPushdown (demo_host demo_scan) (demo_context true) demo_bound.1
              demo_bound.2 demo_info [Expression_of " > 1"])
    as [[[[[fork|] w'] s'] info']|] eqn:Hrun;
    [|by vm_compute in Hrun|by vm_compute in Hrun].
  assert (snapshot demo_bound.2 = Some O) as Ha by (by vm_compute).
  exists fork, w', s', info', O. split; [reflexivity|]. split; [exact Ha|].
  destruct (ComplexFilterPushdown_fork_shares_snapshot _ _ _ _ _ _ _ _ _ _ _ Ha Hrun)
    as ([Hfork _] & _ & _ & Hopened & _).
  split; [exact Hfork | exact Hopened].
Defined.


Lemma file_store_stays_consistent_witness :
  exists w s,
    run_calls (demo_host demo_scan) [call_GetFile 0; call_GetTotalFileCount]
              demo_world demo_snapshot = Ok (w, s)
    /\ length (resolved_files s) = length (metadata s)
    /\ forall i md, metadata s !! i = Some md ->
                    file_number md = Z.of_nat i /\ delta_snapshot_version md = version s.
Proof.
  destruct (run_calls (demo_host demo_scan) [call_GetFile 0; call_GetTotalFileCount]
              demo_world demo_snapshot) as [[w s]|] eqn:Hrun; [|by vm_compute in Hrun].
  exists w, s. split; [reflexivity|].
  assert (unstarted demo_snapshot) as Hun by (repeat split; reflexivity).
  destruct (file_store_stays_consistent _ _ _ _ _ _ Hun Hrun) as [Hstore _].
  exact Hstore.
Defined.

Lemma GetFile_returns_decoded_path_witness :
  exists w s w' s' f,
    run_calls (demo_host demo_scan) [call_GetFile 0] demo_world demo_snapshot = Ok (w, s)
    /\ GetFile (demo_host demo_scan) w s 1
       = Ok ("/data/tbl/region=eu/part-1.parquet", w', s')
    /\ "/data/tbl/region=eu/part-1.parquet"
       = ToDuckDBPath (url_decode (indet_ii (demo_host demo_scan))
                         (RTrim_slash (GetPath demo_snapshot) +:+ ("/" +:+ sf_path f))).
Proof.
  destruct (run_calls (demo_host demo_scan) [call_GetFile 0] demo_world demo_snapshot)
    as [[w s]|] eqn:Hrun; [|by vm_compute in Hrun].
  destruct (GetFile (demo_host demo_scan) w s 1) as [[[p w'] s']|] eqn:Hget.
  2:{ pose proof Hrun as Hnf. vm_compute in Hnf. injection Hnf as <- <-.
      by vm_compute in Hget. }
  assert (p = "/data/tbl/region=eu/part-1.parquet") as ->.
  { pose proof Hrun as Hnf. vm_compute in Hnf. injection Hnf as <- <-.
    vm_compute in Hget. by injection Hget as <- _ _. }
  assert (unstarted demo_snapshot) as Hun by (repeat split; reflexivity).
  destruct (GetFile_returns_decoded_path _ _ _ _ _ _ _ _ _ _ Hun Hrun Hget)
    as (k & it0 & batches & f & _ & _ & _ & Hp & _); [done|].
  exists w, s, w', s', f. split; [reflexivity|]. split; [exact Hget|]. exact Hp.
Defined.

(** * Further properties of the file list *)

Section FileListFurther.
Context (host : Host).

(** X1. [GetFile] is idempotent: asked again for the same index, right
    after an answer, it gives the same answer and changes neither the list
    nor the world, so no kernel entry point is called the second time. *)
Theorem GetFile_again_same (w : World) (s : DeltaSnapshot) (i : nat) (p : string)
    (w1 : World) (s1 : DeltaSnapshot) :
  GetFile host w s i = Ok (p, w1, s1) ->
  GetFile host w1 s1 i = Ok (p, w1, s1).
Proof.
  unfold GetFile. intros H.
  apply GetFileInternal_result in H as (Hsnap & Hscan & Hres).
  unfold GetFileInternal. rewrite ensure_initialized_started by done. simpl.
  destruct Hres as [-> | (-> & -> & ->)]; done.
Qed.

Lemma prefix_keeps_init w s w1 s1 (files : list string) (mds : list DeltaFileMetaData) :
  files `prefix_of` resolved_files s /\ mds `prefix_of` metadata s ->
  ensure_initialized host w s = Ok (w1, s1) ->
  files `prefix_of` resolved_files s1 /\ mds `prefix_of` metadata s1.
Proof.
  intros [Hf Hm] H.
  apply ensure_initialized_spec in H as (_ & _ & -> & -> & _). done.
Qed.

Lemma prefix_keeps_pull i w s p w' s' (files : list string) (mds : list DeltaFileMetaData) :
  files `prefix_of` resolved_files s /\ mds `prefix_of` metadata s ->
  initialized_scan s = true ->
  pulled host i (scan_data_iterator s) w s p w' s' ->
  files `prefix_of` resolved_files s' /\ mds `prefix_of` metadata s'.
Proof.
  intros [Hf Hm] _ (batches & mds' & it' & exh & k & _ & -> & _). simpl.
  split; by apply prefix_app_r.
Qed.

(** X2. Discovery only appends: through any run of [GetFile],
    [GetAllFiles] and [GetTotalFileCount], a file known at an ordinal stays
    at that ordinal with the same path and the same metadata. *)
Theorem known_files_stay (cs : list file_list_call) (w : World) (s : DeltaSnapshot)
    (w' : World) (s' : DeltaSnapshot) :
  run_calls host cs w s = Ok (w', s') ->
  resolved_files s `prefix_of` resolved_files s'
  /\ metadata s `prefix_of` metadata s'
  /\ forall j, (j < length (resolved_files s))%nat ->
               resolved_files s' !! j = resolved_files s !! j.
Proof.
  intros H.
  assert (resolved_files s `prefix_of` resolved_files s'
          /\ metadata s `prefix_of` metadata s') as [Hf Hm].
  { eapply (run_calls_keeps host
              (fun t => resolved_files s `prefix_of` resolved_files t
                        /\ metadata s `prefix_of` metadata t)); [| | |exact H].
    - intros; by eapply prefix_keeps_init.
    - intros; by eapply prefix_keeps_pull.
    - done. }
  split_and!; try done. intros j Hj.
  destruct (lookup_lt_is_Some_2 _ _ Hj) as [f Hlook]. rewrite Hlook.
  by eapply prefix_lookup_Some.
Qed.

(** The answers a run of the pulling loop consumes are all needed:
    before each of them file [i] was not yet known. *)
Lemma pull_until_needed i it : forall w s p w' s',
  pull_until host i it w s = Ok (p, w', s') ->
  exists batches,
    it = (Ok <$> batches) ++ scan_data_iterator s'
    /\ resolved_files s'
       = resolved_files s
         ++ ((fun f => resolve_path host (paths0 s) (sf_path f)) <$> concat batches)
    /\ (forall n, (n < length batches)%nat ->
                  (length (resolved_files s) + length (concat (take n batches)) <= i)%nat)
    /\ (length (calls w) + length batches <= length (calls w')
        <= length (calls w) + S (length batches))%nat.
Proof.
  induction it as [|a it IH]; intros w s p w' s' H; simpl in H.
  - exists []. destruct (resolved_files s !! i); injection H as <- <- <-; simpl;
      rewrite app_nil_r; split_and!; try done; try lia; intros n Hn; simpl in Hn; lia.
  - destruct (resolved_files s !! i) as [file|] eqn:Hi.
    + injection H as <- <- <-. exists []. simpl. rewrite app_nil_r.
      split_and!; try done; try lia; intros n Hn; simpl in Hn; lia.
    + destruct a as [batch|e]; [|done].
      destruct (VisitData host s batch) as [s1|e] eqn:Hv; simpl in H; [|done].
      apply VisitData_spec in Hv as (mds1 & -> & _ & _).
      apply IH in H as (batches & Hit & Hfiles & Hneed & Hcalls). simpl in *.
      exists (batch :: batches). split_and!.
      * by rewrite Hit.
      * rewrite Hfiles. cbn [concat]. by rewrite fmap_app, app_assoc.
      * intros [|n] Hn; simpl.
        -- apply lookup_ge_None_1 in Hi. lia.
        -- assert (n < length batches)%nat as Hn' by (simpl in Hn; lia).
           specialize (Hneed n Hn'). rewrite List.length_app, length_fmap in Hneed.
           rewrite List.length_app, Nat.add_assoc. exact Hneed.
      * simpl. lia.
      * simpl. lia.
Qed.

(** X3. [GetFile] is lazy. In a list whose scan is running, a file that
    is already known is returned as it is, the list and the world
    unchanged; and when file [i] has to be discovered, the scan data
    iterator is advanced no further than needed: before each answer that
    was consumed, file [i] was still unknown, and [kernel_scan_data_next] is
    called once per answer consumed, and once more only to see the end. *)
Theorem GetFile_pulls_only_what_it_needs (w : World) (s : DeltaSnapshot) (i : nat)
    (p : string) (w' : World) (s' : DeltaSnapshot) :
  initialized_snapshot s = true -> initialized_scan s = true ->
  GetFile host w s i = Ok (p, w', s') ->
  ((i < length (resolved_files s))%nat -> w' = w /\ s' = s /\ resolved_files s !! i = Some p)
  /\ exists batches,
       scan_data_iterator s = (Ok <$> batches) ++ scan_data_iterator s'
       /\ resolved_files s'
          = resolved_files s
            ++ ((fun f => resolve_path host (paths0 s) (sf_path f)) <$> concat batches)
       /\ (forall n, (n < length batches)%nat ->
                     (length (resolved_files s) + length (concat (take n batches)) <= i)%nat)
       /\ (length (calls w) + length batches <= length (calls w')
           <= length (calls w) + S (length batches))%nat.
Proof.
  unfold GetFile, GetFileInternal. intros Hsnap Hscan H.
  rewrite ensure_initialized_started in H by done. simpl in H.
  destruct (resolved_files s !! i) as [file|] eqn:Hi.
  - injection H as <- <- <-. split; [done|]. exists []. simpl. rewrite app_nil_r.
    split_and!; try done; try lia; intros n Hn; simpl in Hn; lia.
  - split; [intros Hlt; apply lookup_ge_None_1 in Hi; lia|].
    destruct (files_exhausted s).
    + injection H as <- <- <-. exists []. simpl. rewrite app_nil_r.
      split_and!; try done; try lia; intros n Hn; simpl in Hn; lia.
    + apply pull_until_needed in H as (batches & ? & ? & ? & ?).
      exists batches. split_and!; try done; lia.
Qed.
End FileListFurther.

Section FileListEnd.
Context (host : Host).

Lemma expand_from_started fuel : forall w s i w' s',
  expand_from host fuel w s i = Some (Ok (w', s')) ->
  initialized_snapshot s' = true /\ initialized_scan s' = true.
Proof.
  induction fuel as [|fuel IH]; intros w s i w' s' H; simpl in H; [done|].
  destruct (GetFileInternal host w s i) as [[[file w1] s1]|] eqn:Hg; [|done].
  apply GetFileInternal_result in Hg as (? & ? & _).
  destruct (String.eqb file ""); [by simplify_eq | by eapply IH].
Qed.

Lemma expand_started w s i w' s' :
  expand host w s i = Ok (w', s') ->
  initialized_snapshot s' = true /\ initialized_scan s' = true.
Proof.
  intros H. destruct (expand_reaches_end host w s i) as [fuel Hf].
  rewrite H in Hf. by eapply expand_from_started.
Qed.

Lemma exhausted_inv_init w s w1 s1 :
  exhausted_inv s -> ensure_initialized host w s = Ok (w1, s1) -> exhausted_inv s1.
Proof.
  intros [Hno Hend] H.
  apply ensure_initialized_spec in H
    as (_ & Hscan & _ & _ & Hx & _ & _ & _ & Hkeep & _).
  split; [congruence|]. rewrite Hx. intros Hex.
  destruct (initialized_scan s) eqn:Hs.
  - destruct Hkeep as [_ ->]; [done|]. by apply Hend.
  - rewrite Hno in Hex; done.
Qed.

Lemma exhausted_inv_pull i w s p w' s' :
  exhausted_inv s -> initialized_scan s = true ->
  pulled host i (scan_data_iterator s) w s p w' s' -> exhausted_inv s'.
Proof.
  intros [Hno Hend] Hscan (batches & mds & it' & exh & k & Hit & -> & _ & _ & _ & Hres).
  split; simpl; [congruence|]. intros ->.
  destruct Hres as [(_ & Hx & _) | (_ & _ & -> & _)]; [|done].
  rewrite Hend in Hit by done. symmetry in Hit. by apply app_eq_nil in Hit as [_ ->].
Qed.

(** X4. When [GetAllFiles] succeeds on a list whose discovery has not
    begun, and no file has the empty path, every answer of the kernel scan
    was a success and the result is the list of all the files of all its
    answers, in order, each resolved against the root; the list is then
    exhausted and [GetTotalFileCount] gives their number without changing
    anything. *)
Theorem GetAllFiles_lists_every_file (w : World) (s : DeltaSnapshot)
    (files : list string) (w' : World) (s' : DeltaSnapshot) :
  unstarted s ->
  GetAllFiles host w s = Ok (files, w', s') ->
  "" ∉ files ->
  exists (k : KernelSnapshot) (batches : list (list ScanFile)),
    kernel_scan host k (names s) (table_filters s) = Ok (Ok <$> batches)
    /\ files = (fun f => resolve_path host (GetPath s) (sf_path f)) <$> concat batches
    /\ files_exhausted s' = true
    /\ GetTotalFileCount host w' s' = Ok (length (concat batches), w', s').
Proof.
  unfold GetAllFiles. intros Hun H Hfiles.
  destruct (expand host w s (length (resolved_files s))) as [[w1 s1]|] eqn:He;
    simpl in H; [|done].
  injection H as <- <- <-.
  pose proof (expand_started _ _ _ _ _ He) as [Hsnap Hscan].
  pose proof (expand_exhausts host _ _ _ _ _ He Hfiles) as Hx.
  assert (exhausted_inv s1) as [_ Hend].
  { eapply (expand_keeps host exhausted_inv); [| | |exact He].
    - apply exhausted_inv_init.
    - apply exhausted_inv_pull.
    - destruct Hun as (? & _ & _ & ?). split; [done | congruence]. }
  assert (scan_inv host s s1) as (Hp & _ & _ & _ & Hsome).
  { eapply (expand_keeps host (scan_inv host s)); [| | |exact He].
    - apply scan_inv_init.
    - apply scan_inv_pull.
    - by apply unstarted_scan_inv. }
  destruct (Hsome Hscan) as (k & it0 & batches & Hk & Hit0 & Hres).
  rewrite Hend, app_nil_r in Hit0 by done. subst it0.
  exists k, batches. split_and!; try done.
  - unfold GetPath. by rewrite <- Hp.
  - unfold GetTotalFileCount. rewrite exhausted_expand by done. simpl.
    by rewrite Hres, length_fmap.
Qed.

Lemma VisitData_total batch : forall s,
  selection_vectors_ok batch ->
  exists s', VisitData host s batch = Ok s'.
Proof.
  induction batch as [|f batch IH]; intros s Hok; [by eexists|].
  apply Forall_cons in Hok as [[sv Hsv] Hok]. simpl.
  unfold VisitCallback. rewrite Hsv. simpl. by apply IH.
Qed.

Lemma pull_until_error i e rest batches : forall w s,
  selection_vectors_ok (concat batches) ->
  (length (resolved_files s) + length (concat batches) <= i)%nat ->
  pull_until host i ((Ok <$> batches) ++ Err e :: rest) w s = Err e.
Proof.
  induction batches as [|batch batches IH]; intros w s Hok Hlen; simpl in *.
  - by rewrite lookup_ge_None_2 by lia.
  - rewrite List.length_app in Hlen. rewrite lookup_ge_None_2 by lia.
    apply Forall_app in Hok as [Hok1 Hok2].
    destruct (VisitData_total batch s Hok1) as [s1 Hv]. rewrite Hv. simpl.
    apply VisitData_spec in Hv as (mds & -> & _). apply IH; [done|]. simpl.
    rewrite List.length_app, length_fmap. lia.
Qed.

(** X5. A failure of the kernel aborts discovery: when the scan data
    iterator fails before file [i] is known (the answers before the failure
    do not reach ordinal [i]), [GetFile i] raises that error. *)
Theorem GetFile_raises_kernel_error (w : World) (s : DeltaSnapshot) (i : nat)
    (batches : list (list ScanFile)) (e : exception) (rest : KernelScanDataIterator) :
  initialized_snapshot s = true -> initialized_scan s = true ->
  files_exhausted s = false ->
  scan_data_iterator s = (Ok <$> batches) ++ Err e :: rest ->
  selection_vectors_ok (concat batches) ->
  (length (resolved_files s) + length (concat batches) <= i)%nat ->
  GetFile host w s i = Err e.
Proof.
  intros Hsnap Hscan Hx Hit Hok Hlen. unfold GetFile, GetFileInternal.
  rewrite ensure_initialized_started by done. simpl.
  rewrite lookup_ge_None_2 by lia. rewrite Hx, Hit. by apply pull_until_error.
Qed.

(** X6. Once a list has answered a first [GetFile], its version is that
    of the kernel snapshot behind its handle. *)
Theorem GetVersion_is_snapshot_version (w : World) (s : DeltaSnapshot) (i : nat)
    (p : string) (w' : World) (s' : DeltaSnapshot) :
  initialized_scan s = false ->
  GetFile host w s i = Ok (p, w', s') ->
  exists a c,
    snapshot s' = Some a /\ shared w' !! a = Some c
    /\ GetVersion s' = ks_version (kernel_snapshot c).
Proof.
  unfold GetFile. intros Hscan H.
  apply GetFileInternal_spec in H as (w1 & s1 & Hinit & Hcases).
  assert (exists a c, snapshot s1 = Some a /\ shared w1 !! a = Some c
                      /\ version s1 = ks_version (kernel_snapshot c)) as (a & c & Ha & Hc & Hv).
  { unfold ensure_initialized in Hinit.
    assert (forall wa sa, initialized_scan sa = false ->
              InitializeScan host wa sa = Ok (w1, s1) ->
              exists a c, snapshot s1 = Some a /\ shared w1 !! a = Some c
                          /\ version s1 = ks_version (kernel_snapshot c)) as Hgo.
    { intros wa sa _ Hi. unfold InitializeScan, GetLockingRef in Hi.
      destruct (snapshot sa) as [a|] eqn:Ha; simpl in Hi; [|done].
      destruct (shared wa !! a) as [c|] eqn:Hc; simpl in Hi; [|done].
      destruct (kernel_scan host _ _ _); simpl in Hi; [|done].
      injection Hi as <- <-. exists a, c. simpl. done. }
    destruct (initialized_snapshot s); simpl in Hinit.
    - rewrite Hscan in Hinit. by eapply Hgo.
    - destruct (InitializeSnapshot host w s) as [[w2 s2]|] eqn:Hi; simpl in Hinit; [|done].
      apply InitializeSnapshot_spec in Hi as (_ & Hsc & _).
      rewrite Hsc, Hscan in Hinit. eapply Hgo; [|done]. congruence. }
  unfold GetVersion.
  destruct Hcases as [(_ & -> & ->) | [(_ & _ & _ & -> & ->) | (_ & _ & Hp)]]; eauto.
  pose proof (pulled_started host _ _ _ _ _ _ _ Hp) as (_ & _ & _ & _ & _ & Hsn & Hsh & _).
  destruct Hp as (? & ? & ? & ? & ? & _ & -> & _).
  exists a, c. rewrite Hsn, Hsh. done.
Qed.

(** X7. [Bind] caches the schema. After a first successful call the
    names and types it returned are those the list holds, and a second
    call, whatever vectors it is given, returns them again and changes
    neither the list nor the world; binding does not begin discovery. On a
    list not yet bound the schema appended is that of the kernel snapshot
    behind the handle. *)
Theorem Bind_caches_schema (w : World) (s : DeltaSnapshot)
    (return_types : list LogicalType) (names_p : list string)
    (tys : list LogicalType) (nms : list string) (w1 : World) (s1 : DeltaSnapshot) :
  Bind host w s return_types names_p = Ok (tys, nms, w1, s1) ->
  (tys = types s1 /\ nms = names s1 /\ have_bound s1 = true)
  /\ (forall return_types' names_p',
        Bind host w1 s1 return_types' names_p' = Ok (tys, nms, w1, s1))
  /\ (unstarted s -> unstarted s1)
  /\ (have_bound s = false ->
      exists a c,
        snapshot s1 = Some a /\ shared w1 !! a = Some c
        /\ nms = names_p ++ (ks_schema (kernel_snapshot c)).*1
        /\ tys = return_types ++ (ks_schema (kernel_snapshot c)).*2).
Proof.
  unfold Bind. intros H.
  destruct (have_bound s) eqn:Hb.
  - injection H as <- <- <- <-. rewrite Hb. split_and!; done.
  - destruct (if initialized_snapshot s then Ok (w, s) else InitializeSnapshot host w s)
      as [[w2 s2]|] eqn:Hi; simpl in H; [|done].
    assert (resolved_files s2 = resolved_files s /\ metadata s2 = metadata s
            /\ initialized_scan s2 = initialized_scan s
            /\ files_exhausted s2 = files_exhausted s) as (Hf & Hm & Hsc & Hx).
    { destruct (initialized_snapshot s); [by simplify_eq|].
      apply InitializeSnapshot_spec in Hi as (_ & ? & _ & _ & ? & ? & ? & _). done. }
    unfold GetLockingRef in H.
    destruct (snapshot s2) as [a|] eqn:Ha; simpl in H; [|done].
    destruct (shared w2 !! a) as [c|] eqn:Hc; simpl in H; [|done].
    injection H as <- <- <- <-. simpl. split_and!; try done.
    + intros (? & ? & ? & ?). split_and!; simpl; congruence.
    + intros _. by exists a, c.
Qed.
End FileListEnd.

(** ** Diagnostics of the filter pushdown *)

Section PushdownDiagnostics.
Context (host : Host).

(** X8. With profiling on and the setting enabled, a pushdown with
    filters counts the files of the parent and of the fork. It raises an
    internal error exactly when the pushdown info already records a total
    below the parent's count or a filtered count below the fork's count;
    otherwise it returns the expanded fork and records the counts: the
    total recorded first is kept, the filtered count is replaced by the
    fork's, and the rendering of the filters is set only when the two
    counts differ. *)
Theorem ComplexFilterPushdown_records_file_counts (context : ClientContext) (w : World)
    (s : DeltaSnapshot) (info : MultiFilePushdownInfo) (e : Expression)
    (filters : list Expression) (result : Value)
    (old_total : nat) (w1 : World) (s1 : DeltaSnapshot)
    (new_total : nat) (w2 : World) (fork : DeltaSnapshot) :
  profiler_IsEnabled context = true ->
  delta_scan_explain_files_filtered context = Some result ->
  GetValue_bool host result = Ok true ->
  GetTotalFileCount host (copy_shared_ptr (snapshot s) w) s = Ok (old_total, w1, s1) ->
  GetTotalFileCount host w1
    (make_filtered_list host s
       (GenerateTableScanFilters host (rev (e :: filters)) (column_indexes info)))
  = Ok (new_total, w2, fork) ->
  (counts_inconsistent (extra_info info) old_total new_total = true ->
   ComplexFilterPushdown host context w s info (e :: filters) = Err InternalException)
  /\ (counts_inconsistent (extra_info info) old_total new_total = false ->
      exists info',
        ComplexFilterPushdown host context w s info (e :: filters)
        = Ok (Some fork, w2, s1, info')
        /\ column_indexes info' = column_indexes info
        /\ total_files (extra_info info')
           = Some (default (Z.of_nat old_total) (total_files (extra_info info)))
        /\ filtered_files (extra_info info') = Some (Z.of_nat new_total)
        /\ file_filters (extra_info info')
           = if (old_total =? new_total)%nat then file_filters (extra_info info)
             else render_filters host (names s1) (table_filters fork)).
Proof.
  intros Hprof Hset Hval Hold Hnew. unfold ComplexFilterPushdown, counts_inconsistent.
  rewrite Hprof, Hset. simpl in *. rewrite Hval. simpl. rewrite Hold. simpl.
  rewrite Hnew. simpl.
  destruct info as [cols [ff tf fl]]. simpl.
  destruct (old_total =? new_total)%nat; simpl;
    destruct tf as [t|]; simpl;
    try (destruct (t <? Z.of_nat old_total) eqn:Ht; simpl);
    destruct fl as [f|]; simpl;
    try (destruct (f <? Z.of_nat new_total) eqn:Hf; simpl;
         [replace (Z.of_nat new_total <=? f) with false by lia
         |replace (Z.of_nat new_total <=? f) with true by lia]);
    simpl; (split; [intros ?; done | intros ?; try done; eexists; split_and!; done]).
Qed.
End PushdownDiagnostics.

(** ** Paths *)

Lemma last_char_app_slash s : last_char (s +:+ "/") = Some "/"%char.
Proof.
  induction s as [|c s IH]; [done|]. simpl.
  destruct (s +:+ "/") eqn:Hs; [by destruct s|]. done.
Qed.

Lemma with_slash_cases q :
  (last_char q = Some "/"%char
   /\ match last_char q with Some "/"%char => q | _ => q +:+ "/" end = q)
  \/ (last_char q <> Some "/"%char
      /\ match last_char q with Some "/"%char => q | _ => q +:+ "/" end = q +:+ "/").
Proof.
  destruct (last_char q) as [c|]; [|by right].
  destruct (Ascii.eqb_spec c "/"%char) as [->|Hne]; [by left|]. right.
  split; [congruence|].
  destruct c as [[] [] [] [] [] [] [] []]; first [done | by destruct Hne].
Qed.

(** X9. On a path that is not empty, [ToDeltaPath] gives a path that
    ends with a slash, and, except on the path [.] (which becomes [./] and
    is not made absolute), it leaves its own results unchanged. *)
Theorem ToDeltaPath_ends_with_slash (cwd_join : string -> string) (raw_path : string) :
  raw_path <> "" ->
  last_char (ToDeltaPath cwd_join raw_path) = Some "/"%char
  /\ (raw_path <> "." ->
      ToDeltaPath cwd_join (ToDeltaPath cwd_join raw_path) = ToDeltaPath cwd_join raw_path).
Proof.
  intros _.
  assert (forall p, last_char (match last_char p with
                               | Some "/"%char => p
                               | _ => p +:+ "/"
                               end) = Some "/"%char) as Hlast.
  { intros p. destruct (with_slash_cases p) as [[Hc ->] | [_ ->]];
      [done | apply last_char_app_slash]. }
  split; [apply Hlast|]. intros Hdot.
  set (r := ToDeltaPath cwd_join raw_path).
  assert (last_char r = Some "/"%char) as Hr by apply Hlast.
  assert (StartsWith r "./" = false) as Hstart.
  { subst r. unfold ToDeltaPath.
    destruct (StartsWith raw_path "./") eqn:Hs.
    - destruct (with_slash_cases ("file://" +:+ cwd_join (string_drop 2 raw_path)))
        as [[_ ->] | [_ ->]]; reflexivity.
    - destruct (with_slash_cases raw_path) as [[_ ->] | [Hc ->]]; [done|].
      destruct raw_path as [|c1 [|c2 r']]; [done| |].
      + unfold StartsWith.
        change (String.prefix "./" (String c1 "" +:+ "/"))
          with (if ascii_dec "." c1
                then (if ascii_dec "/" "/" then true else false) else false).
        destruct (ascii_dec "." c1) as [<-|]; [by destruct Hdot | done].
      + unfold StartsWith in *.
        change (String.prefix "./" (String c1 (String c2 r') +:+ "/"))
          with (if ascii_dec "." c1
                then (if ascii_dec "/" c2 then String.prefix "" (r' +:+ "/") else false)
                else false).
        change (String.prefix "./" (String c1 (String c2 r')))
          with (if ascii_dec "." c1
                then (if ascii_dec "/" c2 then String.prefix "" r' else false)
                else false) in Hs.
        destruct (ascii_dec "." c1); [|done].
        destruct (ascii_dec "/" c2); [|done]. by destruct r'. }
  unfold ToDeltaPath at 1. fold r. by rewrite Hstart, Hr.
Qed.

(** ** More on URL decoding *)

Lemma url_decode_loop_length indet (n : nat) :
  forall s, (String.length s <= n)%nat ->
            (String.length (url_decode_loop indet s) <= String.length s)%nat.
Proof.
  induction n as [|n IH]; intros [|c r] Hlen; simpl in *; try lia.
  destruct (code c =? 37).
  - destruct r as [|a [|b r']]; simpl in *; try lia.
    specialize (IH r'). lia.
  - simpl. specialize (IH r). lia.
Qed.

Lemma string_map_length f s : String.length (string_map f s) = String.length s.
Proof. induction s; simpl; congruence. Qed.

Lemma url_decode_loop_clean indet s :
  no_escape_chars s = true -> url_decode_loop indet (string_map plus_to_space s) = s.
Proof.
  induction s as [|c r IH]; [done|]. simpl. intros H.
  apply andb_true_iff in H as [H Hr]. apply andb_true_iff in H as [H37 H43].
  apply negb_true_iff in H37, H43.
  rewrite plus_to_space_other by lia. rewrite H37. f_equal. by apply IH.
Qed.

(** X10. [url_decode] never makes a string longer, and it leaves a
    string without percent and plus signs as it is. *)
Theorem url_decode_shortens (indet : string -> Z) (input : string) :
  (String.length (url_decode indet input) <= String.length input)%nat
  /\ (no_escape_chars input = true -> url_decode indet input = input).
Proof.
  split.
  - unfold url_decode.
    etrans; [apply (url_decode_loop_length indet (String.length (string_map plus_to_space input)));
             lia|].
    by rewrite string_map_length.
  - apply url_decode_loop_clean.
Qed.

(** ** Resolution of clean paths *)

Lemma string_app_cons c s t : String c s +:+ t = String c (s +:+ t).
Proof. reflexivity. Qed.

Lemma string_app_nil_l t : "" +:+ t = t.
Proof. reflexivity. Qed.

Lemma string_app_nil_r s : s +:+ "" = s.
Proof. induction s as [|c s IH]; [done | by rewrite string_app_cons, IH]. Qed.

Lemma string_app_assoc a b c : (a +:+ b) +:+ c = a +:+ (b +:+ c).
Proof. induction a as [|x a IH]; [done | by rewrite !string_app_cons, IH]. Qed.

Lemma string_rev_onto_app a b acc :
  string_rev_onto (a +:+ b) acc = string_rev_onto b (string_rev_onto a acc).
Proof.
  revert acc. induction a as [|c a IH]; intros acc; [done|].
  rewrite string_app_cons. simpl. apply IH.
Qed.

Lemma slashes_shift n t : slashes n +:+ String "/"%char t = String "/"%char (slashes n +:+ t).
Proof.
  induction n as [|n IH]; [done|].
  cbn [slashes]. by rewrite !string_app_cons, IH.
Qed.

Lemma string_rev_onto_slashes n acc : string_rev_onto (slashes n) acc = slashes n +:+ acc.
Proof.
  revert acc. induction n as [|n IH]; intros acc; [done|].
  cbn [slashes string_rev_onto]. by rewrite IH, slashes_shift, string_app_cons.
Qed.

Lemma drop_leading_slashes n t : drop_leading "/"%char (slashes n +:+ t) = drop_leading "/"%char t.
Proof.
  induction n as [|n IH]; [done|].
  cbn [slashes]. rewrite string_app_cons. simpl. exact IH.
Qed.

Lemma string_rev_onto_head s : forall acc,
  s <> "" -> exists c t, last_char s = Some c /\ string_rev_onto s acc = String c t.
Proof.
  induction s as [|a r IH]; intros acc Hne; [done|].
  destruct r as [|b r'].
  - exists a, acc. done.
  - destruct (IH (String a acc)) as (c & t & Hc & Hr); [done|].
    exists c, t. split; [exact Hc | exact Hr].
Qed.

Lemma string_rev_onto_twice s : forall a b,
  string_rev_onto (string_rev_onto s a) b = string_rev_onto a (s +:+ b).
Proof.
  induction s as [|c r IH]; intros a b; [done|].
  rewrite string_app_cons. simpl. by rewrite IH.
Qed.

Lemma string_rev_involutive s : string_rev (string_rev s) = s.
Proof. unfold string_rev. rewrite string_rev_onto_twice. simpl. apply string_app_nil_r. Qed.

Lemma RTrim_slash_trailing base n :
  last_char base <> Some "/"%char -> RTrim_slash (base +:+ slashes n) = base.
Proof.
  intros Hlast. unfold RTrim_slash, string_rev at 2.
  rewrite string_rev_onto_app, string_rev_onto_slashes, drop_leading_slashes.
  fold (string_rev base).
  replace (drop_leading "/"%char (string_rev base)) with (string_rev base);
    [apply string_rev_involutive|].
  destruct base as [|a r]; [done|].
  destruct (string_rev_onto_head (String a r) "") as (c & t & Hc & Hr); [done|].
  unfold string_rev. rewrite Hr. simpl.
  destruct (Ascii.eqb_spec c "/"%char) as [->|]; [by destruct Hlast | done].
Qed.

Lemma ToDuckDBPath_file x : ToDuckDBPath ("file://" +:+ x) = x.
Proof. unfold ToDuckDBPath, StartsWith. by destruct x. Qed.

(** X11. The files of a table resolve under its root whatever the number
    of slashes the root ends with: when neither the root nor the supplied
    path has a percent or plus sign, the resolved path is the root without
    its trailing slashes, a slash and the supplied path, stripped of a
    leading [file://]; a root [file://b] gives [b/path]. *)
Theorem clean_paths_resolve_under_root (host : Host) (base : string) (n : nat)
    (path : string) :
  last_char base <> Some "/"%char ->
  no_escape_chars (base +:+ ("/" +:+ path)) = true ->
  resolve_path host (base +:+ slashes n) path = ToDuckDBPath (base +:+ ("/" +:+ path))
  /\ forall b, base = "file://" +:+ b ->
               resolve_path host (base +:+ slashes n) path = b +:+ ("/" +:+ path).
Proof.
  intros Hlast Hclean.
  assert (resolve_path host (base +:+ slashes n) path
          = ToDuckDBPath (base +:+ ("/" +:+ path))) as Hres.
  { unfold resolve_path. rewrite RTrim_slash_trailing by done.
    f_equal. by apply url_decode_shortens. }
  split; [exact Hres|]. intros b ->. rewrite Hres.
  rewrite string_app_assoc. apply ToDuckDBPath_file.
Qed.

(** ** The engine builder: strings *)

Lemma prefix_nil_r p : String.prefix p "" = Builder.empty p.
Proof. by destruct p. Qed.

Lemma prefix_cons a p b s :
  String.prefix (String a p) (String b s) = (if Ascii.ascii_dec a b then String.prefix p s else false).
Proof. reflexivity. Qed.

Lemma prefix_nil_l s : String.prefix "" s = true.
Proof. by destruct s. Qed.

Lemma prefix_app p x : String.prefix p (p +:+ x) = true.
Proof.
  induction p as [|a p IH]; [apply prefix_nil_l|].
  rewrite string_app_cons, prefix_cons. by destruct (Ascii.ascii_dec a a).
Qed.

Lemma prefix_app_long q x y :
  (String.length q <= String.length x)%nat ->
  String.prefix q (x +:+ y) = String.prefix q x.
Proof.
  revert x. induction q as [|a q IH]; intros x Hlen.
  - by rewrite !prefix_nil_l.
  - destruct x as [|b x]; [simpl in Hlen; lia|].
    rewrite string_app_cons, !prefix_cons. destruct (Ascii.ascii_dec a b); [|done].
    apply IH. simpl in Hlen. lia.
Qed.

Lemma prefix_length p s :
  String.prefix p s = true -> (String.length p <= String.length s)%nat.
Proof.
  revert s. induction p as [|a p IH]; intros s H; [simpl; lia|].
  destruct s as [|b s]; [done|]. rewrite prefix_cons in H.
  destruct (Ascii.ascii_dec a b); [|done]. apply IH in H. simpl. lia.
Qed.

Lemma string_length_app a b :
  String.length (a +:+ b) = (String.length a + String.length b)%nat.
Proof. induction a as [|c a IH]; [done|]. rewrite string_app_cons. simpl. by rewrite IH. Qed.

Lemma string_drop_app a t : string_drop (String.length a) (a +:+ t) = t.
Proof. induction a as [|c a IH]; [done|]. rewrite string_app_cons. simpl. exact IH. Qed.

Lemma string_drop_length n s :
  String.length (string_drop n s) = (String.length s - n)%nat.
Proof.
  revert s. induction n as [|n IH]; intros [|c s]; simpl; try lia. apply IH.
Qed.

Lemma string_take_app a t :
  Builder.string_take (Z.of_nat (String.length a)) (a +:+ t) = a.
Proof.
  induction a as [|c a IH].
  - by destruct t.
  - rewrite string_app_cons. cbn [Builder.string_take String.length].
    destruct (Z.leb_spec (Z.of_nat (S (String.length a))) 0); [lia|].
    replace (Z.of_nat (S (String.length a)) - 1) with (Z.of_nat (String.length a)) by lia.
    by rewrite IH.
Qed.

Lemma string_take_all n s :
  Z.of_nat (String.length s) <= n -> Builder.string_take n s = s.
Proof.
  revert n. induction s as [|c s IH]; intros n Hn; [done|].
  cbn [Builder.string_take]. simpl in Hn.
  destruct (Z.leb_spec n 0); [lia|]. rewrite IH; [done | lia].
Qed.

Lemma index_of_lt c s k :
  Builder.index_of c s = Some k -> (k < String.length s)%nat.
Proof.
  revert k. induction s as [|d s IH]; intros k H; [done|]. simpl in *.
  destruct (Ascii.eqb d c); [injection H as <-; lia|].
  destruct (Builder.index_of c s) as [j|]; [|done].
  injection H as <-. specialize (IH j eq_refl). lia.
Qed.

Lemma index_of_app c a t :
  Builder.index_of c a = None ->
  Builder.index_of c (a +:+ String c t) = Some (String.length a).
Proof.
  induction a as [|d a IH]; intros H.
  - simpl. change ("" +:+ String c t) with (String c t). simpl.
    by rewrite Ascii.eqb_refl.
  - rewrite string_app_cons. simpl in *.
    destruct (Ascii.eqb d c); [done|].
    destruct (Builder.index_of c a); [done|]. by rewrite IH.
Qed.

Lemma index_of_take c s k n :
  Builder.index_of c s = Some k -> n <= Z.of_nat k ->
  Builder.index_of c (Builder.string_take n s) = None.
Proof.
  revert k n. induction s as [|d s IH]; intros k n H Hn; [done|].
  cbn [Builder.string_take]. destruct (Z.leb_spec n 0); [done|].
  simpl in *. destruct (Ascii.eqb d c); [injection H as <-; lia|].
  destruct (Builder.index_of c s) as [j|] eqn:Hj; [|done].
  injection H as <-. rewrite (IH j (n - 1)); [done | done | lia].
Qed.

Lemma find_lt s c pos k :
  Builder.find s c pos = Some k -> (pos <= k < String.length s)%nat.
Proof.
  unfold Builder.find. destruct (Builder.index_of c (string_drop pos s)) as [j|] eqn:Hj; [|done].
  intros [= <-]. apply index_of_lt in Hj. rewrite string_drop_length in Hj. lia.
Qed.

Lemma find_app p a c t :
  Builder.index_of c a = None ->
  Builder.find (p +:+ (a +:+ String c t)) c (String.length p)
  = Some (String.length p + String.length a)%nat.
Proof.
  intros H. unfold Builder.find. by rewrite string_drop_app, index_of_app.
Qed.

Lemma substr_in_range s pos n :
  (pos <= String.length s)%nat ->
  Builder.substr s pos n = Builder.Ok (Builder.string_take n (string_drop pos s)).
Proof.
  intros H. unfold Builder.substr. by destruct (Nat.leb_spec pos (String.length s)); [|lia].
Qed.

(** ** The engine builder: the two parsers *)

Lemma ParseAccountNameFromEndpoint_lemma (endpoint : string) :
  exists name, Builder.ParseAccountNameFromEndpoint endpoint = Builder.Ok name.
Proof.
  unfold Builder.ParseAccountNameFromEndpoint.
  destruct (StartsWith endpoint "https://"); simpl; [|by exists ""].
  destruct (Builder.find endpoint "."%char 8) as [r|] eqn:Hr; [|by exists ""].
  apply find_lt in Hr. rewrite substr_in_range by lia. by eexists.
Qed.

(** X12. [ParseAccountNameFromEndpoint] never throws; its result holds no
    dot, and it is empty for an endpoint that does not start with
    [https://]. *)
Theorem ParseAccountNameFromEndpoint_total (endpoint : string) :
  exists name,
    Builder.ParseAccountNameFromEndpoint endpoint = Builder.Ok name
    /\ Builder.index_of "."%char name = None
    /\ (StartsWith endpoint "https://" = false -> name = "").
Proof.
  unfold Builder.ParseAccountNameFromEndpoint.
  destruct (StartsWith endpoint "https://") eqn:Hs; simpl; [|by exists ""].
  destruct (Builder.find endpoint "."%char 8) as [r|] eqn:Hr; [|by exists ""].
  pose proof (find_lt _ _ _ _ Hr) as Hlt.
  rewrite substr_in_range by lia. eexists. split; [done|]. split; [|done].
  unfold Builder.find in Hr.
  destruct (Builder.index_of "."%char (string_drop 8 endpoint)) as [j|] eqn:Hj; [|done].
  injection Hr as <-. apply (index_of_take _ _ j); [done|].
  unfold idx_wrap. etransitivity; [apply Z.mod_le; lia | lia].
Qed.

(** X13. For an endpoint [https://name.rest], [name] without a dot, the
    account name is [name]. *)
Theorem ParseAccountNameFromEndpoint_finds_name (name rest : string) :
  Builder.index_of "."%char name = None ->
  Z.of_nat (String.length name) < 2 ^ 64 ->
  Builder.ParseAccountNameFromEndpoint ("https://" +:+ (name +:+ String "."%char rest))
  = Builder.Ok name.
Proof.
  intros Hname Hlen. unfold Builder.ParseAccountNameFromEndpoint, StartsWith.
  rewrite prefix_app. simpl negb. cbv iota.
  change 8%nat with (String.length "https://").
  rewrite find_app by done.
  rewrite substr_in_range.
  2:{ rewrite string_length_app. apply Nat.le_add_r. }
  rewrite string_drop_app. f_equal.
  change (String.length "https://") with 8%nat.
  replace (idx_wrap _) with (Z.of_nat (String.length name)).
  - apply string_take_app.
  - unfold idx_wrap. rewrite Z.mod_small; lia.
Qed.

Lemma ParseAccountNameFromEndpoint_finds_name_witness :
  Builder.ParseAccountNameFromEndpoint "https://myaccount.blob.core.windows.net"
  = Builder.Ok "myaccount".
Proof.
  apply (ParseAccountNameFromEndpoint_finds_name "myaccount" "blob.core.windows.net").
  - reflexivity.
  - vm_compute. reflexivity.
Defined.

Lemma value_run_clean s : Builder.index_of ";"%char (Builder.value_run s) = None.
Proof.
  induction s as [|c s IH]; [done|]. simpl.
  destruct (Ascii.eqb c ";"%char) eqn:Hc; [done|]. simpl. by rewrite Hc, IH.
Qed.

Lemma value_run_prefix s : String.prefix (Builder.value_run s) s = true.
Proof.
  induction s as [|c s IH]; [done|]. cbn [Builder.value_run].
  destruct (Ascii.eqb c ";"%char); [done|]. rewrite prefix_cons.
  by destruct (Ascii.ascii_dec c c).
Qed.

Lemma value_run_app v rest :
  Builder.index_of ";"%char v = None ->
  rest = "" \/ StartsWith rest ";" = true ->
  Builder.value_run (v +:+ rest) = v.
Proof.
  intros Hv Hrest. induction v as [|c v IH].
  - change ("" +:+ rest) with rest. destruct Hrest as [->|Hrest]; [done|].
    destruct rest as [|d rest]; [done|]. unfold StartsWith in Hrest.
    rewrite prefix_cons in Hrest. destruct (Ascii.ascii_dec ";"%char d) as [<-|]; done.
  - rewrite string_app_cons. simpl in *.
    destruct (Ascii.eqb c ";"%char); [done|].
    destruct (Builder.index_of ";"%char v); [done|]. by rewrite IH.
Qed.

Lemma prefix_drop p s :
  String.prefix p s = true -> s = p +:+ string_drop (String.length p) s.
Proof.
  revert s. induction p as [|a p IH]; intros s H; [done|].
  destruct s as [|b s]; [done|]. rewrite prefix_cons in H.
  destruct (Ascii.ascii_dec a b) as [<-|]; [|done].
  rewrite string_app_cons. simpl. f_equal. by apply IH.
Qed.

Lemma prefix_app_both p a b : String.prefix (p +:+ a) (p +:+ b) = String.prefix a b.
Proof.
  induction p as [|c p IH]; [done|].
  rewrite !string_app_cons, prefix_cons. by destruct (Ascii.ascii_dec c c).
Qed.

Lemma regex_search_unfold key s :
  Builder.regex_search key s
  = match Builder.match_here key s with
    | Some v => Some v
    | None =>
        match s with
        | EmptyString => None
        | String _ r => Builder.regex_search key r
        end
    end.
Proof. by destruct s. Qed.

Lemma contains_unfold s sub :
  Builder.contains s sub
  = String.prefix sub s
    || match s with
       | EmptyString => false
       | String _ r => Builder.contains r sub
       end.
Proof. by destruct s. Qed.

Lemma match_here_Some key s v :
  Builder.match_here key s = Some v ->
  v <> "" /\ Builder.index_of ";"%char v = None
  /\ String.prefix ((key +:+ "=") +:+ v) s = true.
Proof.
  unfold Builder.match_here.
  destruct (String.prefix (key +:+ "=") s) eqn:Hp; [|done].
  pose proof (value_run_clean (string_drop (String.length (key +:+ "=")) s)) as Hclean.
  pose proof (value_run_prefix (string_drop (String.length (key +:+ "=")) s)) as Hpre.
  destruct (Builder.value_run _) as [|c v'] eqn:Hv; [done|].
  intros [= <-]. split; [done|]. split; [done|].
  rewrite (prefix_drop _ _ Hp) at 1. by rewrite prefix_app_both.
Qed.

Lemma regex_search_Some key s v :
  Builder.regex_search key s = Some v ->
  v <> "" /\ Builder.index_of ";"%char v = None
  /\ Builder.contains s ((key +:+ "=") +:+ v) = true.
Proof.
  induction s as [|c s IH]; rewrite regex_search_unfold, contains_unfold.
  - destruct (Builder.match_here key "") eqn:Hm; [|done].
    intros [= ->]. apply match_here_Some in Hm as (? & ? & ->). done.
  - destruct (Builder.match_here key (String c s)) eqn:Hm.
    + intros [= ->]. apply match_here_Some in Hm as (? & ? & ->). done.
    + intros H. apply IH in H as (? & ? & ->). split_and!; [done..|].
      apply orb_true_r.
Qed.

Lemma regex_search_absent key s :
  Builder.contains s (key +:+ "=") = false -> Builder.regex_search key s = None.
Proof.
  induction s as [|c s IH]; rewrite regex_search_unfold, contains_unfold;
    intros H; apply orb_false_iff in H as [Hp Hr];
    unfold Builder.match_here; rewrite Hp; [done | by apply IH].
Qed.

(** X14. For a key of letters and digits, the value
    [parseFromConnectionString] returns holds no semicolon; when it is not
    empty, [key=value] occurs in the connection string; and it is empty
    when [key=] does not occur. *)
Theorem parseFromConnectionString_result (connectionString key : string) :
  Builder.literal_key key = true ->
  let value := Builder.parseFromConnectionString connectionString key in
  Builder.index_of ";"%char value = None
  /\ (value <> "" -> Builder.contains connectionString ((key +:+ "=") +:+ value) = true)
  /\ (Builder.contains connectionString (key +:+ "=") = false -> value = "").
Proof.
  intros _. unfold Builder.parseFromConnectionString. simpl.
  destruct (Builder.regex_search key connectionString) as [v|] eqn:Hs; simpl.
  - pose proof (regex_search_Some _ _ _ Hs) as (Hne & Hclean & Hin).
    split_and!; [done | done |].
    intros Habs. apply regex_search_absent in Habs. congruence.
  - done.
Qed.

(** X15. For a key of letters and digits, the first occurrence of
    [key=] decides, wherever it stands: for a connection string
    [pre key=value rest] with no [key=] inside [pre key], a non-empty value
    without semicolon and [rest] empty or starting with a semicolon, the
    result is [value]. *)
Theorem parseFromConnectionString_value (pre key value rest : string) :
  Builder.literal_key key = true ->
  Builder.contains (pre +:+ key) (key +:+ "=") = false ->
  value <> "" ->
  Builder.index_of ";"%char value = None ->
  rest = "" \/ StartsWith rest ";" = true ->
  Builder.parseFromConnectionString (pre +:+ ((key +:+ "=") +:+ (value +:+ rest))) key
  = value.
Proof.
  intros _ Hpre Hne Hclean Hrest. unfold Builder.parseFromConnectionString.
  assert (Builder.regex_search key (pre +:+ ((key +:+ "=") +:+ (value +:+ rest)))
          = Some value) as ->; [|done].
  induction pre as [|c pre IH]; rewrite regex_search_unfold.
  - change ("" +:+ ?x) with x. unfold Builder.match_here.
    rewrite prefix_app, string_drop_app, value_run_app by done.
    by destruct value.
  - rewrite string_app_cons in Hpre. rewrite contains_unfold in Hpre.
    apply orb_false_iff in Hpre as [Hp Hr].
    rewrite string_app_cons.
    assert (Builder.match_here key
              (String c (pre +:+ ((key +:+ "=") +:+ (value +:+ rest)))) = None) as ->.
    { unfold Builder.match_here.
      replace (String c (pre +:+ ((key +:+ "=") +:+ (value +:+ rest))))
        with (String c (pre +:+ key) +:+ ("=" +:+ (value +:+ rest))).
      - rewrite prefix_app_long, Hp; [done|].
        simpl. rewrite !string_length_app. simpl. lia.
      - rewrite string_app_cons. f_equal. by rewrite !string_app_assoc. }
    by apply IH.
Qed.

Lemma parseFromConnectionString_value_witness :
  Builder.parseFromConnectionString
    "DefaultEndpointsProtocol=https;MyAccountKey=k1;AccountKey=k2" "AccountKey"
  = "k1".
Proof.
  apply (parseFromConnectionString_value
           "DefaultEndpointsProtocol=https;My" "AccountKey" "k1" ";AccountKey=k2").
  - vm_compute. reflexivity.
  - vm_compute. reflexivity.
  - discriminate.
  - vm_compute. reflexivity.
  - right. vm_compute. reflexivity.
Defined.

(** ** The engine builder: [CreateBuilder] *)

Lemma string_drop_drop n m s : string_drop n (string_drop m s) = string_drop (m + n) s.
Proof.
  revert s. induction m as [|m IH]; intros s; [done|].
  destruct s as [|c s]; simpl; [by destruct n | apply IH].
Qed.

Lemma index_of_drop c n s :
  Builder.index_of c s = None -> Builder.index_of c (string_drop n s) = None.
Proof.
  revert s. induction n as [|n IH]; intros [|d s] H; try done. simpl in *.
  destruct (Ascii.eqb d c); [done|]. apply IH.
  by destruct (Builder.index_of c s).
Qed.

Lemma find_None_mono s c p q :
  Builder.find s c p = None -> (p <= q)%nat -> Builder.find s c q = None.
Proof.
  unfold Builder.find. intros H Hpq.
  destruct (Builder.index_of c (string_drop p s)) eqn:Hp; [done|].
  replace q with (p + (q - p))%nat by lia.
  rewrite <- string_drop_drop. by rewrite (index_of_drop _ _ _ Hp).
Qed.

Lemma split_container_Ok path f p e :
  Builder.find path "/"%char f = Some e -> (p <= S f)%nat ->
  Builder.split_container path f p
  = Builder.Ok (Builder.string_take (idx_wrap (Z.of_nat e - Z.of_nat p)) (string_drop p path),
                Builder.string_take Builder.npos (string_drop e path)).
Proof.
  intros Hf Hp. unfold Builder.split_container. rewrite Hf.
  apply find_lt in Hf. by rewrite !substr_in_range by lia.
Qed.

Lemma split_container_Err path f p e :
  (p <= S f)%nat -> Builder.split_container path f p = Builder.Err e ->
  e = Builder.IOException /\ Builder.find path "/"%char f = None.
Proof.
  intros Hp. destruct (Builder.find path "/"%char f) as [k|] eqn:Hf.
  - by rewrite (split_container_Ok _ _ _ _ Hf Hp).
  - unfold Builder.split_container. rewrite Hf. by intros [= <-].
Qed.

Lemma parse_url_Err path e :
  Builder.parse_url path = Builder.Err e ->
  e = Builder.IOException /\ Builder.find path "/"%char 8 = None.
Proof.
  unfold Builder.parse_url.
  repeat match goal with
  | |- context [if ?b then _ else _] => destruct b
  end; try done;
  match goal with
  | |- context [Builder.split_container path ?f ?p] =>
      destruct (Builder.split_container path f p) as [[b q]|e'] eqn:Hs; [done|];
      apply split_container_Err in Hs as [-> Hf]; [|lia];
      simpl; intros [= <-]; split; [done|];
      apply (find_None_mono _ _ _ _ Hf); lia
  end.
Qed.

Lemma clean_path_total path :
  exists cleaned,
    Builder.clean_path path = Builder.Ok cleaned
    /\ (gcs_like path = false -> cleaned = path).
Proof.
  unfold Builder.clean_path, gcs_like.
  destruct (StartsWith path "r2://") eqn:H1.
  { apply prefix_length in H1. simpl in H1. rewrite substr_in_range by lia.
    simpl. eexists. split; [reflexivity|]. done. }
  destruct (StartsWith path "gs://") eqn:H2.
  { apply prefix_length in H2. simpl in H2. rewrite substr_in_range by lia.
    simpl. eexists. split; [reflexivity|]. done. }
  destruct (StartsWith path "gcs://") eqn:H3.
  { apply prefix_length in H3. simpl in H3. rewrite !substr_in_range by lia.
    simpl. eexists. split; [reflexivity|]. done. }
  by exists path.
Qed.

Lemma is_regular_path_gcs_like path :
  Builder.is_regular_path path = true -> gcs_like path = false.
Proof.
  unfold Builder.is_regular_path, gcs_like.
  destruct (StartsWith path "r2://"), (StartsWith path "gs://"),
    (StartsWith path "gcs://"), (StartsWith path "s3://"); done.
Qed.

Lemma empty_true s : Builder.empty s = true -> s = "".
Proof. by destruct s. Qed.

Lemma empty_false s : Builder.empty s = false -> s <> "".
Proof. by destruct s. Qed.

Lemma azure_authentication_Err secret e :
  Builder.azure_authentication secret = Builder.Err e ->
  e = Builder.InvalidInputException
  /\ Builder.GetProvider secret = "access_token"
  /\ Builder.TryGetSecretKey secret "access_token" "" = "".
Proof.
  unfold Builder.azure_authentication.
  destruct (String.eqb (Builder.GetProvider secret) "access_token") eqn:Hp.
  - apply String.eqb_eq in Hp.
    destruct (Builder.empty _) eqn:He; [|done].
    apply empty_true in He. intros [= <-]. done.
  - destruct (String.eqb _ "credential_chain"); [done|].
    destruct (_ && _); [|by destruct (String.eqb _ "service_principal")].
    destruct (_ && _); [done|].
    set (endpoint := Builder.parseFromConnectionString _ "BlobEndpoint").
    destruct (ParseAccountNameFromEndpoint_lemma endpoint) as (n & Hn).
    rewrite Hn.
    match goal with |- context [if ?b then _ else _] => by destruct b end.
Qed.

(** X16. The exceptions of [CreateBuilder] and what each one tells: an
    [IOException] only for a URL of an object store without a slash after
    its scheme, a kernel error only when [get_engine_builder] refuses the
    cleaned path, [NotImplementedException] only for a [gs://], [gcs://]
    or [r2://] path without secret, [InvalidInputException] only for an
    Azure secret of provider [access_token] without token; [substr] never
    throws. *)
Theorem CreateBuilder_errors (engine_builder_ok : string -> bool)
    (LookupSecret : string -> string -> option Builder.KeyValueSecret)
    (path : string) (e : Builder.exception) :
  Builder.CreateBuilder engine_builder_ok LookupSecret path = Builder.Err e ->
  match e with
  | Builder.IOException =>
      Builder.is_regular_path path = false /\ Builder.find path "/"%char 8 = None
  | Builder.KernelException =>
      exists cleaned,
        Builder.clean_path path = Builder.Ok cleaned /\ engine_builder_ok cleaned = false
  | Builder.NotImplementedException =>
      gcs_like path = true /\ exists secret_type, LookupSecret path secret_type = None
  | Builder.InvalidInputException =>
      exists secret,
        LookupSecret path "azure" = Some secret
        /\ Builder.GetProvider secret = "access_token"
        /\ Builder.TryGetSecretKey secret "access_token" "" = ""
  | Builder.out_of_range => False
  end.
Proof.
  unfold Builder.CreateBuilder, Builder.new_builder.
  destruct (Builder.is_regular_path path) eqn:Hreg.
  { destruct (engine_builder_ok path) eqn:Hok; [done|]. intros [= <-].
    destruct (clean_path_total path) as (cleaned & Hc & Hsame).
    rewrite Hsame in Hc by by apply is_regular_path_gcs_like. by exists path. }
  destruct (Builder.parse_url path) as [[[bucket path_in_bucket] secret_type]|e'] eqn:Hurl.
  2:{ apply parse_url_Err in Hurl as [-> Hfind]. simpl. by intros [= <-]. }
  destruct (clean_path_total path) as (cleaned & Hc & _). rewrite Hc. simpl.
  destruct (engine_builder_ok cleaned) eqn:Hok; simpl.
  2:{ intros [= <-]. by exists cleaned. }
  destruct (LookupSecret path secret_type) as [secret|] eqn:Hsecret.
  - destruct (_ || _); [done|].
    destruct (String.eqb secret_type "azure") eqn:Haz; [|done].
    apply String.eqb_eq in Haz as ->.
    unfold Builder.azure_options.
    destruct (Builder.azure_authentication secret) as [[[a n] ep]|e'] eqn:Hauth; [done|].
    apply azure_authentication_Err in Hauth as (-> & Hp & Ht).
    simpl. intros [= <-]. by exists secret.
  - fold (gcs_like path). destruct (gcs_like path); [|done].
    intros [= <-]. split; [done|]. by exists secret_type.
Qed.

Lemma CreateBuilder_errors_witness :
  Builder.is_regular_path "s3://bucket" = false
  /\ Builder.find "s3://bucket" "/"%char 8 = None.
Proof.
  apply (CreateBuilder_errors (fun _ => true) (fun _ _ => None) "s3://bucket"
           Builder.IOException).
  vm_compute. reflexivity.
Defined.

(** *** The options *)

Ltac option_list :=
  repeat first [apply List.Forall_nil | apply List.Forall_cons | apply Forall_app; split].

Ltac option_ok :=
  split;
  [exact I
  |cbn [has_value]; intros Hv;
   first [discriminate Hv | by left | by right | by vm_compute in Hv]].

Lemma Forall_when (P : Builder.builder_call -> Prop) b l :
  Forall P l -> Forall P (Builder.when b l).
Proof. destruct b; [done | constructor]. Qed.

Lemma when_value_ok key value :
  Forall (fun c => is_option c /\ has_value c)
    (Builder.when (negb (Builder.empty value)) [Builder.set_builder_option key value]).
Proof. destruct value; option_list; option_ok. Qed.

Lemma flag_ok key :
  is_option (Builder.set_builder_option key "true")
  /\ has_value (Builder.set_builder_option key "true").
Proof. option_ok. Qed.

Lemma s3_credentials_ok secret :
  Forall (fun c => is_option c /\ has_value c) (Builder.s3_credentials secret).
Proof.
  unfold Builder.s3_credentials. option_list; try apply when_value_ok.
  apply Forall_when. option_list. apply flag_ok.
Qed.

Lemma s3_endpoint_ok path secret :
  Forall (fun c => is_option c /\ has_value c) (Builder.s3_endpoint path secret).
Proof.
  unfold Builder.s3_endpoint.
  destruct (Builder.TryGetSecretKey secret "endpoint" "") as [|c endpoint];
    cbn [Builder.empty negb andb].
  - destruct (_ || _); option_list. option_ok.
  - destruct (negb (String.eqb _ _)).
    + option_list; [apply Forall_when; option_list; apply flag_ok|].
      destruct (_ && _); [destruct (Builder.TryGetSecretKey_bool _ _ _)|]; option_ok.
    + destruct (_ || _); option_list. option_ok.
Qed.

Lemma s3_options_ok path secret :
  Forall (fun c => is_option c /\ has_value c) (Builder.s3_options path secret).
Proof.
  unfold Builder.s3_options.
  apply Forall_app; split; [apply s3_credentials_ok|].
  apply Forall_app; split; [apply s3_endpoint_ok|].
  option_list. option_ok.
Qed.

Lemma azure_authentication_ok secret authentication account_name endpoint :
  Builder.azure_authentication secret
  = Builder.Ok (authentication, account_name, endpoint) ->
  Forall (fun c => is_option c /\ has_value c) authentication.
Proof.
  unfold Builder.azure_authentication.
  destruct (String.eqb (Builder.GetProvider secret) "access_token").
  { destruct (Builder.TryGetSecretKey secret "access_token" "") as [|c t]; [done|].
    intros [= <- <- <-]. option_list. option_ok. }
  destruct (String.eqb _ "credential_chain").
  { intros [= <- <- <-]. apply Forall_when. option_list. apply flag_ok. }
  destruct (_ && _).
  - destruct (Builder.parseFromConnectionString _ "AccountName") as [|c n];
      cbn [Builder.empty negb andb].
    + destruct (ParseAccountNameFromEndpoint_lemma
                  (Builder.parseFromConnectionString
                     (Builder.TryGetSecretKey secret "connection_string" "")
                     "BlobEndpoint")) as (n & ->).
      simpl. intros [= <- <- <-]. apply when_value_ok.
    + destruct (Builder.parseFromConnectionString _ "AccountKey") as [|d k];
        cbn [Builder.empty negb andb].
      * simpl. intros [= <- <- <-]. apply when_value_ok.
      * intros [= <- <- <-]. option_list. option_ok.
  - destruct (String.eqb _ "service_principal"); intros [= <- <- <-].
    + option_list; apply when_value_ok.
    + option_list. apply flag_ok.
Qed.

Lemma azure_options_ok secret bucket options :
  Builder.azure_options secret bucket = Builder.Ok options ->
  Forall (fun c => is_option c /\ has_value c) options
  /\ last options = Some (Builder.set_builder_option "container_name" bucket).
Proof.
  unfold Builder.azure_options.
  destruct (Builder.azure_authentication secret) as [[[a n] ep]|e] eqn:Hauth; [|done].
  simpl. intros [= <-]. split.
  - option_list; try apply when_value_ok; try (apply Forall_when; option_list; apply flag_ok).
    + by apply (azure_authentication_ok _ _ _ _ Hauth).
    + option_ok.
  - by rewrite !app_assoc, last_snoc.
Qed.

Lemma CreateBuilder_Ok engine_builder_ok LookupSecret path calls :
  Builder.CreateBuilder engine_builder_ok LookupSecret path = Builder.Ok calls ->
  exists cleaned options,
    Builder.clean_path path = Builder.Ok cleaned
    /\ engine_builder_ok cleaned = true
    /\ calls = Builder.get_engine_builder cleaned :: options
    /\ Forall (fun c => is_option c /\ has_value c) options
    /\ (gcs_like path = false -> cleaned = path)
    /\ (Builder.is_regular_path path = true -> options = [])
    /\ ((forall secret_type, LookupSecret path secret_type = None) ->
        options = [] /\ gcs_like path = false).
Proof.
  unfold Builder.CreateBuilder, Builder.new_builder.
  destruct (clean_path_total path) as (cleaned & Hc & Hsame).
  destruct (Builder.is_regular_path path) eqn:Hreg.
  { pose proof (is_regular_path_gcs_like _ Hreg) as Hgcs.
    destruct (engine_builder_ok path) eqn:Hok; [|done]. intros [= <-].
    exists path, []. rewrite Hsame in Hc by done. split_and!; done. }
  destruct (Builder.parse_url path) as [[[bucket path_in_bucket] secret_type]|e']; [|done].
  rewrite Hc. simpl.
  destruct (engine_builder_ok cleaned) eqn:Hok; [|done]. simpl.
  fold (gcs_like path).
  destruct (LookupSecret path secret_type) as [secret|] eqn:Hsecret.
  - destruct (_ || _).
    { intros [= <-]. exists cleaned, (Builder.s3_options path secret).
      split_and!; try done; [apply s3_options_ok|].
      intros Hnone. by rewrite Hnone in Hsecret. }
    destruct (String.eqb secret_type "azure").
    + destruct (Builder.azure_options secret bucket) as [options|] eqn:Hopt; [|done].
      simpl. intros [= <-]. exists cleaned, options.
      apply azure_options_ok in Hopt as [Hopt _].
      split_and!; try done. intros Hnone. by rewrite Hnone in Hsecret.
    + intros [= <-]. exists cleaned, []. split_and!; try done.
      intros Hnone. by rewrite Hnone in Hsecret.
  - destruct (gcs_like path) eqn:Hgcs; [done|]. intros [= <-].
    exists cleaned, []. split_and!; done.
Qed.

(** X17. What a successful [CreateBuilder] has done: one
    [get_engine_builder], on the cleaned path and accepted by the kernel,
    followed by [set_builder_option] calls only.  The cleaned path is the
    path itself unless the scheme is [gs://], [gcs://] or [r2://]; a local
    path gets no option; and without any secret no option is set and the
    path is none of those three. *)
Theorem CreateBuilder_calls (engine_builder_ok : string -> bool)
    (LookupSecret : string -> string -> option Builder.KeyValueSecret)
    (path : string) (calls : list Builder.builder_call) :
  Builder.CreateBuilder engine_builder_ok LookupSecret path = Builder.Ok calls ->
  exists cleaned options,
    Builder.clean_path path = Builder.Ok cleaned
    /\ engine_builder_ok cleaned = true
    /\ calls = Builder.get_engine_builder cleaned :: options
    /\ Forall is_option options
    /\ (gcs_like path = false -> cleaned = path)
    /\ (Builder.is_regular_path path = true -> options = [])
    /\ ((forall secret_type, LookupSecret path secret_type = None) ->
        options = [] /\ gcs_like path = false).
Proof.
  intros H. apply CreateBuilder_Ok in H
    as (cleaned & options & Hc & Hok & -> & Hopt & Hsame & Hreg & Hnone).
  exists cleaned, options. split_and!; try done.
  eapply Forall_impl; [exact Hopt|]. by intros c [? _].
Qed.

(** X22. Every option [CreateBuilder] sets has a non-empty value, apart
    from [aws_region] and [container_name]. *)
Theorem CreateBuilder_option_values (engine_builder_ok : string -> bool)
    (LookupSecret : string -> string -> option Builder.KeyValueSecret)
    (path : string) (calls : list Builder.builder_call) :
  Builder.CreateBuilder engine_builder_ok LookupSecret path = Builder.Ok calls ->
  forall key value,
    Builder.set_builder_option key value ∈ calls ->
    value = "" -> key = "aws_region" \/ key = "container_name".
Proof.
  intros H key value Hin. apply CreateBuilder_Ok in H
    as (cleaned & options & _ & _ & -> & Hopt & _).
  apply elem_of_cons in Hin as [?|Hin]; [done|].
  rewrite Forall_forall in Hopt. by destruct (Hopt _ Hin) as [_ Hv].
Qed.

(** *** The URL schemes *)

(** Evaluates the scheme tests on a path whose head is known. *)
Ltac eval_StartsWith :=
  repeat match goal with
  | |- context [StartsWith ?s ?q] =>
      let b := eval vm_compute in (StartsWith s q) in
      match b with
      | true => change (StartsWith s q) with true
      | false => change (StartsWith s q) with false
      end
  end.

Lemma find_free p rest c n :
  n = String.length p -> Builder.index_of c rest = None ->
  Builder.find (p +:+ rest) c n = None.
Proof. intros -> H. unfold Builder.find. by rewrite string_drop_app, H. Qed.

Lemma find_container p a t n :
  n = String.length p -> Builder.index_of "/"%char a = None ->
  Builder.find (p +:+ (a +:+ String "/"%char t)) "/"%char n
  = Some (n + String.length a)%nat.
Proof. intros -> H. by apply find_app. Qed.

Lemma string_drop_S_app p c x : string_drop (S (String.length p)) (p +:+ String c x) = x.
Proof. induction p as [|d p IH]; [done|]. rewrite string_app_cons. exact IH. Qed.

(** X18. The cleaned path of a [gs://], [r2://] or [gcs://] URL is the
    same URL under the scheme [s3://]. *)
Theorem clean_path_replaces_scheme (rest : string) :
  Z.of_nat (String.length rest) < 2 ^ 64 ->
  Builder.clean_path ("gs://" +:+ rest) = Builder.Ok ("s3://" +:+ rest)
  /\ Builder.clean_path ("r2://" +:+ rest) = Builder.Ok ("s3://" +:+ rest)
  /\ Builder.clean_path ("gcs://" +:+ rest) = Builder.Ok ("s3://" +:+ rest).
Proof.
  intros Hlen.
  assert (Builder.string_take Builder.npos rest = rest) as Htake.
  { apply string_take_all. unfold Builder.npos. lia. }
  unfold Builder.clean_path.
  split_and!; destruct rest as [|c rest]; eval_StartsWith; cbn [orb];
    (rewrite substr_in_range by (rewrite string_length_app; simpl; lia));
    [change 5%nat with (String.length "gs://") | change 5%nat with (String.length "gs://")
    |change 5%nat with (String.length "r2://") | change 5%nat with (String.length "r2://")
    |change 6%nat with (String.length "gcs://") | change 6%nat with (String.length "gcs://")];
    rewrite string_drop_app, Htake; reflexivity.
Qed.

Lemma clean_path_replaces_scheme_witness :
  Builder.clean_path "gs://bucket/table" = Builder.Ok "s3://bucket/table".
Proof.
  apply (clean_path_replaces_scheme "bucket/table"). vm_compute. reflexivity.
Defined.

(** X19. A URL of an object store without a slash after its scheme is
    refused with an [IOException], whatever the kernel and the secrets. *)
Theorem CreateBuilder_needs_container (engine_builder_ok : string -> bool)
    (LookupSecret : string -> string -> option Builder.KeyValueSecret)
    (scheme rest : string) :
  scheme ∈ schemes ->
  Builder.index_of "/"%char rest = None ->
  Builder.CreateBuilder engine_builder_ok LookupSecret (scheme +:+ rest)
  = Builder.Err Builder.IOException.
Proof.
  intros Hscheme Hrest. unfold schemes in Hscheme.
  unfold Builder.CreateBuilder, Builder.is_regular_path, Builder.parse_url,
    Builder.split_container.
  repeat (apply elem_of_cons in Hscheme as [->|Hscheme]);
    [..|by apply elem_of_nil in Hscheme];
    destruct rest as [|c rest]; eval_StartsWith; cbn [negb andb orb];
    match goal with
    | |- context [Builder.find (?p +:+ ?r) _ ?n] =>
        rewrite (find_free p r "/"%char n) by done
    end; reflexivity.
Qed.

Lemma CreateBuilder_needs_container_witness :
  Builder.CreateBuilder (fun _ => true) (fun _ _ => None) "abfss://container"
  = Builder.Err Builder.IOException.
Proof.
  apply (CreateBuilder_needs_container (fun _ => true) (fun _ _ => None)
           "abfss://" "container").
  - by_computation.
  - vm_compute. reflexivity.
Defined.

(** *** S3 *)

Ltac split_membership :=
  repeat first
    [rewrite elem_of_cons | rewrite elem_of_nil | rewrite elem_of_app].

Lemma s3_credentials_keys secret c :
  c ∈ Builder.s3_credentials secret ->
  option_key c ∈ ["skip_signature"; "aws_access_key_id"; "aws_secret_access_key";
                  "aws_session_token"].
Proof.
  unfold Builder.s3_credentials. intros H.
  repeat (apply elem_of_app in H as [H|H]);
    match type of H with
    | _ ∈ Builder.when ?b _ => destruct b
    end; simpl in H;
    first [by apply elem_of_nil in H | apply list_elem_of_singleton in H as ->];
    simpl; by_computation.
Qed.

Lemma s3_endpoint_keys path secret c :
  c ∈ Builder.s3_endpoint path secret -> option_key c ∈ ["allow_http"; "aws_endpoint"].
Proof.
  unfold Builder.s3_endpoint. intros H.
  destruct (_ && _).
  - apply elem_of_app in H as [H|H].
    + match type of H with
      | _ ∈ Builder.when ?b _ => destruct b
      end; simpl in H; [|by apply elem_of_nil in H].
      apply list_elem_of_singleton in H as ->. simpl. by_computation.
    + apply list_elem_of_singleton in H as ->. simpl. by_computation.
  - destruct (_ || _); [|by apply elem_of_nil in H].
    apply list_elem_of_singleton in H as ->. simpl. by_computation.
Qed.

Lemma s3_credentials_signature secret :
  Builder.set_builder_option "skip_signature" "true" ∈ Builder.s3_credentials secret
  <-> forall v,
        (Builder.set_builder_option "aws_access_key_id" v ∉ Builder.s3_credentials secret)
        /\ (Builder.set_builder_option "aws_secret_access_key" v
            ∉ Builder.s3_credentials secret).
Proof.
  unfold Builder.s3_credentials.
  destruct (Builder.TryGetSecretKey secret "key_id" "") as [|k1 key_id],
    (Builder.TryGetSecretKey secret "secret" "") as [|k2 secret_];
    cbn [Builder.empty negb andb Builder.when app];
    (split;
     [intros Hin v; revert Hin; split_membership;
      intros Hin; split; intros Hx;
      repeat match goal with
             | H : _ \/ _ |- _ => destruct H as [H|H]
             | H : Builder.set_builder_option _ _ = Builder.set_builder_option _ _ |- _ =>
                 discriminate H
             | H : False |- _ => destruct H
             | H : _ ∈ Builder.when ?b _ |- _ =>
                 destruct b; simpl in H;
                 [apply list_elem_of_singleton in H|by apply elem_of_nil in H]
             end
     |intros Hall;
      first
        [by apply list_elem_of_here
        |by (destruct (Hall (String k1 key_id)) as [Ha _]; exfalso; apply Ha;
             apply list_elem_of_here)
        |by (destruct (Hall (String k2 secret_)) as [_ Hs]; exfalso; apply Hs;
             apply list_elem_of_here)]]).
Qed.

Lemma endpoint_with_scheme (use_ssl : bool) (endpoint : string) :
  let endpoint' :=
    if negb (StartsWith endpoint "https://") && negb (StartsWith endpoint "http://") then
      if use_ssl then "https://" +:+ endpoint else "http://" +:+ endpoint
    else endpoint in
  StartsWith endpoint' "https://" = true \/ StartsWith endpoint' "http://" = true.
Proof.
  cbv zeta. unfold StartsWith.
  destruct (String.prefix "https://" endpoint) eqn:Hs; [by left|].
  destruct (String.prefix "http://" endpoint) eqn:Hp; [by right|].
  destruct use_ssl; cbn [negb andb]; [left | right]; apply prefix_app.
Qed.

Lemma s3_endpoint_scheme path secret :
  (forall v, Builder.set_builder_option "aws_endpoint" v ∈ Builder.s3_endpoint path secret ->
             StartsWith v "https://" = true \/ StartsWith v "http://" = true)
  /\ (Builder.set_builder_option "allow_http" "true" ∈ Builder.s3_endpoint path secret
      <-> exists v,
            Builder.set_builder_option "aws_endpoint" v ∈ Builder.s3_endpoint path secret
            /\ StartsWith v "http://" = true).
Proof.
  unfold Builder.s3_endpoint. cbv zeta.
  pose proof (endpoint_with_scheme
                (Builder.TryGetSecretKey_bool secret "use_ssl" true)
                (Builder.TryGetSecretKey secret "endpoint" "")) as Hscheme.
  cbv zeta in Hscheme.
  match goal with
  | |- context [Builder.when (StartsWith ?e _) _] => set (endpoint' := e) in *
  end.
  destruct (negb (Builder.empty _) && _).
  - destruct (StartsWith endpoint' "http://") eqn:Hhttp; cbn [Builder.when app].
    + split.
      * intros v Hin. right. apply elem_of_cons in Hin as [Hin|Hin]; [done|].
        apply list_elem_of_singleton in Hin. by injection Hin as ->.
      * split; [|intros _; apply list_elem_of_here].
        intros _. exists endpoint'. split; [|done].
        apply list_elem_of_further, list_elem_of_here.
    + split.
      * intros v Hin. apply list_elem_of_singleton in Hin. injection Hin as ->.
        destruct Hscheme as [Hscheme|Hscheme]; [by left | done].
      * split.
        -- intros Hin. by apply list_elem_of_singleton in Hin.
        -- intros (v & Hin & Hv). apply list_elem_of_singleton in Hin.
           injection Hin as ->. congruence.
  - destruct (_ || _).
    + split.
      * intros v Hin. apply list_elem_of_singleton in Hin. injection Hin as ->. by left.
      * split.
        -- intros Hin. by apply list_elem_of_singleton in Hin.
        -- intros (v & Hin & Hv). apply list_elem_of_singleton in Hin.
           injection Hin as ->. by vm_compute in Hv.
    + split.
      * intros v Hin. by apply elem_of_nil in Hin.
      * split.
        -- intros Hin. by apply elem_of_nil in Hin.
        -- intros (v & Hin & Hv). by apply elem_of_nil in Hin.
Qed.

(** X20. The options of an S3, GCS or R2 secret.  The region comes last.
    An endpoint handed to the kernel always has a scheme, [https://] or
    [http://]; plain HTTP is allowed exactly when that endpoint is an
    [http://] one; and the signature is skipped exactly when neither an
    access key id nor a secret key is set. *)
Theorem s3_options_endpoint (path : string) (secret : Builder.KeyValueSecret) :
  let options := Builder.s3_options path secret in
  last options
  = Some (Builder.set_builder_option "aws_region"
            (Builder.TryGetSecretKey secret "region" ""))
  /\ (forall v, Builder.set_builder_option "aws_endpoint" v ∈ options ->
                StartsWith v "https://" = true \/ StartsWith v "http://" = true)
  /\ (Builder.set_builder_option "allow_http" "true" ∈ options
      <-> exists v, Builder.set_builder_option "aws_endpoint" v ∈ options
                    /\ StartsWith v "http://" = true)
  /\ (Builder.set_builder_option "skip_signature" "true" ∈ options
      <-> forall v, (Builder.set_builder_option "aws_access_key_id" v ∉ options)
                    /\ (Builder.set_builder_option "aws_secret_access_key" v ∉ options)).
Proof.
  cbv zeta. unfold Builder.s3_options.
  pose proof (s3_credentials_keys secret) as Hck.
  pose proof (s3_endpoint_keys path secret) as Hek.
  pose proof (s3_credentials_signature secret) as Hsig.
  destruct (s3_endpoint_scheme path secret) as [Hscheme Hhttp].
  assert (forall k v,
            k ∉ ["skip_signature"; "aws_access_key_id"; "aws_secret_access_key";
                 "aws_session_token"] ->
            Builder.set_builder_option k v ∉ Builder.s3_credentials secret) as Hnc.
  { intros k v Hk Hin. by apply Hck in Hin. }
  assert (forall k v,
            k ∉ ["allow_http"; "aws_endpoint"] ->
            Builder.set_builder_option k v ∉ Builder.s3_endpoint path secret) as Hne.
  { intros k v Hk Hin. by apply Hek in Hin. }
  assert (forall k v r,
            k <> "aws_region" ->
            Builder.set_builder_option k v ∉ [Builder.set_builder_option "aws_region" r])
    as Hnr.
  { intros k v r Hk Hin. apply list_elem_of_singleton in Hin. congruence. }
  split; [by rewrite !app_assoc, last_snoc|].
  split_and!.
  - intros v Hin. apply elem_of_app in Hin as [Hin|Hin].
    { exfalso. revert Hin. apply Hnc. by_computation. }
    apply elem_of_app in Hin as [Hin|Hin]; [by apply Hscheme|].
    exfalso. revert Hin. by apply Hnr.
  - split.
    + intros Hin. apply elem_of_app in Hin as [Hin|Hin].
      { exfalso. revert Hin. apply Hnc. by_computation. }
      apply elem_of_app in Hin as [Hin|Hin].
      * apply Hhttp in Hin as (v & Hv & Hp). exists v. split; [|done].
        apply elem_of_app. right. apply elem_of_app. by left.
      * exfalso. revert Hin. by apply Hnr.
    + intros (v & Hin & Hp). apply elem_of_app. right. apply elem_of_app. left.
      apply Hhttp. exists v. split; [|done].
      apply elem_of_app in Hin as [Hin|Hin].
      { exfalso. revert Hin. apply Hnc. by_computation. }
      apply elem_of_app in Hin as [Hin|Hin]; [done|].
      exfalso. revert Hin. by apply Hnr.
  - split.
    + intros Hin v. apply elem_of_app in Hin as [Hin|Hin].
      * destruct (proj1 Hsig Hin v) as [Ha Hs].
        split; intros Hx; apply elem_of_app in Hx as [Hx|Hx]; try done;
          apply elem_of_app in Hx as [Hx|Hx];
          first [by (revert Hx; apply Hne; by_computation)
                |by (revert Hx; apply Hnr)].
      * exfalso. apply elem_of_app in Hin as [Hin|Hin].
        -- revert Hin. apply Hne. by_computation.
        -- revert Hin. by apply Hnr.
    + intros Hall. apply elem_of_app. left. apply (proj2 Hsig). intros v.
      destruct (Hall v) as [Ha Hs]. split; intros Hx.
      * apply Ha. apply elem_of_app. by left.
      * apply Hs. apply elem_of_app. by left.
Qed.

(** *** Azure *)

Lemma split_container_exact p container rest n :
  n = String.length p ->
  Builder.index_of "/"%char container = None ->
  Z.of_nat (String.length container) < 2 ^ 64 ->
  exists path_in_bucket,
    Builder.split_container (p +:+ (container +:+ String "/"%char rest)) n n
    = Builder.Ok (container, path_in_bucket).
Proof.
  intros -> Hc Hlen. eexists.
  rewrite (split_container_Ok _ _ _ (String.length p + String.length container)%nat)
    by (by apply find_container || lia).
  rewrite string_drop_app. do 2 f_equal.
  replace (idx_wrap _) with (Z.of_nat (String.length container)).
  - apply string_take_app.
  - unfold idx_wrap. rewrite Z.mod_small; lia.
Qed.

Lemma split_container_shifted p container rest n :
  n = String.length p ->
  Builder.index_of "/"%char container = None ->
  Z.of_nat (String.length container) < 2 ^ 64 ->
  Z.of_nat (String.length rest) < 2 ^ 64 ->
  exists path_in_bucket,
    Builder.split_container (p +:+ (container +:+ String "/"%char rest)) n (S n)
    = Builder.Ok (match container with
                  | EmptyString => rest
                  | String _ r => r
                  end, path_in_bucket).
Proof.
  intros -> Hc Hlen Hrest. eexists.
  rewrite (split_container_Ok _ _ _ (String.length p + String.length container)%nat)
    by (by apply find_container || lia).
  do 2 f_equal. destruct container as [|c r].
  - change ("" +:+ ?x) with x. rewrite string_drop_S_app.
    apply string_take_all. unfold idx_wrap. simpl String.length.
    replace (Z.of_nat (String.length p + 0) - Z.of_nat (S (String.length p))) with (-1) by lia.
    change (-1 mod 2 ^ 64) with (2 ^ 64 - 1). lia.
  - rewrite string_app_cons, string_drop_S_app.
    replace (idx_wrap _) with (Z.of_nat (String.length r)).
    + apply string_take_app.
    + unfold idx_wrap. simpl String.length in *. rewrite Z.mod_small; lia.
Qed.

Lemma CreateBuilder_azure engine_builder_ok LookupSecret path bucket path_in_bucket
    secret calls :
  Builder.is_regular_path path = false ->
  gcs_like path = false ->
  Builder.parse_url path = Builder.Ok (bucket, path_in_bucket, "azure") ->
  LookupSecret path "azure" = Some secret ->
  Builder.CreateBuilder engine_builder_ok LookupSecret path = Builder.Ok calls ->
  last calls = Some (Builder.set_builder_option "container_name" bucket).
Proof.
  intros Hreg Hgcs Hurl Hsecret. unfold Builder.CreateBuilder.
  rewrite Hreg, Hurl. simpl.
  destruct (clean_path_total path) as (cleaned & -> & _). simpl.
  destruct (Builder.new_builder engine_builder_ok cleaned) as [builder|]; [|done].
  simpl. rewrite Hsecret.
  destruct (Builder.azure_options secret bucket) as [options|] eqn:Hopt; [|done].
  simpl. intros [= <-]. apply azure_options_ok in Hopt as [_ Hlast].
  rewrite last_app. by rewrite Hlast.
Qed.

(** X21. The container handed to the kernel for an Azure URL
    [scheme container/rest] with a secret.  For [azure://], [abfss://] and
    [az://] it is the container.  For [abfs://] the container is cut one
    character late: it loses its first character, and when it is empty all
    of [rest] is taken. *)
Theorem CreateBuilder_container_name (engine_builder_ok : string -> bool)
    (LookupSecret : string -> string -> option Builder.KeyValueSecret)
    (scheme container rest : string) (secret : Builder.KeyValueSecret)
    (calls : list Builder.builder_call) :
  let path := scheme +:+ (container +:+ String "/"%char rest) in
  Builder.index_of "/"%char container = None ->
  Z.of_nat (String.length container) < 2 ^ 64 ->
  Z.of_nat (String.length rest) < 2 ^ 64 ->
  LookupSecret path "azure" = Some secret ->
  Builder.CreateBuilder engine_builder_ok LookupSecret path = Builder.Ok calls ->
  (scheme ∈ ["azure://"; "abfss://"; "az://"] ->
   last calls = Some (Builder.set_builder_option "container_name" container))
  /\ (scheme = "abfs://" ->
      last calls
      = Some (Builder.set_builder_option "container_name"
                match container with
                | EmptyString => rest
                | String _ r => r
                end)).
Proof.
  cbv zeta. intros Hc Hlen Hrest Hsecret Hrun. split.
  - intros Hscheme.
    repeat (apply elem_of_cons in Hscheme as [->|Hscheme]);
      [..|by apply elem_of_nil in Hscheme];
      match type of Hrun with
      | Builder.CreateBuilder _ _ (?p +:+ _) = _ =>
          destruct (split_container_exact p container rest (String.length p)
                      eq_refl Hc Hlen) as (q & Hsplit)
      end;
      simpl String.length in Hsplit;
      (eapply CreateBuilder_azure; [| | |exact Hsecret|exact Hrun]);
      [unfold Builder.is_regular_path | unfold gcs_like | unfold Builder.parse_url ..];
      destruct container; eval_StartsWith; cbn [negb andb orb];
      rewrite ?Hsplit; reflexivity.
  - intros ->.
    destruct (split_container_shifted "abfs://" container rest 7 eq_refl Hc Hlen Hrest)
      as (q & Hsplit).
    (eapply CreateBuilder_azure; [| | |exact Hsecret|exact Hrun]);
      [unfold Builder.is_regular_path | unfold gcs_like | unfold Builder.parse_url];
      destruct container; eval_StartsWith; cbn [negb andb orb];
      rewrite ?Hsplit; reflexivity.
Qed.

Lemma CreateBuilder_container_name_witness :
  exists calls,
    Builder.CreateBuilder (fun _ => true) demo_LookupSecret "abfs://data/tbl/"
    = Builder.Ok calls
    /\ last calls = Some (Builder.set_builder_option "container_name" "ata").
Proof.
  eexists. split; [vm_compute; reflexivity|].
  refine (proj2 (CreateBuilder_container_name (fun _ => true) demo_LookupSecret
                   "abfs://" "data" "tbl/" demo_azure_secret _ _ _ _ _ _) eq_refl).
  - reflexivity.
  - vm_compute. reflexivity.
  - vm_compute. reflexivity.
  - reflexivity.
  - vm_compute. reflexivity.
Defined.

Lemma CreateBuilder_calls_witness :
  exists calls,
    Builder.CreateBuilder (fun _ => true) demo_LookupSecret "gs://bucket/tbl/"
    = Builder.Ok calls
    /\ exists cleaned options,
         Builder.clean_path "gs://bucket/tbl/" = Builder.Ok cleaned
         /\ calls = Builder.get_engine_builder cleaned :: options
         /\ Forall is_option options.
Proof.
  eexists. split; [vm_compute; reflexivity|].
  destruct (CreateBuilder_calls (fun _ => true) demo_LookupSecret "gs://bucket/tbl/" _
              ltac:(vm_compute; reflexivity))
    as (cleaned & options & Hc & _ & Hcalls & Hopt & _).
  exists cleaned, options. split; [exact Hc|]. split; [|exact Hopt].
  rewrite <- Hcalls. vm_compute. reflexivity.
Defined.

Lemma CreateBuilder_option_values_witness :
  exists calls,
    Builder.CreateBuilder (fun _ => true) demo_LookupSecret "s3://bucket/tbl/"
    = Builder.Ok calls
    /\ forall key value,
         Builder.set_builder_option key value ∈ calls ->
         value = "" -> key = "aws_region" \/ key = "container_name".
Proof.
  eexists. split; [vm_compute; reflexivity|].
  apply (CreateBuilder_option_values (fun _ => true) demo_LookupSecret
           "s3://bucket/tbl/").
  vm_compute. reflexivity.
Defined.

(** * The further properties at work on the small table *)

Lemma GetFile_again_same_witness :
  exists p w s,
    GetFile (demo_host demo_scan) demo_world demo_snapshot 1 = Ok (p, w, s)
    /\ GetFile (demo_host demo_scan) w s 1 = Ok (p, w, s).
Proof.
  destruct (GetFile (demo_host demo_scan) demo_world demo_snapshot 1)
    as [[[p w] s]|] eqn:Hrun; [|by vm_compute in Hrun].
  exists p, w, s. split; [reflexivity|].
  exact (GetFile_again_same _ _ _ _ _ _ _ Hrun).
Defined.

Lemma known_files_stay_witness :
  exists w s,
    run_calls (demo_host demo_scan) [call_GetFile 2; call_GetAllFiles]
              demo_started.1 demo_started.2 = Ok (w, s)
    /\ resolved_files demo_started.2 `prefix_of` resolved_files s.
Proof.
  destruct (run_calls (demo_host demo_scan) [call_GetFile 2; call_GetAllFiles]
              demo_started.1 demo_started.2) as [[w s]|] eqn:Hrun;
    [|by vm_compute in Hrun].
  exists w, s. split; [reflexivity|].
  exact (proj1 (known_files_stay _ _ _ _ _ _ Hrun)).
Defined.

Lemma GetFile_pulls_only_what_it_needs_witness :
  exists p w s,
    GetFile (demo_host demo_scan) demo_started.1 demo_started.2 1 = Ok (p, w, s)
    /\ exists batches,
         scan_data_iterator demo_started.2 = (Ok <$> batches) ++ scan_data_iterator s
         /\ (length (calls demo_started.1) + length batches <= length (calls w)
             <= length (calls demo_started.1) + S (length batches))%nat.
Proof.
  destruct (GetFile (demo_host demo_scan) demo_started.1 demo_started.2 1)
    as [[[p w] s]|] eqn:Hrun; [|by vm_compute in Hrun].
  exists p, w, s. split; [reflexivity|].
  destruct (GetFile_pulls_only_what_it_needs (demo_host demo_scan) demo_started.1
              demo_started.2 1 p w s eq_refl eq_refl Hrun)
    as (_ & batches & Hit & _ & _ & Hcalls).
  exists batches. split; [exact Hit | exact Hcalls].
Defined.

Lemma GetAllFiles_lists_every_file_witness :
  exists files w s,
    GetAllFiles (demo_host demo_scan) demo_world demo_snapshot = Ok (files, w, s)
    /\ files_exhausted s = true
    /\ GetTotalFileCount (demo_host demo_scan) w s = Ok (length files, w, s).
Proof.
  destruct (GetAllFiles (demo_host demo_scan) demo_world demo_snapshot)
    as [[[files w] s]|] eqn:Hrun; [|by vm_compute in Hrun].
  exists files, w, s. split; [reflexivity|].
  assert (unstarted demo_snapshot) as Hun by (repeat split; reflexivity).
  assert ("" ∉ files) as Hfiles.
  { pose proof Hrun as Hnf. vm_compute in Hnf. injection Hnf as <- _ _. by_computation. }
  destruct (GetAllFiles_lists_every_file _ _ _ _ _ _ Hun Hrun Hfiles)
    as (k & batches & _ & -> & Hx & Hcount).
  split; [exact Hx|]. by rewrite length_fmap.
Defined.

Lemma GetFile_raises_kernel_error_witness :
  GetFile (demo_host demo_failing_scan) demo_failing.1 demo_failing.2 1
  = Err KernelException.
Proof.
  apply (GetFile_raises_kernel_error (demo_host demo_failing_scan) demo_failing.1
           demo_failing.2 1 [] KernelException []).
  - reflexivity.
  - reflexivity.
  - reflexivity.
  - reflexivity.
  - apply List.Forall_nil.
  - vm_compute. lia.
Defined.

Lemma GetVersion_is_snapshot_version_witness :
  exists p w s,
    GetFile (demo_host demo_scan) demo_world demo_snapshot 1 = Ok (p, w, s)
    /\ exists a c,
         snapshot s = Some a /\ shared w !! a = Some c
         /\ GetVersion s = ks_version (kernel_snapshot c).
Proof.
  destruct (GetFile (demo_host demo_scan) demo_world demo_snapshot 1)
    as [[[p w] s]|] eqn:Hrun; [|by vm_compute in Hrun].
  exists p, w, s. split; [reflexivity|].
  exact (GetVersion_is_snapshot_version (demo_host demo_scan) demo_world demo_snapshot
           1 p w s eq_refl Hrun).
Defined.

Lemma Bind_caches_schema_witness :
  exists tys nms w s,
    Bind (demo_host demo_scan) demo_world demo_snapshot [] [] = Ok (tys, nms, w, s)
    /\ forall return_types names_p,
         Bind (demo_host demo_scan) w s return_types names_p = Ok (tys, nms, w, s).
Proof.
  destruct (Bind (demo_host demo_scan) demo_world demo_snapshot [] [])
    as [[[[tys nms] w] s]|] eqn:Hrun; [|by vm_compute in Hrun].
  exists tys, nms, w, s. split; [reflexivity|].
  exact (proj1 (proj2 (Bind_caches_schema _ _ _ _ _ _ _ _ _ Hrun))).
Defined.

Lemma ComplexFilterPushdown_records_file_counts_witness :
  exists fork w s info',
    ComplexFilterPushdown (demo_host demo_scan) (demo_context true) demo_bound.1
                          demo_bound.2 demo_info [Expression_of " > 1"]
    = Ok (Some fork, w, s, info')
    /\ total_files (extra_info info') = Some 3
    /\ filtered_files (extra_info info') = Some 3.
Proof.
  destruct (GetTotalFileCount (demo_host demo_scan)
              (copy_shared_ptr (snapshot demo_bound.2) demo_bound.1) demo_bound.2)
    as [[[old_total w1] s1]|] eqn:Hold; [|by vm_compute in Hold].
  pose proof Hold as Hnf. vm_compute in Hnf. injection Hnf as Hn Hw Hs.
  destruct (GetTotalFileCount (demo_host demo_scan) w1
              (make_filtered_list (demo_host demo_scan) demo_bound.2
                 (GenerateTableScanFilters (demo_host demo_scan)
                    (rev [Expression_of " > 1"]) (column_indexes demo_info))))
    as [[[new_total w2] fork]|] eqn:Hnew.
  2:{ rewrite <- Hw in Hnew. by vm_compute in Hnew. }
  assert (new_total = 3%nat) as Hnt.
  { pose proof Hnew as Hnf. rewrite <- Hw in Hnf. vm_compute in Hnf.
    by injection Hnf as <- _ _. }
  destruct (ComplexFilterPushdown_records_file_counts (demo_host demo_scan)
              (demo_context true) demo_bound.1 demo_bound.2 demo_info
              (Expression_of " > 1") [] (Value_BOOLEAN true)
              old_total w1 s1 new_total w2 fork eq_refl eq_refl eq_refl Hold Hnew)
    as [_ Hok].
  destruct (Hok eq_refl) as (info' & Hrun & _ & Htotal & Hfiltered & _).
  exists fork, w2, s1, info'. split; [exact Hrun|].
  rewrite Htotal, Hfiltered, Hnt, <- Hn. split; reflexivity.
Defined.

Lemma ToDeltaPath_ends_with_slash_witness :
  ToDeltaPath (fun p => "/home/duck/" +:+ p) (ToDeltaPath (fun p => "/home/duck/" +:+ p) "./tbl")
  = ToDeltaPath (fun p => "/home/duck/" +:+ p) "./tbl".
Proof.
  refine (proj2 (ToDeltaPath_ends_with_slash (fun p => "/home/duck/" +:+ p) "./tbl" _) _);
    discriminate.
Defined.

Lemma url_decode_shortens_witness :
  url_decode (fun _ => 0) "region=eu/part-1.parquet" = "region=eu/part-1.parquet".
Proof.
  apply (url_decode_shortens (fun _ => 0) "region=eu/part-1.parquet").
  reflexivity.
Defined.

Lemma clean_paths_resolve_under_root_witness :
  resolve_path (demo_host demo_scan) "file:///data/tbl//" "part-0.parquet"
  = "/data/tbl/part-0.parquet".
Proof.
  refine (proj2 (clean_paths_resolve_under_root (demo_host demo_scan)
                   "file:///data/tbl" 2 "part-0.parquet" _ _) "/data/tbl" eq_refl).
  - discriminate.
  - reflexivity.
Defined.

Lemma ParseAccountNameFromEndpoint_total_witness :
  exists name,
    Builder.ParseAccountNameFromEndpoint "http://account.example.org" = Builder.Ok name
    /\ name = "".
Proof.
  destruct (ParseAccountNameFromEndpoint_total "http://account.example.org")
    as (name & Hname & _ & Hempty).
  exists name. split; [exact Hname|]. apply Hempty. reflexivity.
Defined.

Lemma parseFromConnectionString_result_witness :
  Builder.parseFromConnectionString "AccountName=a;AccountKey=k" "BlobEndpoint" = "".
Proof.
  refine (proj2 (proj2 (parseFromConnectionString_result
                          "AccountName=a;AccountKey=k" "BlobEndpoint" _)) _);
    vm_compute; reflexivity.
Defined.

Lemma s3_options_endpoint_witness :
  Builder.set_builder_option "allow_http" "true"
  ∈ Builder.s3_options "s3://bucket/tbl/" demo_s3_secret.
Proof.
  apply (s3_options_endpoint "s3://bucket/tbl/" demo_s3_secret).
  exists "http://localhost:9000". split; [by_computation | reflexivity].
Defined.

(** * Further properties of the column reconciliation *)

Lemma build_name_map_last local : forall i0 m n,
  ci_find n (build_name_map local i0 m)
  = match last_match n local i0 with
    | Some j => Some j
    | None => ci_find n m
    end.
Proof.
  induction local as [|c local IH]; intros i0 m n; simpl; [done|].
  rewrite IH. destruct (last_match n local (i0 + 1)); [done|].
  rewrite ci_find_insert. by case_decide.
Qed.

Lemma last_match_None n local : forall i0 k c,
  last_match n local i0 = None -> local !! k = Some c -> Lower (name c) <> Lower n.
Proof.
  induction local as [|d local IH]; intros i0 k c Hl Hc; [done|].
  simpl in Hl. destruct (last_match n local (i0 + 1)) eqn:Hl'; [done|].
  case_decide as Hd; [done|]. destruct k as [|k]; simpl in Hc.
  - by injection Hc as <-.
  - by apply (IH (i0 + 1) k c).
Qed.

Lemma last_match_Some n local : forall i0 j,
  last_match n local i0 = Some j ->
  i0 <= j < i0 + Z.of_nat (length local)
  /\ exists c, local !! Z.to_nat (j - i0) = Some c
               /\ Lower (name c) = Lower n
               /\ forall k c', (Z.to_nat (j - i0) < k)%nat -> local !! k = Some c' ->
                               Lower (name c') <> Lower n.
Proof.
  induction local as [|c local IH]; intros i0 j H; simpl in H; [done|].
  destruct (last_match n local (i0 + 1)) as [j'|] eqn:Hl.
  - injection H as ->. apply IH in Hl as (Hr & c' & Hc' & Hn & Hlast).
    split; [simpl; lia|]. exists c'.
    replace (Z.to_nat (j - i0)) with (S (Z.to_nat (j - (i0 + 1)))) by lia.
    split; [done|]. split; [done|].
    intros [|k] c2 Hk Hc2; [lia|]. apply (Hlast k); [lia | done].
  - case_decide as Hc; [|done]. assert (j = i0) as -> by congruence.
    split; [simpl; lia|]. exists c. rewrite Z.sub_diag. split; [done|]. split; [done|].
    intros [|k] c2 Hk Hc2; [simpl in Hk; lia|]. simpl in Hc2.
    by apply (last_match_None _ _ _ _ _ Hl Hc2).
Qed.

Lemma increasing_nil : increasing [].
Proof. intros a b i j _ Ha. done. Qed.

Lemma increasing_cons i l :
  (forall j, j ∈ l -> i < j) -> increasing l -> increasing (i :: l).
Proof.
  intros Hlt Hl [|a] [|b] x y Hab Ha Hb; simpl in *; try lia.
  - injection Ha as <-. apply Hlt. by eapply list_elem_of_lookup_2.
  - apply (Hl a b); [lia | done | done].
Qed.

Lemma served_by_shift name_map local global id ids i0 rd' entry :
  served_by name_map local global ids (i0 + 1) rd' entry ->
  served_by name_map local global (id :: ids) i0 rd' entry.
Proof.
  intros (Hc & k & id' & g & lc & He & Hk & Hrest).
  split; [done|]. exists (S k), id', g, lc. split; [lia|]. done.
Qed.

Lemma name_mapping_loop_mapped name_map local global ids : forall i0 rd rd',
  name_mapping_loop name_map local global ids i0 rd = Ok rd' ->
  (exists new : list (Z * Z),
     column_mapping rd' = column_mapping rd ++ new.*1
     /\ column_ids rd' = column_ids rd ++ new.*2
     /\ increasing new.*1
     /\ (forall i, i ∈ new.*1 -> i0 <= i < i0 + Z.of_nat (length ids))
     /\ Forall (served_by name_map local global ids i0 rd') new
     /\ (forall (k : nat) id,
           ids !! k = Some id -> is_constant rd (i0 + Z.of_nat k) = false ->
           exists g,
             vec_at global (GetPrimaryIndex id) = Ok g
             /\ match ci_find (name g) name_map with
                | Some l => (i0 + Z.of_nat k, l) ∈ new
                | None => is_constant rd' (i0 + Z.of_nat k) = true
                end))
  /\ (forall j, is_constant rd j = true -> is_constant rd' j = true)
  /\ (forall j, ~ (i0 <= j < i0 + Z.of_nat (length ids)) ->
                is_constant rd' j = is_constant rd j)
  /\ (forall l, is_Some (cast_map rd !! l) -> is_Some (cast_map rd' !! l))
  /\ file_list_idx rd' = file_list_idx rd.
Proof.
  induction ids as [|id ids IH]; intros i0 rd rd' H; simpl in H.
  { injection H as <-. split; [|done]. exists []. simpl. rewrite !app_nil_r.
    split_and!; try done; try apply increasing_nil.
    intros i Hi. by apply elem_of_nil in Hi. }
  destruct (is_constant rd i0) eqn:Hc.
  { apply IH in H
      as ((new & Hm & Hi & Hinc & Hrange & Hserved & Hfound) & Hmono & Hout & Hcast & Hidx).
    split; [exists new; split_and!; try done | split_and!; try done].
    - intros i Hin. apply Hrange in Hin. simpl. lia.
    - eapply Forall_impl; [exact Hserved|]. intros entry. apply served_by_shift.
    - intros [|k] id' Hk Hck; simpl in Hk.
      + rewrite Z.add_0_r in Hck. congruence.
      + replace (i0 + Z.of_nat (S k)) with (i0 + 1 + Z.of_nat k) in * by lia.
        by apply Hfound.
    - intros j Hj. apply Hout. simpl in Hj. lia. }
  destruct (Z.of_nat (length global) <=? GetPrimaryIndex id); [done|].
  destruct (vec_at global (GetPrimaryIndex id)) as [g|] eqn:Hg; simpl in H; [|done].
  destruct (ci_find (name g) name_map) as [l|] eqn:Hl.
  - destruct (vec_at local l) as [lc|] eqn:Hlc; simpl in H; [|done].
    apply IH in H
      as ((new & Hm & Hi & Hinc & Hrange & Hserved & Hfound) & Hmono & Hout & Hcast & Hidx).
    simpl in *.
    assert (is_constant rd' i0 = false) as Hc'.
    { rewrite Hout by lia. exact Hc. }
    split; [exists ((i0, l) :: new); split_and! | split_and!; try done].
    + rewrite Hm. simpl. by rewrite <- app_assoc.
    + rewrite Hi. simpl. by rewrite <- app_assoc.
    + simpl. apply increasing_cons; [|done]. intros j Hj. apply Hrange in Hj. lia.
    + intros i Hin. simpl in Hin. apply elem_of_cons in Hin as [->|Hin]; [lia|].
      apply Hrange in Hin. lia.
    + apply List.Forall_cons.
      * split; [done|]. exists O, id, g, lc. simpl. split_and!; try done; [lia|].
        intros Hty. apply Hcast. case_decide; [done|].
        rewrite lookup_insert_eq. by eexists.
      * eapply Forall_impl; [exact Hserved|]. intros entry. apply served_by_shift.
    + intros [|k] id' Hk Hck; simpl in Hk.
      * injection Hk as <-. exists g. rewrite Z.add_0_r, Hl. split; [done|].
        apply list_elem_of_here.
      * replace (i0 + Z.of_nat (S k)) with (i0 + 1 + Z.of_nat k) in * by lia.
        destruct (Hfound k id' Hk Hck) as (g' & Hg' & Hmatch). exists g'. split; [done|].
        destruct (ci_find (name g') name_map); [|done]. by apply list_elem_of_further.
    + intros j Hj. rewrite Hout by (simpl in Hj; lia). done.
    + intros l' Hl'. apply Hcast. case_decide; [done|].
      destruct (decide (l = l')) as [->|Hne];
        [rewrite lookup_insert_eq; by eexists | by rewrite lookup_insert_ne].
  - apply IH in H
      as ((new & Hm & Hi & Hinc & Hrange & Hserved & Hfound) & Hmono & Hout & Hcast & Hidx).
    simpl in *.
    split; [exists new; split_and!; try done | split_and!; try done].
    + intros i Hin. apply Hrange in Hin. lia.
    + eapply Forall_impl; [exact Hserved|]. intros entry. apply served_by_shift.
    + intros [|k] id' Hk Hck; simpl in Hk.
      * injection Hk as <-. exists g. rewrite Z.add_0_r, Hl. split; [done|].
        apply Hmono. rewrite is_constant_add, Z.eqb_refl. apply orb_true_r.
      * replace (i0 + Z.of_nat (S k)) with (i0 + 1 + Z.of_nat k) in * by lia.
        apply Hfound; [done|]. rewrite is_constant_add, Hck. simpl.
        apply Z.eqb_neq. lia.
    + intros j Hj. apply Hmono. rewrite is_constant_add, Hj. done.
    + intros j Hj. rewrite Hout by lia. rewrite is_constant_add.
      destruct (Z.eqb_spec i0 j); [lia|]. apply orb_false_r.
Qed.

(** X23. Every projected position is served from exactly one source.
    When [CustomMulfiFileNameMapping] succeeds on reader data without
    column mapping, [column_mapping] and [column_ids] have the same length,
    the mapped positions are in strictly increasing order and are positions
    of the projection, a position is mapped exactly when no constant stands
    for it, every global column that had to be looked up was in range, and
    [empty_columns] tells whether nothing is read from the file. *)
Theorem column_mapping_covers_projection
    (local_columns global_columns : list MultiFileReaderColumnDefinition)
    (global_column_ids : list ColumnIndex) (reader_data rd' : MultiFileReaderData) :
  CustomMulfiFileNameMapping local_columns global_columns global_column_ids reader_data
  = Ok rd' ->
  column_mapping reader_data = [] ->
  column_ids reader_data = [] ->
  length (column_ids rd') = length (column_mapping rd')
  /\ increasing (column_mapping rd')
  /\ (forall i, i ∈ column_mapping rd' -> 0 <= i < Z.of_nat (length global_column_ids))
  /\ (forall k : nat, (k < length global_column_ids)%nat ->
        Z.of_nat k ∈ column_mapping rd' <-> is_constant rd' (Z.of_nat k) = false)
  /\ (forall (k : nat) id,
        global_column_ids !! k = Some id ->
        is_constant reader_data (Z.of_nat k) = false ->
        0 <= GetPrimaryIndex id < Z.of_nat (length global_columns))
  /\ empty_columns rd' = bool_decide (column_mapping rd' = []).
Proof.
  unfold CustomMulfiFileNameMapping. intros H Hm0 Hi0.
  destruct (name_mapping_loop _ _ _ _ _ _) as [rd1|] eqn:Hloop; simpl in H; [|done].
  injection H as <-.
  apply name_mapping_loop_mapped in Hloop
    as ((new & Hm & Hi & Hinc & Hrange & Hserved & Hfound) & Hmono & Hout & Hcast & Hidx).
  rewrite Hm0 in Hm. rewrite Hi0 in Hi. simpl in Hm, Hi.
  change (column_mapping (update_empty_columns rd1)) with (column_mapping rd1).
  change (column_ids (update_empty_columns rd1)) with (column_ids rd1).
  rewrite Hm, Hi.
  split_and!.
  - by rewrite !length_fmap.
  - done.
  - intros i Hin. apply Hrange in Hin. lia.
  - intros k Hk.
    change (is_constant (update_empty_columns rd1) (Z.of_nat k))
      with (is_constant rd1 (Z.of_nat k)).
    split.
    + intros Hin. apply list_elem_of_fmap in Hin as ([i l] & Hil & Hin). simpl in Hil.
      rewrite Forall_forall in Hserved. destruct (Hserved _ Hin) as [Hc _]. simpl in Hc.
      by rewrite Hil.
    + intros Hc. destruct (global_column_ids !! k) as [id|] eqn:Hid.
      2:{ apply lookup_ge_None_1 in Hid. lia. }
      destruct (is_constant reader_data (Z.of_nat k)) eqn:Hc0.
      { apply Hmono in Hc0. congruence. }
      destruct (Hfound k id Hid Hc0) as (g & Hg & Hmatch).
      rewrite !Z.add_0_l in Hmatch.
      destruct (ci_find (name g) _) as [l|]; [|congruence].
      apply list_elem_of_fmap. by exists (Z.of_nat k, l).
  - intros k id Hid Hc0. destruct (Hfound k id Hid Hc0) as (g & Hg & _).
    by apply vec_at_Ok in Hg as [Hg _].
  - simpl. rewrite Hi. by destruct new.
Qed.

(** X24. A projected column that the file has is read from the last
    column of the file with that name, case ignored: its position and that
    local column stand at the same rank of [column_mapping] and
    [column_ids], and a cast is registered for the local column when the
    types differ. *)
Theorem projected_column_reads_last_local_column
    (local_columns global_columns : list MultiFileReaderColumnDefinition)
    (global_column_ids : list ColumnIndex) (reader_data rd' : MultiFileReaderData)
    (k : nat) (id : ColumnIndex) (global : MultiFileReaderColumnDefinition) (l : Z) :
  CustomMulfiFileNameMapping local_columns global_columns global_column_ids reader_data
  = Ok rd' ->
  column_mapping reader_data = [] ->
  column_ids reader_data = [] ->
  global_column_ids !! k = Some id ->
  is_constant reader_data (Z.of_nat k) = false ->
  vec_at global_columns (GetPrimaryIndex id) = Ok global ->
  last_match (name global) local_columns 0 = Some l ->
  exists (rank : nat) local,
    column_mapping rd' !! rank = Some (Z.of_nat k)
    /\ column_ids rd' !! rank = Some l
    /\ local_columns !! Z.to_nat l = Some local
    /\ Lower (name local) = Lower (name global)
    /\ (type global <> type local -> is_Some (cast_map rd' !! l)).
Proof.
  unfold CustomMulfiFileNameMapping. intros H Hm0 Hi0 Hid Hc0 Hg Hlast.
  destruct (name_mapping_loop _ _ _ _ _ _) as [rd1|] eqn:Hloop; simpl in H; [|done].
  injection H as <-.
  apply name_mapping_loop_mapped in Hloop
    as ((new & Hm & Hi & Hinc & Hrange & Hserved & Hfound) & Hmono & Hout & Hcast & Hidx).
  rewrite Hm0 in Hm. rewrite Hi0 in Hi. simpl in Hm, Hi.
  change (column_mapping (update_empty_columns rd1)) with (column_mapping rd1).
  change (column_ids (update_empty_columns rd1)) with (column_ids rd1).
  change (cast_map (update_empty_columns rd1)) with (cast_map rd1).
  rewrite Hm, Hi.
  destruct (Hfound k id Hid Hc0) as (g & Hg' & Hmatch). rewrite !Z.add_0_l in Hmatch.
  assert (g = global) as -> by congruence.
  rewrite build_name_map_last, Hlast in Hmatch.
  apply list_elem_of_lookup_1 in Hmatch as [rank Hrank].
  rewrite Forall_forall in Hserved.
  destruct (Hserved (Z.of_nat k, l)) as (_ & k' & id' & g' & lc & Hk' & Hid' & Hg2 & _ & Hlc & Hty).
  { by eapply list_elem_of_lookup_2. }
  simpl in *. assert (k' = k) as -> by lia.
  assert (id' = id) as -> by congruence. assert (g' = global) as -> by congruence.
  apply last_match_Some in Hlast as (_ & c & Hc & Hname & _).
  rewrite Z.sub_0_r in Hc. apply vec_at_Ok in Hlc as [_ Hlc].
  assert (c = lc) as -> by congruence.
  exists rank, lc. rewrite !list_lookup_fmap, Hrank. done.
Qed.

Lemma update_empty_columns_twice rd :
  update_empty_columns (update_empty_columns rd) = update_empty_columns rd.
Proof. reflexivity. Qed.

(** X25. The file's row numbers in [CreateColumnMapping].  When
    [file_row_number] is a projected column nothing is added to the name
    mapping.  When it is an extra column (its index is past the
    projection), the last column of the file named [file_row_number]
    (case ignored) is read into it, after all other mapped columns, and
    a file without such a column is refused with an [IOException].  Without
    global state the mapping fails. *)
Theorem CreateColumnMapping_maps_row_numbers
    (local_columns global_columns : list MultiFileReaderColumnDefinition)
    (global_column_ids : list ColumnIndex) (reader_data rd1 : MultiFileReaderData)
    (g : DeltaMultiFileReaderGlobalState) :
  CustomMulfiFileNameMapping local_columns global_columns global_column_ids reader_data
  = Ok rd1 ->
  (file_row_number_idx g < Z.of_nat (length global_column_ids) ->
   CreateColumnMapping local_columns global_columns global_column_ids reader_data (Some g)
   = Ok rd1)
  /\ (Z.of_nat (length global_column_ids) <= file_row_number_idx g ->
      match last_match "file_row_number" local_columns 0 with
      | Some l =>
          exists rd2 local,
            CreateColumnMapping local_columns global_columns global_column_ids
                                reader_data (Some g) = Ok rd2
            /\ column_mapping rd2 = column_mapping rd1 ++ [file_row_number_idx g]
            /\ column_ids rd2 = column_ids rd1 ++ [l]
            /\ constant_map rd2 = constant_map rd1
            /\ cast_map rd2 = cast_map rd1
            /\ empty_columns rd2 = false
            /\ local_columns !! Z.to_nat l = Some local
            /\ Lower (name local) = "file_row_number"
      | None =>
          CreateColumnMapping local_columns global_columns global_column_ids
                              reader_data (Some g) = Err IOException
      end)
  /\ CreateColumnMapping local_columns global_columns global_column_ids reader_data None
     = Err InternalException.
Proof.
  intros H. unfold CreateColumnMapping. rewrite H. simpl.
  assert (update_empty_columns rd1 = rd1) as Hsame.
  { unfold CustomMulfiFileNameMapping in H.
    destruct (name_mapping_loop _ _ _ _ _ _); simpl in H; [|done].
    injection H as <-. apply update_empty_columns_twice. }
  split_and!; [| |done].
  - intros Hlt. destruct (Z.leb_spec (Z.of_nat (length global_column_ids))
                            (file_row_number_idx g)); [lia|].
    simpl. by rewrite Hsame.
  - intros Hle. destruct (Z.leb_spec (Z.of_nat (length global_column_ids))
                            (file_row_number_idx g)); [|lia].
    rewrite build_name_map_last.
    destruct (last_match "file_row_number" local_columns 0) as [l|] eqn:Hl.
    + apply last_match_Some in Hl as (_ & c & Hc & Hname & _). rewrite Z.sub_0_r in Hc.
      eexists _, c. simpl. split; [reflexivity|]. split_and!; try done.
      by destruct (column_ids rd1).
    + unfold ci_find. by rewrite lookup_empty.
Qed.

Lemma sv_fold_count dv col l : forall st,
  ((fold_left (sv_step dv col) l st).2 <= st.2 + length l)%nat
  /\ length (fold_left (sv_step dv col) l st).1 = length st.1.
Proof.
  induction l as [|i l IH]; intros [result cs]; simpl; [split; [lia | done]|].
  destruct (IH (sv_step dv col (result, cs) i)) as [Hc Hl].
  unfold sv_step in *.
  destruct (_ || _); simpl in *; [rewrite length_insert in Hl|]; split; (lia || done).
Qed.

Lemma DuckSVFromDeltaSV_count uninit dv col count :
  ((DuckSVFromDeltaSV uninit dv col count).2 <= count)%nat.
Proof.
  unfold DuckSVFromDeltaSV.
  destruct (sv_fold_count dv col (seq 0 count) (uninit <$> seq 0 count, O)) as [H _].
  simpl in H. by rewrite length_seq in H.
Qed.

(** ** The synthetic columns once more *)

Lemma selected_columns_distinct global ids sel :
  select_columns global ids 0 ∅ = Ok sel ->
  (forall column i, ci_find column sel = Some i -> 0 <= i < Z.of_nat (length ids))
  /\ (forall a b i j, ci_find a sel = Some i -> ci_find b sel = Some j ->
                      Lower a <> Lower b -> i <> j).
Proof.
  intros Hsel.
  assert (forall c i, ci_find c sel = Some i ->
            exists (k : nat) id col,
              i = Z.of_nat k /\ ids !! k = Some id
              /\ vec_at global (GetPrimaryIndex id) = Ok col
              /\ Lower (name col) = Lower c) as Hfind.
  { intros c i Hi. rewrite (select_columns_spec _ _ _ _ _ c Hsel) in Hi.
    unfold ci_find in Hi at 1. rewrite lookup_empty in Hi.
    apply projected_index_Some in Hi as (k & id & col & -> & Hk & _ & ? & ?).
    exists k, id, col. rewrite Z.add_0_l. done. }
  split.
  - intros c i Hi. apply Hfind in Hi as (k & id & col & -> & Hk & _).
    apply lookup_lt_Some in Hk. lia.
  - intros a b i j Ha Hb Hab ->.
    apply Hfind in Ha as (k & id & col & -> & Hk & Hcol & Hn).
    apply Hfind in Hb as (k' & id' & col' & Heq & Hk' & Hcol' & Hn').
    assert (k' = k) as -> by lia. congruence.
Qed.

Lemma InitializeGlobalState_indices_lemma host options global ids g :
  InitializeGlobalState host options global ids = Ok g ->
  exists enabled,
    option_enabled host "delta_file_number" options = Ok enabled
    /\ 0 <= file_row_number_idx g
       < Z.of_nat (length ids) + Z.of_nat (length (extra_columns g))
    /\ (if enabled : bool
        then 0 <= delta_file_number_idx g
             < Z.of_nat (length ids) + Z.of_nat (length (extra_columns g))
             /\ delta_file_number_idx g <> file_row_number_idx g
        else delta_file_number_idx g = INVALID_INDEX)
    /\ length (extra_columns g)
       = ((if (Z.of_nat (length ids) <=? file_row_number_idx g)%Z then 1 else 0)
          + (if enabled && (Z.of_nat (length ids) <=? delta_file_number_idx g)%Z
             then 1 else 0))%nat.
Proof.
  unfold InitializeGlobalState. intros H.
  destruct (select_columns global ids 0 ∅) as [sel|] eqn:Hsel; simpl in H; [|done].
  destruct (option_enabled host "delta_file_number" options) as [enabled|];
    simpl in H; [|done].
  exists enabled. split; [done|].
  destruct (selected_columns_distinct _ _ _ Hsel) as [Hrange Hdistinct].
  pose proof (Hrange "file_row_number") as Hr.
  pose proof (Hrange "delta_file_number") as Hd.
  pose proof (Hdistinct "file_row_number" "delta_file_number") as Hrd.
  unfold columns_to_map in H.
  destruct enabled, (delta_file_number_first host); cbn [map_columns] in H;
    destruct (ci_find "file_row_number" sel) as [ir|];
    destruct (ci_find "delta_file_number" sel) as [id|];
    simpl in H; injection H as <-; simpl;
    try specialize (Hr _ eq_refl); try specialize (Hd _ eq_refl);
    try (specialize (Hrd _ _ eq_refl eq_refl); assert (ir <> id) by (apply Hrd; by vm_compute));
    repeat match goal with
           | |- context [?a <=? ?b] => destruct (Z.leb_spec a b)
           end; simpl; split_and!; try done; try lia.
Qed.

(** X26. The indices [InitializeGlobalState] gives the synthetic columns
    are safe to use: [file_row_number_idx] is always set and lies within
    the projected columns followed by the extra columns; with the
    [delta_file_number] option on so does [delta_file_number_idx], and the
    two never coincide; with the option off [delta_file_number_idx] stays
    invalid; and there is one extra column for each synthetic column that
    is not projected.  So, for a projection that leaves room for two more
    columns below [2 ^ 64 - 1], the test of [FinalizeChunk] against
    [INVALID_INDEX] holds exactly when the option is on. *)
Theorem InitializeGlobalState_indices (host : Host) (file_options : MultiFileReaderOptions)
    (global_columns : list MultiFileReaderColumnDefinition)
    (global_column_ids : list ColumnIndex) (g : DeltaMultiFileReaderGlobalState) :
  InitializeGlobalState host file_options global_columns global_column_ids = Ok g ->
  exists enabled,
    option_enabled host "delta_file_number" file_options = Ok enabled
    /\ 0 <= file_row_number_idx g
       < Z.of_nat (length global_column_ids) + Z.of_nat (length (extra_columns g))
    /\ (if enabled : bool
        then 0 <= delta_file_number_idx g
             < Z.of_nat (length global_column_ids) + Z.of_nat (length (extra_columns g))
             /\ delta_file_number_idx g <> file_row_number_idx g
        else delta_file_number_idx g = INVALID_INDEX)
    /\ length (extra_columns g)
       = ((if (Z.of_nat (length global_column_ids) <=? file_row_number_idx g)%Z
           then 1 else 0)
          + (if enabled
                && (Z.of_nat (length global_column_ids) <=? delta_file_number_idx g)%Z
             then 1 else 0))%nat
    /\ (Z.of_nat (length global_column_ids) + 2 < 2 ^ 64 ->
        (delta_file_number_idx g =? INVALID_INDEX) = negb enabled
        /\ (file_row_number_idx g =? INVALID_INDEX) = false).
Proof.
  intros H.
  apply InitializeGlobalState_indices_lemma in H as (enabled & Hen & Hr & Hd & Hextra).
  exists enabled. do 4 (split; [done|]).
  intros Hroom.
  assert (length (extra_columns g) <= 2)%nat as Hwidth.
  { rewrite Hextra. destruct (_ <=? _)%Z, (_ && _); lia. }
  split.
  - destruct enabled; simpl.
    + apply Z.eqb_neq. unfold INVALID_INDEX. lia.
    + by apply Z.eqb_eq.
  - apply Z.eqb_neq. unfold INVALID_INDEX. lia.
Qed.

(** X27. [FinalizeChunk] cannot fail on the chunks the global state was
    made for.  After [InitializeGlobalState], on a chunk that the base class
    leaves with one vector for each projected column and each extra column,
    for a file whose metadata is known, [FinalizeChunk] succeeds; the
    result has the same number of vectors and no more rows, and the same
    rows when the file has no deletion vector. *)
Theorem FinalizeChunk_after_InitializeGlobalState (host : Host)
    (base_FinalizeChunk : MultiFileReaderData -> DataChunk -> res DataChunk)
    (uninit_sel : nat -> Z) (file_options : MultiFileReaderOptions)
    (global_columns : list MultiFileReaderColumnDefinition)
    (global_column_ids : list ColumnIndex) (g : DeltaMultiFileReaderGlobalState)
    (reader_data : MultiFileReaderData) (chunk chunk1 : DataChunk)
    (snapshot : DeltaSnapshot) (index : Z) (file_metadata : DeltaFileMetaData) :
  InitializeGlobalState host file_options global_columns global_column_ids = Ok g ->
  base_FinalizeChunk reader_data chunk = Ok chunk1 ->
  length (data chunk1) = (length global_column_ids + length (extra_columns g))%nat ->
  file_list_idx reader_data = Some index ->
  GetMetaData snapshot index = Ok file_metadata ->
  exists chunk2,
    FinalizeChunk base_FinalizeChunk uninit_sel reader_data chunk (Some g) snapshot
    = Ok chunk2
    /\ length (data chunk2) = length (data chunk1)
    /\ (size chunk2 <= size chunk1)%nat
    /\ (ptr (selection_vector file_metadata) = None -> size chunk2 = size chunk1).
Proof.
  intros Hinit Hbase Hwidth Hidx Hmd.
  apply InitializeGlobalState_indices_lemma in Hinit as (enabled & _ & Hr & Hd & _).
  unfold FinalizeChunk. rewrite Hbase. simpl. rewrite Hidx. simpl. rewrite Hmd. simpl.
  assert (exists chunk3,
            match ptr (selection_vector file_metadata) with
            | Some _ =>
                if (size chunk1 =? 0)%nat then Ok chunk1
                else
                  file_row_number_column ← vec_at (data chunk1) (file_row_number_idx g);
                  let '(sv, select_count) :=
                    DuckSVFromDeltaSV uninit_sel (selection_vector file_metadata)
                                      file_row_number_column (size chunk1) in
                  Ok (Slice chunk1 sv select_count)
            | None => Ok chunk1
            end = Ok chunk3
            /\ length (data chunk3) = length (data chunk1)
            /\ (size chunk3 <= size chunk1)%nat
            /\ (ptr (selection_vector file_metadata) = None -> size chunk3 = size chunk1))
    as (chunk3 & -> & Hlen & Hsize & Hnone).
  { destruct (ptr (selection_vector file_metadata)) as [bits|]; [|by exists chunk1].
    destruct (size chunk1 =? 0)%nat; [by exists chunk1|].
    destruct (vec_at_in_range (data chunk1) (file_row_number_idx g)) as [col ->]; [lia|].
    simpl.
    pose proof (DuckSVFromDeltaSV_count uninit_sel (selection_vector file_metadata) col
                  (size chunk1)) as Hcount.
    destruct (DuckSVFromDeltaSV _ _ _ _) as [sv select_count]. simpl in Hcount.
    eexists. split; [reflexivity|]. simpl. rewrite length_fmap. done. }
  simpl.
  destruct (delta_file_number_idx g =? INVALID_INDEX) eqn:Hinv; [by exists chunk3|].
  destruct enabled; [|rewrite Hd in Hinv; by vm_compute in Hinv].
  unfold execute_dummy_expression.
  destruct (vec_at_in_range (data chunk3) (delta_file_number_idx g)) as [col ->]; [lia|].
  simpl. eexists. split; [reflexivity|]. simpl. rewrite length_insert. done.
Qed.

(** ** The constants of [FinalizeBind] *)

Lemma bind_partitions_frame host partitions global ids : forall i0 rd rd',
  bind_partitions host partitions global ids i0 rd = Ok rd' ->
  file_list_idx rd' = file_list_idx rd
  /\ column_mapping rd' = column_mapping rd
  /\ column_ids rd' = column_ids rd
  /\ cast_map rd' = cast_map rd
  /\ empty_columns rd' = empty_columns rd
  /\ exists added,
       constant_map rd' = constant_map rd ++ added
       /\ increasing added.*1
       /\ forall i v, (i, v) ∈ added ->
            exists (k : nat) id col partition_val,
              i = i0 + Z.of_nat k
              /\ ids !! k = Some id
              /\ IsRowIdColumnId (GetPrimaryIndex id) = false
              /\ vec_at global (GetPrimaryIndex id) = Ok col
              /\ ci_find (name col) partitions = Some partition_val
              /\ partition_constant host (type col) partition_val v.
Proof.
  induction ids as [|id ids IH]; intros i0 rd rd' H; simpl in H.
  { injection H as <-. split_and!; try done. exists []. rewrite app_nil_r.
    split_and!; try done; try apply increasing_nil.
    intros i v Hin. by apply elem_of_nil in Hin. }
  assert (forall rd1 added1,
            bind_partitions host partitions global ids (i0 + 1) rd1 = Ok rd' ->
            file_list_idx rd1 = file_list_idx rd ->
            column_mapping rd1 = column_mapping rd ->
            column_ids rd1 = column_ids rd ->
            cast_map rd1 = cast_map rd ->
            empty_columns rd1 = empty_columns rd ->
            constant_map rd1 = constant_map rd ++ added1 ->
            (forall i v, (i, v) ∈ added1 ->
               i = i0 /\ IsRowIdColumnId (GetPrimaryIndex id) = false
               /\ exists col partition_val,
                    vec_at global (GetPrimaryIndex id) = Ok col
                    /\ ci_find (name col) partitions = Some partition_val
                    /\ partition_constant host (type col) partition_val v) ->
            (length added1 <= 1)%nat ->
            file_list_idx rd' = file_list_idx rd
            /\ column_mapping rd' = column_mapping rd
            /\ column_ids rd' = column_ids rd
            /\ cast_map rd' = cast_map rd
            /\ empty_columns rd' = empty_columns rd
            /\ exists added,
                 constant_map rd' = constant_map rd ++ added
                 /\ increasing added.*1
                 /\ forall i v, (i, v) ∈ added ->
                      exists (k : nat) id' col partition_val,
                        i = i0 + Z.of_nat k
                        /\ (id :: ids) !! k = Some id'
                        /\ IsRowIdColumnId (GetPrimaryIndex id') = false
                        /\ vec_at global (GetPrimaryIndex id') = Ok col
                        /\ ci_find (name col) partitions = Some partition_val
                        /\ partition_constant host (type col) partition_val v) as Hstep.
  { intros rd1 added1 Hrun H1 H2 H3 H4 H5 H6 Hadded Hone.
    apply IH in Hrun as (-> & -> & -> & -> & -> & added & Hc & Hinc & Hin).
    split_and!; try done. exists (added1 ++ added). split_and!.
    - by rewrite Hc, H6, app_assoc.
    - rewrite fmap_app. destruct added1 as [|[i1 v1] [|? ?]]; simpl in *; [done | | lia].
      apply increasing_cons; [|done]. intros j Hj.
      apply list_elem_of_fmap in Hj as ([j' v'] & -> & Hj).
      apply Hin in Hj as (k & _ & _ & _ & -> & _). simpl.
      destruct (Hadded i1 v1) as [-> _]; [apply list_elem_of_here | lia].
    - intros i v Hiv. apply elem_of_app in Hiv as [Hiv|Hiv].
      + destruct (Hadded _ _ Hiv) as (-> & Hrow & col & pv & Hcol & Hpv & Hv).
        exists O, id, col, pv. split_and!; try done. lia.
      + apply Hin in Hiv as (k & id' & col & pv & -> & Hk & Hrest).
        exists (S k), id', col, pv. split; [lia | done]. }
  destruct (IsRowIdColumnId (GetPrimaryIndex id)) eqn:Hrow.
  { apply (Hstep rd []); try done; [by rewrite app_nil_r | | simpl; lia].
    intros i v Hin. by apply elem_of_nil in Hin. }
  destruct (vec_at global (GetPrimaryIndex id)) as [col|] eqn:Hcol; simpl in H; [|done].
  destruct (ci_find (name col) partitions) as [pv|] eqn:Hpv.
  - case_decide as Hty.
    + apply (Hstep _ [(i0, Value_BLOB_RAW pv)] H); try done.
      intros i v Hin. apply list_elem_of_singleton in Hin. injection Hin as -> ->.
      split_and!; try done. exists col, pv. split_and!; try done.
      unfold partition_constant. by case_decide.
    + destruct (DefaultCastAs host (Value_VARCHAR pv) (type col)) as [mv|] eqn:Hcast;
        simpl in H; [|done].
      apply (Hstep _ [(i0, mv)] H); try done.
      intros i v Hin. apply list_elem_of_singleton in Hin. injection Hin as -> ->.
      split_and!; try done. exists col, pv. split_and!; try done.
      unfold partition_constant. by case_decide.
  - apply (Hstep rd []); try done; [by rewrite app_nil_r | | simpl; lia].
    intros i v Hin. by apply elem_of_nil in Hin.
Qed.

(** X28. [FinalizeBind] only adds constants.  When it succeeds there is a
    global state, and beyond what the base class returned the reader data
    differs only by constants appended in this order: the placeholder
    [UBIGINT 0] at [delta_file_number_idx] when the [delta_file_number]
    option is on, then, by increasing position, one constant for each
    projected column other than the row id that the file's partition map
    names, holding that partition value. *)
Theorem FinalizeBind_only_adds_constants (host : Host)
    (base_FinalizeBind :
       MultiFileReaderOptions -> string ->
       list MultiFileReaderColumnDefinition -> list MultiFileReaderColumnDefinition ->
       list ColumnIndex -> MultiFileReaderData -> res MultiFileReaderData)
    (file_options : MultiFileReaderOptions) (filename : string)
    (local_columns global_columns : list MultiFileReaderColumnDefinition)
    (global_column_ids : list ColumnIndex) (reader_data rd' : MultiFileReaderData)
    (global_state : option DeltaMultiFileReaderGlobalState) (snapshot : DeltaSnapshot) :
  FinalizeBind host base_FinalizeBind file_options filename local_columns global_columns
               global_column_ids reader_data global_state snapshot = Ok rd' ->
  exists rd0 g enabled index file_metadata added,
    base_FinalizeBind file_options filename local_columns global_columns
                      global_column_ids reader_data = Ok rd0
    /\ global_state = Some g
    /\ option_enabled host "delta_file_number" file_options = Ok enabled
    /\ file_list_idx rd0 = Some index
    /\ GetMetaData snapshot index = Ok file_metadata
    /\ file_list_idx rd' = file_list_idx rd0
    /\ column_mapping rd' = column_mapping rd0
    /\ column_ids rd' = column_ids rd0
    /\ cast_map rd' = cast_map rd0
    /\ empty_columns rd' = empty_columns rd0
    /\ constant_map rd'
       = constant_map rd0
         ++ (if enabled : bool then [(delta_file_number_idx g, Value_UBIGINT 0)] else [])
         ++ added
    /\ increasing added.*1
    /\ forall i v, (i, v) ∈ added ->
         exists (k : nat) id col partition_val,
           i = Z.of_nat k
           /\ global_column_ids !! k = Some id
           /\ IsRowIdColumnId (GetPrimaryIndex id) = false
           /\ vec_at global_columns (GetPrimaryIndex id) = Ok col
           /\ ci_find (name col) (partition_map file_metadata) = Some partition_val
           /\ partition_constant host (type col) partition_val v.
Proof.
  unfold FinalizeBind. intros H.
  destruct (base_FinalizeBind _ _ _ _ _ _) as [rd0|]; simpl in H; [|done].
  destruct (option_enabled host "delta_file_number" file_options) as [enabled|];
    simpl in H; [|done].
  destruct global_state as [g|]; [|by destruct enabled].
  set (rd1 := if enabled then add_constant rd0 (delta_file_number_idx g) (Value_UBIGINT 0)
              else rd0).
  assert ((if enabled then
             delta_global_state ← deref (Some g);
             Ok (add_constant rd0 (delta_file_number_idx delta_global_state) (Value_UBIGINT 0))
           else Ok rd0) = Ok rd1) as Hrd1 by by destruct enabled.
  rewrite Hrd1 in H. simpl in H.
  assert (file_list_idx rd1 = file_list_idx rd0 /\ column_mapping rd1 = column_mapping rd0
          /\ column_ids rd1 = column_ids rd0 /\ cast_map rd1 = cast_map rd0
          /\ empty_columns rd1 = empty_columns rd0
          /\ constant_map rd1
             = constant_map rd0
               ++ (if enabled then [(delta_file_number_idx g, Value_UBIGINT 0)] else []))
    as (E1 & E2 & E3 & E4 & E5 & E6).
  { unfold rd1. destruct enabled; simpl; rewrite ?app_nil_r; done. }
  destruct (file_list_idx rd1) as [index|] eqn:Hidx; simpl in H; [|done].
  destruct (GetMetaData snapshot index) as [file_metadata|] eqn:Hmd; simpl in H; [|done].
  exists rd0, g, enabled, index, file_metadata.
  case_decide as Hempty.
  - injection H as <-. exists []. rewrite app_nil_r.
    split_and!; try done; try congruence; try apply increasing_nil.
    intros i v Hin. by apply elem_of_nil in Hin.
  - apply bind_partitions_frame in H as (-> & -> & -> & -> & -> & added & -> & Hinc & Hin).
    exists added. split_and!; try done; try congruence. by rewrite E6, app_assoc.
Qed.

(** ** The column reconciliation at work on the small table *)

Lemma column_mapping_covers_projection_witness :
  exists rd',
    CustomMulfiFileNameMapping demo_local_columns demo_global_columns
                               demo_global_column_ids demo_reader_data = Ok rd'
    /\ length (column_ids rd') = length (column_mapping rd')
    /\ increasing (column_mapping rd').
Proof.
  destruct (CustomMulfiFileNameMapping demo_local_columns demo_global_columns
              demo_global_column_ids demo_reader_data) as [rd'|] eqn:Hrun;
    [|by vm_compute in Hrun].
  exists rd'. split; [reflexivity|].
  destruct (column_mapping_covers_projection _ _ _ _ _ Hrun eq_refl eq_refl)
    as (Hlen & Hinc & _).
  split; [exact Hlen | exact Hinc].
Defined.

Lemma projected_column_reads_last_local_column_witness :
  exists rd' rank local,
    CustomMulfiFileNameMapping demo_local_columns demo_global_columns
                               demo_global_column_ids demo_reader_data = Ok rd'
    /\ column_mapping rd' !! rank = Some 1
    /\ column_ids rd' !! rank = Some 0
    /\ Lower (name local) = "id".
Proof.
  destruct (CustomMulfiFileNameMapping demo_local_columns demo_global_columns
              demo_global_column_ids demo_reader_data) as [rd'|] eqn:Hrun;
    [|by vm_compute in Hrun].
  destruct (projected_column_reads_last_local_column demo_local_columns
              demo_global_columns demo_global_column_ids demo_reader_data rd' 1%nat 0
              {| name := "id"; type := BIGINT |} 0 Hrun eq_refl eq_refl eq_refl eq_refl
              eq_refl eq_refl) as (rank & local & Hm & Hi & _ & Hn & _).
  exists rd', rank, local. split; [reflexivity|]. split; [exact Hm|].
  split; [exact Hi | exact Hn].
Defined.

Lemma CreateColumnMapping_maps_row_numbers_witness :
  exists rd1 rd2,
    CustomMulfiFileNameMapping demo_local_columns demo_global_columns
                               demo_global_column_ids demo_reader_data = Ok rd1
    /\ CreateColumnMapping demo_local_columns demo_global_columns demo_global_column_ids
                           demo_reader_data (Some demo_global_state) = Ok rd2
    /\ column_mapping rd2 = column_mapping rd1 ++ [3]
    /\ column_ids rd2 = column_ids rd1 ++ [1].
Proof.
  destruct (CustomMulfiFileNameMapping demo_local_columns demo_global_columns
              demo_global_column_ids demo_reader_data) as [rd1|] eqn:Hrun;
    [|by vm_compute in Hrun].
  pose proof (proj1 (proj2 (CreateColumnMapping_maps_row_numbers demo_local_columns
                              demo_global_columns demo_global_column_ids
                              demo_reader_data rd1 demo_global_state Hrun))) as H.
  assert (last_match "file_row_number" demo_local_columns 0 = Some 1) as Hl
    by (vm_compute; reflexivity).
  rewrite Hl in H.
  destruct H as (rd2 & local & Hcreate & Hm & Hi & _); [vm_compute; discriminate|].
  exists rd1, rd2. split; [reflexivity|]. split; [exact Hcreate|].
  split; [exact Hm | exact Hi].
Defined.

Lemma InitializeGlobalState_indices_witness :
  exists g,
    InitializeGlobalState (demo_host demo_scan) demo_options demo_global_columns
                          demo_global_column_ids = Ok g
    /\ delta_file_number_idx g <> file_row_number_idx g.
Proof.
  destruct (InitializeGlobalState (demo_host demo_scan) demo_options demo_global_columns
              demo_global_column_ids) as [g|] eqn:Hrun; [|by vm_compute in Hrun].
  exists g. split; [reflexivity|].
  destruct (InitializeGlobalState_indices _ _ _ _ _ Hrun) as (enabled & Hen & _ & Hd & _).
  vm_compute in Hen. injection Hen as <-. exact (proj2 Hd).
Defined.

Lemma FinalizeChunk_after_InitializeGlobalState_witness :
  exists g chunk2,
    InitializeGlobalState (demo_host demo_scan) demo_options demo_global_columns
                          demo_global_column_ids = Ok g
    /\ FinalizeChunk (fun _ c => Ok c) (fun _ => 0) demo_reader_data demo_chunk (Some g)
                     demo_discovered.2 = Ok chunk2
    /\ length (data chunk2) = 5%nat
    /\ (size chunk2 <= 10)%nat.
Proof.
  destruct (InitializeGlobalState (demo_host demo_scan) demo_options demo_global_columns
              demo_global_column_ids) as [g|] eqn:Hrun; [|by vm_compute in Hrun].
  destruct (GetMetaData demo_discovered.2 0) as [md|] eqn:Hmd; [|by vm_compute in Hmd].
  assert (length (data demo_chunk)
          = (length demo_global_column_ids + length (extra_columns g))%nat) as Hwidth.
  { pose proof Hrun as Hnf. vm_compute in Hnf. by injection Hnf as <-. }
  destruct (FinalizeChunk_after_InitializeGlobalState (demo_host demo_scan)
              (fun _ c => Ok c) (fun _ => 0) demo_options demo_global_columns
              demo_global_column_ids g demo_reader_data demo_chunk demo_chunk
              demo_discovered.2 0 md Hrun eq_refl Hwidth eq_refl Hmd)
    as (chunk2 & Hfin & Hlen & Hsize & _).
  exists g, chunk2. split; [reflexivity|]. split; [exact Hfin|].
  split; [exact Hlen | exact Hsize].
Defined.

Lemma FinalizeBind_only_adds_constants_witness :
  exists rd,
    FinalizeBind (demo_host demo_scan) demo_base_FinalizeBind demo_options "part-0.parquet"
                 demo_local_columns demo_global_columns demo_global_column_ids
                 demo_reader_data (Some demo_global_state) demo_discovered.2 = Ok rd
    /\ column_mapping rd = [] /\ column_ids rd = [] /\ cast_map rd = ∅.
Proof.
  destruct (FinalizeBind (demo_host demo_scan) demo_base_FinalizeBind demo_options
              "part-0.parquet" demo_local_columns demo_global_columns
              demo_global_column_ids demo_reader_data (Some demo_global_state)
              demo_discovered.2) as [rd|] eqn:Hrun; [|by vm_compute in Hrun].
  exists rd. split; [reflexivity|].
  destruct (FinalizeBind_only_adds_constants _ _ _ _ _ _ _ _ _ _ _ Hrun)
    as (rd0 & g & enabled & index & md & added & Hbase & _ & _ & _ & _ & _
        & Hm & Hi & Hc & _).
  injection Hbase as <-. rewrite Hm, Hi, Hc. done.
Defined.

(** * Options and binding of the reader *)

Lemma ParseOption_own host_base key val options :
  Lower key = "delta_file_number" \/ Lower key = "file_row_number" ->
  ParseOption host_base key val options
  = Ok (true, set_custom_option (Lower key) val options).
Proof. unfold ParseOption. by intros [-> | ->]. Qed.

(** X29. The [file_row_number] option is enabled by its presence alone.
    [ParseOption] handles the key itself whatever its case and stores the
    value; [Bind] then appends the [BIGINT] column [file_row_number] after
    the columns of the snapshot, whatever the value given, and
    [file_row_number_idx] is the position of that column.  On options that
    do not hold the key, [Bind] returns the columns of the snapshot as they
    are and [file_row_number_idx] points one past the last of them.  The
    option leaves the reading of [delta_file_number] as it was. *)
Theorem ParseOption_enables_file_row_number (host : Host)
    (base_ParseOption :
       string -> Value -> MultiFileReaderOptions -> res (bool * MultiFileReaderOptions))
    (key : string) (val : Value) (options : MultiFileReaderOptions)
    (w : World) (s : DeltaSnapshot) (return_types : list LogicalType)
    (names_p : list string) (tys : list LogicalType) (nms : list string)
    (w' : World) (s' : DeltaSnapshot) :
  Lower key = "file_row_number" ->
  Bind host w s return_types names_p = Ok (tys, nms, w', s') ->
  exists options',
    ParseOption base_ParseOption key val options = Ok (true, options')
    /\ DeltaMultiFileReader_Bind host options' w s return_types names_p
       = Ok (true, tys ++ [BIGINT], nms ++ ["file_row_number"], Z.of_nat (length nms), w', s')
    /\ (nms ++ ["file_row_number"]) !! Z.to_nat (Z.of_nat (length nms))
       = Some "file_row_number"
    /\ (ci_find "file_row_number" (custom_options options) = None ->
        DeltaMultiFileReader_Bind host options w s return_types names_p
        = Ok (true, tys, nms, Z.of_nat (length nms), w', s')
        /\ nms !! Z.to_nat (Z.of_nat (length nms)) = None)
    /\ option_enabled host "delta_file_number" options'
       = option_enabled host "delta_file_number" options.
Proof.
  intros Hkey Hbind. eexists. split; [apply ParseOption_own; by right|].
  rewrite Hkey. unfold DeltaMultiFileReader_Bind. rewrite Hbind. simpl.
  split_and!.
  - rewrite ci_find_insert. by case_decide.
  - rewrite Nat2Z.id. by rewrite lookup_app_r, Nat.sub_diag.
  - intros ->. split; [done|]. rewrite Nat2Z.id. by apply lookup_ge_None_2.
  - unfold option_enabled. simpl. rewrite ci_find_insert. by case_decide.
Qed.

(** X30. The [delta_file_number] option is enabled by its value.  After
    [ParseOption] has stored a value under the key, whatever its case,
    [BindOptions] calls the base class with hive partitioning, its
    detection and union by name switched off, and, the base class keeping
    the custom options, appends the [UBIGINT] column [delta_file_number]
    exactly when the value reads as true; a value that cannot be read as
    a boolean fails the call. *)
Theorem BindOptions_reads_delta_file_number (host : Host)
    (base_ParseOption :
       string -> Value -> MultiFileReaderOptions -> res (bool * MultiFileReaderOptions))
    (base_BindOptions :
       MultiFileReaderOptions -> list LogicalType -> list string ->
       res (MultiFileReaderOptions * list LogicalType * list string))
    (key : string) (val : Value) (options : MultiFileReaderOptions)
    (return_types : list LogicalType) (names_p : list string)
    (options1 : MultiFileReaderOptions) (tys : list LogicalType) (nms : list string) :
  Lower key = "delta_file_number" ->
  base_BindOptions
    {| auto_detect_hive_partitioning := false; hive_partitioning := false;
       union_by_name := false;
       custom_options := ci_insert "delta_file_number" val (custom_options options) |}
    return_types names_p = Ok (options1, tys, nms) ->
  custom_options options1 = ci_insert "delta_file_number" val (custom_options options) ->
  exists options',
    ParseOption base_ParseOption key val options = Ok (true, options')
    /\ BindOptions host base_BindOptions options' return_types names_p
       = match GetValue_bool host val with
         | Ok true => Ok (options1, tys ++ [UBIGINT], nms ++ ["delta_file_number"])
         | Ok false => Ok (options1, tys, nms)
         | Err e => Err e
         end.
Proof.
  intros Hkey Hbase Hcustom. eexists. split; [apply ParseOption_own; by left|].
  rewrite Hkey. unfold BindOptions. simpl. rewrite Hbase. simpl. rewrite Hcustom.
  rewrite ci_find_insert. case_decide; [|done].
  by destruct (GetValue_bool host val) as [[|]|].
Qed.

Lemma ParseOption_enables_file_row_number_witness :
  exists options' tys nms w s,
    ParseOption (fun _ _ o => Ok (false, o)) "File_Row_Number" (Value_BOOLEAN false)
                demo_options = Ok (true, options')
    /\ DeltaMultiFileReader_Bind (demo_host demo_scan) options' demo_world demo_snapshot
                                 [] []
       = Ok (true, tys ++ [BIGINT], nms ++ ["file_row_number"], Z.of_nat (length nms), w, s).
Proof.
  destruct (Bind (demo_host demo_scan) demo_world demo_snapshot [] [])
    as [[[[tys nms] w] s]|] eqn:Hbind; [|by vm_compute in Hbind].
  destruct (ParseOption_enables_file_row_number (demo_host demo_scan)
              (fun _ _ o => Ok (false, o)) "File_Row_Number" (Value_BOOLEAN false)
              demo_options demo_world demo_snapshot [] [] tys nms w s eq_refl Hbind)
    as (options' & Hparse & Hrun & _).
  exists options', tys, nms, w, s. split; [exact Hparse | exact Hrun].
Defined.

Lemma BindOptions_reads_delta_file_number_witness :
  exists options',
    ParseOption (fun _ _ o => Ok (false, o)) "DELTA_FILE_NUMBER" (Value_BOOLEAN true)
                demo_options = Ok (true, options')
    /\ exists options1,
         BindOptions (demo_host demo_scan) (fun o t n => Ok (o, t, n)) options'
                     [BIGINT; VARCHAR] ["id"; "region"]
         = Ok (options1, [BIGINT; VARCHAR; UBIGINT], ["id"; "region"; "delta_file_number"]).
Proof.
  destruct (BindOptions_reads_delta_file_number (demo_host demo_scan)
              (fun _ _ o => Ok (false, o)) (fun o t n => Ok (o, t, n))
              "DELTA_FILE_NUMBER" (Value_BOOLEAN true) demo_options
              [BIGINT; VARCHAR] ["id"; "region"] _ _ _ eq_refl eq_refl eq_refl)
    as (options' & Hparse & Hrun).
  exists options'. split; [exact Hparse|]. eexists. exact Hrun.
Defined.
